(** * Presupuesto Base Cero: the monthly ledger and its archive

    A shallow embedding of the persistent store ([db/database.js]), of the
    aggregation service ([services/BudgetService.js]) and of the helpers they
    use ([utils/helpers.js], [db/schema.js]), followed by the properties of
    the ledger: month closing, cascade deletion, the month partition of
    expenses, the settings singleton, percentages, and backup round trips.

    Conventions of the embedding.
    - JavaScript numbers are idealised as exact rationals ([Q]); there is no
      [NaN], so [parseFloat(x) || 0] takes an optional rational.  Sums are
      folded in the order of the program ([JS.sum]).
    - Strings are sequences of bytes: where the program trims a text or
      measures its length, the text is taken to be ASCII.
    - A plain object used as a map is the finite map of its own properties;
      a name of [JS.Object_prototype] that is no own property finds the
      inherited value, and the functions that index an object by a stored
      id say what they do with it.
    - [Array.prototype.sort] is stable, modelled by [JS.sort]; the
      collation of [localeCompare] and the number of [new Date(s)] are
      parameters.
    - An IndexedDB object store with [keyPath: 'id'] is a finite map from the
      primary key to the record ([gmap string _]).  The settings store is
      read under the key ['main'] only ([get(SETTINGS, 'main')]) and is the
      [option] of the record under that key; a settings object put under
      another key is read by no function and is not kept.
    - [new Date()] is read once per operation and is an explicit argument
      ([Clock]); [generateId()] draws the identifier passed as [newId].
    - Asynchronous functions are computations in the monad [Async], which
      threads the store, may throw, and logs every committed transaction. *)

From Stdlib Require Import QArith Qminmax.
From Stdlib Require Import Ascii String DecimalString DecimalN.
From stdpp Require Import gmap strings list sorting.

Close Scope Q_scope.
Open Scope string_scope.

(** ** JavaScript strings *)

Module JS.

(** [s.split(sep)] for a one-character separator: never the empty list. *)
Fixpoint split (sep : ascii) (s : string) : list string :=
  match s with
  | EmptyString => [EmptyString]
  | String c rest =>
      if Ascii.eqb c sep then EmptyString :: split sep rest
      else match split sep rest with
           | h :: t => String c h :: t
           | [] => [String c EmptyString]
           end
  end.

(** A template literal prints a missing array element as [undefined]. *)
Definition template (o : option string) : string :=
  match o with Some s => s | None => "undefined" end.

(** [s.slice(0, n)]. *)
Definition slice0 (n : nat) (s : string) : string := String.substring 0 n s.

(** [s.padStart(2, '0')]. *)
Definition padStart2 (s : string) : string :=
  match String.length s with
  | 0 => "00" ++ s
  | 1 => "0" ++ s
  | _ => s
  end.

(** [String(n)] for a natural number. *)
Definition String_ (n : N) : string := NilEmpty.string_of_uint (N.to_uint n).

(** [Number(s)] on strings of decimal digits ([Number('')] is [0]); every
    other string is read as [NaN], here [None].  The store applies
    [Number] to the two halves of a month key only. *)
Definition Number (s : string) : option N :=
  match NilEmpty.uint_of_string s with
  | Some d => Some (N.of_uint d)
  | None => None
  end.

(** [String(x)] for a number that may be [NaN]. *)
Definition String_nan (x : option N) : string :=
  match x with Some n => String_ n | None => "NaN" end.

(** [s.trim()]: white space is removed at both ends. *)
Fixpoint trimStart (s : string) : string :=
  match s with
  | String c rest => if Ascii.is_space c then trimStart rest else s
  | EmptyString => EmptyString
  end.

Definition trim (s : string) : string :=
  String.rev (trimStart (String.rev (trimStart s))).

(** [s || d] on strings: the empty string is falsy. *)
Definition or_string (s d : string) : string :=
  if String.eqb s "" then d else s.

(** [x || d] on numbers: zero is falsy. *)
Definition or_number (x d : Q) : Q :=
  if Qeq_bool x 0 then d else x.

(** [xs.reduce((sum, e) => sum + f(e), 0)]. *)
Definition sum {A} (f : A → Q) (xs : list A) : Q :=
  foldl (λ acc e, (acc + f e)%Q) 0%Q xs.

(** The names of the properties a plain object ([{}]) inherits from
    [Object.prototype]: under such a name [o[name]] is a function, or the
    prototype itself for ['__proto__'], unless [o] has a property of its
    own by that name. *)
Definition Object_prototype : list string :=
  ["constructor"; "__defineGetter__"; "__defineSetter__"; "hasOwnProperty";
   "__lookupGetter__"; "__lookupSetter__"; "isPrototypeOf";
   "propertyIsEnumerable"; "toString"; "valueOf"; "__proto__";
   "toLocaleString"].

Definition inherited (name : string) : bool :=
  bool_decide (name ∈ Object_prototype).

(** [xs.sort(compare)], where [before a b] says that [compare(a, b)] is at
    most zero.  The sort is stable: an element goes in front of the first
    element it may stay in front of, so elements that compare as equal keep
    their order. *)
Fixpoint insert_sorted {A} (before : relation A)
  `{!∀ x y, Decision (before x y)} (x : A) (l : list A) : list A :=
  match l with
  | [] => [x]
  | y :: rest =>
      if decide (before x y) then x :: l
      else y :: insert_sorted before x rest
  end.

Definition sort {A} (before : relation A) `{!∀ x y, Decision (before x y)}
  (xs : list A) : list A :=
  foldr (insert_sorted before) [] xs.

End JS.

(** ** Records of the five collections ([db/schema.js]) *)

Module Settings.
(** The record of the settings store under the key ['main']; its [id],
    which is that key, is left out. *)
Record t := mk {
  monthlyIncome : Q;
  currency : string;
  currentMonth : string;
  createdAt : string;
  updatedAt : string
}.

(** The argument of [updateSettings]: the fields a caller may set. *)
Record patch := mkPatch {
  p_monthlyIncome : option Q;
  p_currency : option string;
  p_currentMonth : option string
}.

(** A settings object with the [id] it carries, as [put] receives it and as
    a backup document holds it; the store has [keyPath: 'id'], so the [id]
    is the key the object is stored under. *)
Record keyed := withId {
  id : string;
  fields : t
}.
End Settings.

Module FixedExpense.
Record t := mk {
  id : string;
  name : string;
  amount : Q;
  order : option Z;
  createdAt : string;
  updatedAt : string
}.

(** The form data given to [createFixedExpense]. *)
Record data := mkData {
  d_name : option string;
  d_amount : option Q
}.

Record patch := mkPatch {
  p_id : option string;
  p_name : option string;
  p_amount : option Q;
  p_order : option Z;
  p_createdAt : option string
}.
End FixedExpense.

Module Category.
Record t := mk {
  id : string;
  name : string;
  budgetLimit : Q;
  color : string;
  icon : option string;
  order : option Z;
  createdAt : string;
  updatedAt : string
}.

Record data := mkData {
  d_name : option string;
  d_budgetLimit : option Q;
  d_color : option string;
  d_icon : option string
}.

Record patch := mkPatch {
  p_id : option string;
  p_name : option string;
  p_budgetLimit : option Q;
  p_color : option string;
  p_icon : option string;
  p_order : option Z;
  p_createdAt : option string
}.
End Category.

Module Expense.
Record t := mk {
  id : string;
  categoryId : string;
  description : string;
  amount : Q;
  date : string;
  month : string;
  createdAt : string;
  updatedAt : string
}.

Record data := mkData {
  d_categoryId : string;
  d_description : option string;
  d_amount : option Q;
  d_date : option string
}.

(** The argument of [updateExpense]: any field may be supplied, also the
    derived [month] and the key [id]. *)
Record patch := mkPatch {
  p_id : option string;
  p_categoryId : option string;
  p_description : option string;
  p_amount : option Q;
  p_date : option string;
  p_month : option string;
  p_createdAt : option string;
  p_updatedAt : option string
}.
End Expense.

Module Archive.
Record summary_t := mkSummary {
  monthlyIncome : Q;
  totalFixedExpenses : Q;
  totalBudgeted : Q;
  totalSpent : Q;
  totalSaved : Q;
  currency : string
}.

(** [{...cat, spent, remaining, percentage}]. *)
Record snapshot := mkSnapshot {
  category : Category.t;
  spent : Q;
  remaining : Q;
  percentage : Q
}.

Record t := mk {
  id : string;
  month : string;
  closedAt : string;
  summary : summary_t;
  fixedExpenses : list FixedExpense.t;
  categories : list snapshot;
  expenses : list Expense.t
}.
End Archive.

(** ** The database and the module state of [database.js] *)

Module DB.
Record t := mk {
  settings : option Settings.t;
  fixedExpenses : gmap string FixedExpense.t;
  categories : gmap string Category.t;
  expenses : gmap string Expense.t;
  monthlyArchives : gmap string Archive.t
}.
End DB.

(** [dbInstance] is the connection cached by [getDB]; [db] is what IndexedDB
    holds durably. *)
Record Store := mkStore {
  dbInstance : bool;
  db : DB.t
}.

Definition emptyDB : DB.t := DB.mk None ∅ ∅ ∅ ∅.

Inductive StoreName :=
  SETTINGS | FIXED_EXPENSES | CATEGORIES | EXPENSES | MONTHLY_ARCHIVES.

(** A request issued inside a readwrite transaction. *)
Inductive Write :=
| PutSettings (s : Settings.keyed)
| PutFixedExpense (f : FixedExpense.t)
| PutCategory (c : Category.t)
| PutExpense (e : Expense.t)
| PutArchive (a : Archive.t)
| DeleteKey (s : StoreName) (key : string)
| Clear (s : StoreName).

Definition apply_write (d : DB.t) (w : Write) : DB.t :=
  let se := DB.settings d in
  let fx := DB.fixedExpenses d in
  let ca := DB.categories d in
  let ex := DB.expenses d in
  let ar := DB.monthlyArchives d in
  match w with
  | PutSettings s =>
      DB.mk (if String.eqb (Settings.id s) "main" then Some (Settings.fields s)
             else se) fx ca ex ar
  | PutFixedExpense f => DB.mk se (<[FixedExpense.id f := f]> fx) ca ex ar
  | PutCategory c => DB.mk se fx (<[Category.id c := c]> ca) ex ar
  | PutExpense e => DB.mk se fx ca (<[Expense.id e := e]> ex) ar
  | PutArchive a => DB.mk se fx ca ex (<[Archive.id a := a]> ar)
  | DeleteKey SETTINGS key =>
      DB.mk (if String.eqb key "main" then None else se) fx ca ex ar
  | DeleteKey FIXED_EXPENSES key => DB.mk se (delete key fx) ca ex ar
  | DeleteKey CATEGORIES key => DB.mk se fx (delete key ca) ex ar
  | DeleteKey EXPENSES key => DB.mk se fx ca (delete key ex) ar
  | DeleteKey MONTHLY_ARCHIVES key => DB.mk se fx ca ex (delete key ar)
  | Clear SETTINGS => DB.mk None fx ca ex ar
  | Clear FIXED_EXPENSES => DB.mk se ∅ ca ex ar
  | Clear CATEGORIES => DB.mk se fx ∅ ex ar
  | Clear EXPENSES => DB.mk se fx ca ∅ ar
  | Clear MONTHLY_ARCHIVES => DB.mk se fx ca ex ∅
  end.

(** The requests of one transaction take effect in the order issued. *)
Definition commit (ws : list Write) (d : DB.t) : DB.t := foldl apply_write d ws.

(** ** Failures *)

(** The store throws plain [Error]s; the constructors name them after what
    they report.  [ConstraintError] is IndexedDB's failure of [add] on a key
    in use, [DataError] its failure of [put] on a record without a key,
    [JsTypeError] the engine's [TypeError] for a call of what is no function
    and for a property of [undefined] or of a number. *)
Inductive Error :=
| NotFoundError
| AlreadyClosedError (month : string)
| InvalidBackupError
| ConstraintError
| DataError
| JsTypeError.

Inductive Outcome (A : Type) :=
| Ok (a : A)
| Thrown (e : Error).
Arguments Ok {A} a.
Arguments Thrown {A} e.

(** ** Asynchronous store computations

    A computation maps the store to its outcome, the store it leaves, and
    the durable states it committed on the way, oldest first: every
    transaction commits as a whole, so the states a crash can leave behind
    are the initial one and the logged ones. *)

Record Run (A : Type) := mkRun {
  outcome : Outcome A;
  final : Store;
  committed : list DB.t
}.
Arguments mkRun {A}.
Arguments outcome {A}.
Arguments final {A}.
Arguments committed {A}.

Definition Async (A : Type) : Type := Store → Run A.

Definition ret {A} (a : A) : Async A := λ st, mkRun (Ok a) st [].

Definition throw {A} (e : Error) : Async A := λ st, mkRun (Thrown e) st [].

Definition bind {A B} (m : Async A) (k : A → Async B) : Async B :=
  λ st,
    let r := m st in
    match outcome r with
    | Ok a =>
        let r' := k a (final r) in
        mkRun (outcome r') (final r') (committed r ++ committed r')
    | Thrown e => mkRun (Thrown e) (final r) (committed r)
    end.

Notation "'let*' x ':=' m 'in' k" := (bind m (λ x, k))
  (at level 10, x pattern, m at level 100, k at level 200).

(** A read of the committed contents. *)
Definition read {A} (f : DB.t → A) : Async A :=
  λ st, mkRun (Ok (f (db st))) st [].

(** One readwrite transaction: its body computes the requests from the
    contents it starts on, or fails, in which case nothing is written. *)
Definition transaction (body : DB.t → Outcome (list Write)) : Async unit :=
  λ st,
    match body (db st) with
    | Ok ws =>
        let d := commit ws (db st) in
        mkRun (Ok tt) (mkStore (dbInstance st) d) [d]
    | Thrown e => mkRun (Thrown e) st []
    end.

(** The durable states that can be observed while [m] runs on [st]. *)
Definition observable {A} (m : Async A) (st : Store) : list DB.t :=
  db st :: committed (m st).

(** ** Index reads

    [getAllFromIndex] returns the records in the order of the index: by
    index key, then by primary key.  Every record of the typed collections
    carries the indexed field, so every record is in every index. *)

Definition entry_le (x y : string * string) : Prop :=
  (x.1 ≠ y.1 ∧ String.le x.1 y.1) ∨ (x.1 = y.1 ∧ String.le x.2 y.2).

#[global] Instance entry_le_dec : RelDecision entry_le.
Proof. intros x y. unfold entry_le. apply _. Defined.

Definition index_entries {A} (ix : A → string) (m : gmap string A)
  : list (string * A) :=
  merge_sort (λ x y, entry_le (ix x.2, x.1) (ix y.2, y.1)) (map_to_list m).

(** The entries of the index whose key is [key] ([IDBKeyRange.only(key)]). *)
Definition index_only {A} (ix : A → string) (key : string) (m : gmap string A)
  : list (string * A) :=
  filter (λ kv, ix kv.2 = key) (index_entries ix m).

Definition getAllFromIndex {A} (ix : A → string) (m : gmap string A) : list A :=
  (index_entries ix m).*2.

Definition getAllFromIndexOnly {A} (ix : A → string) (key : string)
  (m : gmap string A) : list A :=
  (index_only ix key m).*2.

(** [db.getAll(store)]: the records by primary key. *)
Definition getAll {A} (m : gmap string A) : list A :=
  (merge_sort (λ x y, String.le x.1 y.1) (map_to_list m)).*2.

(** ** The clock *)

Record Clock := mkClock {
  toISOString : string;   (* new Date().toISOString() *)
  getFullYear : N;        (* now.getFullYear() *)
  getMonth : N            (* now.getMonth(), 0 for January *)
}.

(** A month key [YYYY-MM] from a year and a month number. *)
Definition monthKey (year monthNum : N) : string :=
  JS.String_ year ++ "-" ++ JS.padStart2 (JS.String_ monthNum).

Definition getCurrentMonth (now : Clock) : string :=
  monthKey (getFullYear now) (getMonth now + 1).

(** ** [db/database.js] *)

Definition SETTINGS_SCHEMA (currentMonth createdAt updatedAt : string)
  : Settings.t :=
  Settings.mk 0%Q "Q" currentMonth createdAt updatedAt.

Definition initializeSettings (now : Clock) : Async unit :=
  let* settings := read DB.settings in
  match settings with
  | None =>
      transaction (λ _, Ok [PutSettings
        (Settings.withId "main"
           (SETTINGS_SCHEMA (getCurrentMonth now) (toISOString now)
              (toISOString now)))])
  | Some _ => ret tt
  end.

(** [openDB]: the upgrade callback creates the five object stores when they
    are missing, which leaves the contents as they are. *)
Definition openDB : Async unit :=
  λ st, mkRun (Ok tt) (mkStore true (db st)) [].

Definition getDB (now : Clock) : Async unit :=
  let* cached := (λ st, mkRun (Ok (dbInstance st)) st []) in
  if cached : bool then ret tt
  else let* _ := openDB in initializeSettings now.

Definition getSettings (now : Clock) : Async (option Settings.t) :=
  let* _ := getDB now in
  read DB.settings.

Definition updateSettings (now : Clock) (updates : Settings.patch)
  : Async Settings.t :=
  let* _ := getDB now in
  let* current := getSettings now in
  match current with
  | Some c =>
      let updated :=
        Settings.mk
          (default (Settings.monthlyIncome c) (Settings.p_monthlyIncome updates))
          (default (Settings.currency c) (Settings.p_currency updates))
          (default (Settings.currentMonth c) (Settings.p_currentMonth updates))
          (Settings.createdAt c)
          (toISOString now) in
      (* [current] was read under ['main'], so that is its [id] *)
      let* _ := transaction (λ _, Ok [PutSettings (Settings.withId "main" updated)]) in
      ret updated
  | None =>
      (* [{...undefined, ...updates, updatedAt}] has no [id]: [put] fails *)
      throw DataError
  end.

Definition getAllFixedExpenses (now : Clock) : Async (list FixedExpense.t) :=
  let* _ := getDB now in
  read (λ d, getAllFromIndex FixedExpense.createdAt (DB.fixedExpenses d)).

(** [db.add]: fails on a key that is in use. *)
Definition add {A} (store : DB.t → gmap string A) (key : string) (w : Write)
  : Async unit :=
  transaction (λ d,
    match store d !! key with
    | Some _ => Thrown ConstraintError
    | None => Ok [w]
    end).

Definition trimmed (o : option string) : string :=
  match o with Some s => JS.or_string (JS.trim s) "" | None => "" end.

Definition parsed (o : option Q) : Q :=
  match o with Some x => JS.or_number x 0%Q | None => 0%Q end.

Definition createFixedExpense (now : Clock) (newId : string)
  (data : FixedExpense.data) : Async FixedExpense.t :=
  let* _ := getDB now in
  let expense :=
    FixedExpense.mk newId
      (trimmed (FixedExpense.d_name data))
      (parsed (FixedExpense.d_amount data))
      None
      (toISOString now) (toISOString now) in
  let* _ := add DB.fixedExpenses newId (PutFixedExpense expense) in
  ret expense.

Definition updateFixedExpense (now : Clock) (id : string)
  (updates : FixedExpense.patch) : Async FixedExpense.t :=
  let* _ := getDB now in
  let* current := read (λ d, DB.fixedExpenses d !! id) in
  match current with
  | None => throw NotFoundError
  | Some c =>
      let updated :=
        FixedExpense.mk
          (default (FixedExpense.id c) (FixedExpense.p_id updates))
          (default (FixedExpense.name c) (FixedExpense.p_name updates))
          (default (FixedExpense.amount c) (FixedExpense.p_amount updates))
          (match FixedExpense.p_order updates with
           | Some o => Some o | None => FixedExpense.order c end)
          (default (FixedExpense.createdAt c) (FixedExpense.p_createdAt updates))
          (toISOString now) in
      let* _ := transaction (λ _, Ok [PutFixedExpense updated]) in
      ret updated
  end.

Definition deleteFixedExpense (now : Clock) (id : string) : Async unit :=
  let* _ := getDB now in
  transaction (λ _, Ok [DeleteKey FIXED_EXPENSES id]).

Definition getAllCategories (now : Clock) : Async (list Category.t) :=
  let* _ := getDB now in
  read (λ d, getAllFromIndex Category.createdAt (DB.categories d)).

Definition getCategory (now : Clock) (id : string) : Async (option Category.t) :=
  let* _ := getDB now in
  read (λ d, DB.categories d !! id).

Definition createCategory (now : Clock) (newId : string) (data : Category.data)
  : Async Category.t :=
  let* _ := getDB now in
  let category :=
    Category.mk newId
      (trimmed (Category.d_name data))
      (parsed (Category.d_budgetLimit data))
      (match Category.d_color data with
       | Some c => JS.or_string c "#00d4aa" | None => "#00d4aa" end)
      (match Category.d_icon data with
       | Some i => if String.eqb i "" then None else Some i | None => None end)
      None
      (toISOString now) (toISOString now) in
  let* _ := add DB.categories newId (PutCategory category) in
  ret category.

Definition updateCategory (now : Clock) (id : string) (updates : Category.patch)
  : Async Category.t :=
  let* _ := getDB now in
  let* current := read (λ d, DB.categories d !! id) in
  match current with
  | None => throw NotFoundError
  | Some c =>
      let updated :=
        Category.mk
          (default (Category.id c) (Category.p_id updates))
          (default (Category.name c) (Category.p_name updates))
          (default (Category.budgetLimit c) (Category.p_budgetLimit updates))
          (default (Category.color c) (Category.p_color updates))
          (match Category.p_icon updates with
           | Some i => Some i | None => Category.icon c end)
          (match Category.p_order updates with
           | Some o => Some o | None => Category.order c end)
          (default (Category.createdAt c) (Category.p_createdAt updates))
          (toISOString now) in
      let* _ := transaction (λ _, Ok [PutCategory updated]) in
      ret updated
  end.

(** The cursor over the [categoryId] index deletes every entry it visits;
    the category goes in the same transaction. *)
Definition deleteCategory (now : Clock) (id : string) : Async unit :=
  let* _ := getDB now in
  transaction (λ d,
    Ok (map (λ kv, DeleteKey EXPENSES kv.1)
            (index_only Expense.categoryId id (DB.expenses d))
        ++ [DeleteKey CATEGORIES id])%list).

(** [month || getCurrentMonth()]. *)
Definition orCurrentMonth (now : Clock) (month : option string) : string :=
  match month with
  | Some m => JS.or_string m (getCurrentMonth now)
  | None => getCurrentMonth now
  end.

Definition getExpensesForMonth (now : Clock) (month : option string)
  : Async (list Expense.t) :=
  let* _ := getDB now in
  let targetMonth := orCurrentMonth now month in
  read (λ d, getAllFromIndexOnly Expense.month targetMonth (DB.expenses d)).

Definition getExpensesByCategory (now : Clock) (categoryId : string)
  (month : option string) : Async (list Expense.t) :=
  let* _ := getDB now in
  let* allExpenses := getExpensesForMonth now month in
  ret (filter (λ e, Expense.categoryId e = categoryId) allExpenses).

(** [const [year, month] = date.split('-')] then [`${year}-${month}`]. *)
Definition monthOfDate (date : string) : string :=
  let parts := JS.split "-" date in
  JS.template (parts !! 0%nat) ++ "-" ++ JS.template (parts !! 1%nat).

(** [data.date || now.split('T')[0]]. *)
Definition expenseDateOf (now : Clock) (data : Expense.data) : string :=
  let today := JS.template (JS.split "T" (toISOString now) !! 0%nat) in
  match Expense.d_date data with
  | Some d => JS.or_string d today
  | None => today
  end.

Definition createExpense (now : Clock) (newId : string) (data : Expense.data)
  : Async Expense.t :=
  let* _ := getDB now in
  let expenseDate := expenseDateOf now data in
  let expense :=
    Expense.mk newId
      (Expense.d_categoryId data)
      (trimmed (Expense.d_description data))
      (parsed (Expense.d_amount data))
      expenseDate
      (monthOfDate expenseDate)
      (toISOString now) (toISOString now) in
  let* _ := add DB.expenses newId (PutExpense expense) in
  ret expense.

Definition updateExpense (now : Clock) (id : string) (updates : Expense.patch)
  : Async Expense.t :=
  let* _ := getDB now in
  let* current := read (λ d, DB.expenses d !! id) in
  match current with
  | None => throw NotFoundError
  | Some c =>
      (* Recalculate month if date changed *)
      let month :=
        match Expense.p_date updates with
        | Some d => if String.eqb d "" then Expense.month c else monthOfDate d
        | None => Expense.month c
        end in
      let updated :=
        Expense.mk
          (default (Expense.id c) (Expense.p_id updates))
          (default (Expense.categoryId c) (Expense.p_categoryId updates))
          (default (Expense.description c) (Expense.p_description updates))
          (default (Expense.amount c) (Expense.p_amount updates))
          (default (Expense.date c) (Expense.p_date updates))
          month
          (default (Expense.createdAt c) (Expense.p_createdAt updates))
          (toISOString now) in
      let* _ := transaction (λ _, Ok [PutExpense updated]) in
      ret updated
  end.

Definition deleteExpense (now : Clock) (id : string) : Async unit :=
  let* _ := getDB now in
  transaction (λ _, Ok [DeleteKey EXPENSES id]).

Definition getTotalFixedExpenses (now : Clock) : Async Q :=
  let* expenses := getAllFixedExpenses now in
  ret (JS.sum FixedExpense.amount expenses).

Definition getTotalBudgeted (now : Clock) : Async Q :=
  let* categories := getAllCategories now in
  ret (JS.sum Category.budgetLimit categories).

(** [x > 0] on numbers. *)
Definition positive_number (x : Q) : bool := negb (Qle_bool x 0).

(** The percentage the store computes itself: it is not clamped. *)
Definition rawPercentage (spent budgetLimit : Q) : Q :=
  if positive_number budgetLimit then (spent / budgetLimit * 100)%Q else 0%Q.

Module Spending.
Record t := mk {
  category : Category.t;
  spent : Q;
  remaining : Q;
  percentage : Q;
  expenses : list Expense.t
}.
End Spending.

(** [categorySpending[key]] is truthy although [key] is no property of
    [categorySpending] itself: the value is found on the prototype chain.
    That is [Object.prototype], behind the entry of the category whose id is
    ['__proto__'] when there is one, because the assignment to that key
    replaces the prototype; the fields [category] and [expenses] of that
    entry are objects, its three numbers are truthy unless they are zero. *)
Definition found_on_prototype (categorySpending : gmap string Spending.t)
  (key : string) : bool :=
  JS.inherited key
  || match categorySpending !! "__proto__" with
     | Some entry =>
         String.eqb key "category" || String.eqb key "expenses"
         || (String.eqb key "spent"
             && negb (Qeq_bool (Spending.spent entry) 0))
         || (String.eqb key "remaining"
             && negb (Qeq_bool (Spending.remaining entry) 0))
         || (String.eqb key "percentage"
             && negb (Qeq_bool (Spending.percentage entry) 0))
     | None => false
     end.

(** The body of [expenses.forEach]: the entry of the category is updated
    in place.  A value found on the prototype chain is no entry: the body
    assigns to its [spent] and then fails on its [category], or fails at
    once when the value is a number (the module is in strict mode). *)
Definition countExpense (categorySpending : gmap string Spending.t)
  (expense : Expense.t) : Outcome (gmap string Spending.t) :=
  match categorySpending !! Expense.categoryId expense with
  | Some catData =>
      let cat := Spending.category catData in
      let spent := (Spending.spent catData + Expense.amount expense)%Q in
      Ok (<[Expense.categoryId expense :=
              Spending.mk cat spent
                (Category.budgetLimit cat - spent)%Q
                (rawPercentage spent (Category.budgetLimit cat))
                (Spending.expenses catData ++ [expense])]> categorySpending)
  | None =>
      if found_on_prototype categorySpending (Expense.categoryId expense)
      then Thrown JsTypeError
      else Ok categorySpending
  end.

(** The result maps an id to what [summary[id]] is; the entry of a category
    whose id is ['__proto__'] is the prototype of the summary and is found
    under that key. *)
Definition getMonthlySpendingSummary (now : Clock) (month : option string)
  : Async (gmap string Spending.t) :=
  let* categories := getAllCategories now in
  let* expenses := getExpensesForMonth now month in
  let categorySpending : gmap string Spending.t :=
    foldl (λ acc cat,
             <[Category.id cat :=
                 Spending.mk cat 0%Q (Category.budgetLimit cat) 0%Q []]> acc)
          ∅ categories in
  match foldl (λ acc expense,
                 match acc with
                 | Ok categorySpending => countExpense categorySpending expense
                 | Thrown e => Thrown e
                 end)
              (Ok categorySpending) expenses with
  | Ok summary => ret summary
  | Thrown e => throw e
  end.

(** *** Backup documents *)

Module Backup.
Record data_t := mkData {
  settings : option Settings.keyed;
  fixedExpenses : option (list FixedExpense.t);
  categories : option (list Category.t);
  expenses : option (list Expense.t);
  monthlyArchives : option (list Archive.t)
}.

Record t := mk {
  version : N;
  exportedAt : string;
  appName : string;
  data : option data_t
}.
End Backup.

Definition DB_VERSION : N := 3.

Definition exportData (now : Clock) : Async Backup.t :=
  let* _ := getDB now in
  let* settings := getSettings now in
  let* fixedExpenses := getAllFixedExpenses now in
  let* categories := getAllCategories now in
  let* allExpenses := read (λ d, getAll (DB.expenses d)) in
  let* archives := read (λ d, getAll (DB.monthlyArchives d)) in
  (* the object [getSettings] read under ['main'] carries that [id] *)
  ret (Backup.mk DB_VERSION (toISOString now) "Presupuesto Base Cero"
         (Some (Backup.mkData (Settings.withId "main" <$> settings)
                  (Some fixedExpenses) (Some categories)
                  (Some allExpenses) (Some archives)))).

(** [importData]: a document without [data] is refused before the store is
    touched; otherwise one transaction clears the five stores and puts what
    the document holds, each object under the [id] it carries.  The archive
    store exists from schema version 2 on, so [objectStoreNames.contains]
    holds. *)
Definition importData (now : Clock) (backup : option Backup.t) : Async unit :=
  match backup ≫= Backup.data with
  | None => throw InvalidBackupError
  | Some data =>
      let* _ := getDB now in
      transaction (λ _,
        Ok ([Clear SETTINGS; Clear FIXED_EXPENSES; Clear CATEGORIES;
             Clear EXPENSES; Clear MONTHLY_ARCHIVES]
            ++ match Backup.settings data with
               | Some s => [PutSettings s]
               | None => []
               end
            ++ map PutFixedExpense (default [] (Backup.fixedExpenses data))
            ++ map PutCategory (default [] (Backup.categories data))
            ++ map PutExpense (default [] (Backup.expenses data))
            ++ map PutArchive (default [] (Backup.monthlyArchives data)))%list)
  end.

(** *** Monthly archives *)

(** [(a, b) => b.month.localeCompare(a.month)] is at most zero;
    [localeCompare] is the collation of the environment. *)
Definition laterFirst (localeCompare : string → string → Z)
  (a b : Archive.t) : Prop :=
  (localeCompare (Archive.month b) (Archive.month a) ≤ 0)%Z.

#[global] Instance laterFirst_dec localeCompare :
  RelDecision (laterFirst localeCompare).
Proof. intros a b. unfold laterFirst. apply _. Defined.

(** Most recent month first. *)
Definition getAllArchives (localeCompare : string → string → Z) (now : Clock)
  : Async (list Archive.t) :=
  let* _ := getDB now in
  let* archives :=
    read (λ d, getAllFromIndex Archive.closedAt (DB.monthlyArchives d)) in
  ret (JS.sort (laterFirst localeCompare) archives).

Definition getArchive (now : Clock) (month : string)
  : Async (option Archive.t) :=
  let* _ := getDB now in
  read (λ d, DB.monthlyArchives d !! month).

Definition isMonthArchived (now : Clock) (month : string) : Async bool :=
  let* archive := getArchive now month in
  ret (bool_decide (is_Some archive)).

(** [const [year, monthNum] = targetMonth.split('-').map(Number)] and the
    key of the month after it.  [None] stands for [NaN]; a missing second
    part is [undefined], which compares and adds like [NaN]. *)
Definition nextMonth (targetMonth : string) : string :=
  let parts := JS.Number <$> JS.split "-" targetMonth in
  let year := match parts !! 0%nat with Some y => y | None => None end in
  let monthNum := match parts !! 1%nat with Some m => m | None => None end in
  if bool_decide (monthNum = Some 12%N)
  then JS.String_nan ((λ y, y + 1)%N <$> year) ++ "-01"
  else JS.String_nan year ++ "-"
         ++ JS.padStart2 (JS.String_nan ((λ m, m + 1)%N <$> monthNum)).

Definition snapshotCategory (expenses : list Expense.t) (cat : Category.t)
  : Archive.snapshot :=
  let catExpenses := filter (λ e, Expense.categoryId e = Category.id cat) expenses in
  let spent := JS.sum Expense.amount catExpenses in
  Archive.mkSnapshot cat spent
    (Category.budgetLimit cat - spent)%Q
    (rawPercentage spent (Category.budgetLimit cat)).

(** The totals and the archive record [closeMonth] computes from what it
    gathered. *)
Definition archiveRecord (now : Clock) (targetMonth : string)
  (settings : option Settings.t) (fixedExpenses : list FixedExpense.t)
  (categories : list Category.t) (expenses : list Expense.t) : Archive.t :=
  (* Calculate totals *)
  let totalFixedExpenses := JS.sum FixedExpense.amount fixedExpenses in
  let totalBudgeted := JS.sum Category.budgetLimit categories in
  let totalSpent := JS.sum Expense.amount expenses in
  let monthlyIncome :=
    match settings with
    | Some s => JS.or_number (Settings.monthlyIncome s) 0%Q
    | None => 0%Q
    end in
  let totalSaved := (monthlyIncome - totalFixedExpenses - totalSpent)%Q in
  (* Build category spending snapshot, create archive record *)
  Archive.mk targetMonth targetMonth (toISOString now)
    (Archive.mkSummary monthlyIncome totalFixedExpenses totalBudgeted
       totalSpent totalSaved
       match settings with
       | Some s => JS.or_string (Settings.currency s) "Q"
       | None => "Q"
       end)
    fixedExpenses
    (map (snapshotCategory expenses) categories)
    expenses.

Definition closeMonth (now : Clock) (month : option string) : Async Archive.t :=
  let targetMonth := orCurrentMonth now month in
  (* Check if already archived *)
  let* existing := getArchive now targetMonth in
  match existing with
  | Some _ => throw (AlreadyClosedError targetMonth)
  | None =>
      (* Gather all data for the month *)
      let* settings := getSettings now in
      let* fixedExpenses := getAllFixedExpenses now in
      let* categories := getAllCategories now in
      let* expenses := getExpensesForMonth now (Some targetMonth) in
      let archive :=
        archiveRecord now targetMonth settings fixedExpenses categories expenses in
      (* Save archive and delete current month's expenses *)
      let* _ := getDB now in
      let* _ := transaction (λ d,
        Ok (PutArchive archive
            :: map (λ kv, DeleteKey EXPENSES kv.1)
                   (index_only Expense.month targetMonth (DB.expenses d)))) in
      (* Update settings to next month if closing current month *)
      let* _ :=
        if String.eqb targetMonth (getCurrentMonth now)
        then let* _ := updateSettings now
                         (Settings.mkPatch None None (Some (nextMonth targetMonth))) in
             ret tt
        else ret tt in
      ret archive
  end.

Definition deleteArchive (now : Clock) (month : string) : Async unit :=
  let* _ := getDB now in
  transaction (λ _, Ok [DeleteKey MONTHLY_ARCHIVES month]).

Definition getAllExpenses (now : Clock) : Async (list Expense.t) :=
  let* _ := getDB now in
  read (λ d, getAll (DB.expenses d)).

(** ** [utils/helpers.js] *)

Definition calculatePercentage (value total : Q) : Q :=
  if Qle_bool total 0 then 0%Q
  else
    let percentage := (value / total * 100)%Q in
    Qmin 100 (Qmax 0 percentage).

Inductive ProgressStatus := normal | warning | danger.

Definition getProgressStatus (percentage : Q) : ProgressStatus :=
  if Qle_bool 100 percentage then danger
  else if Qle_bool 80 percentage then warning
  else normal.

(** ** [services/BudgetService.js]

    None of the functions declares a month parameter: each reads the
    expenses through [db.getExpensesForMonth()], that is, for the month of
    the clock. *)

Module Overview.
Record t := mk {
  monthlyIncome : Q;
  totalFixedExpenses : Q;
  totalBudgeted : Q;
  totalSpent : Q;
  availableForBudget : Q;
  remainingBudget : Q;
  unassigned : Q;
  realAvailable : Q;
  currency : string;
  currentMonth : string;
  fixedExpensesPercent : Q;
  budgetedPercent : Q;
  spentPercent : Q
}.
End Overview.

Module CategorySpending.
(** [{...category, spent, remaining, percentage, expenses}]. *)
Record detail := mkDetail {
  d_category : Category.t;
  d_spent : Q;
  d_remaining : Q;
  d_percentage : Q;
  d_expenses : list Expense.t
}.

(** [{...category, spent, remaining, percentage, expenseCount}]. *)
Record t := mk {
  category : Category.t;
  spent : Q;
  remaining : Q;
  percentage : Q;
  expenseCount : nat
}.
End CategorySpending.

Module Slice.
Record t := mk { name : string; value : Q; color : string; percentage : Q }.
End Slice.

Module Bar.
Record t := mk { name : string; budget : Q; actual : Q; color : string }.
End Bar.

Definition getBudgetOverview (now : Clock) : Async Overview.t :=
  let* settings := getSettings now in
  let* fixedExpenses := getAllFixedExpenses now in
  let* categories := getAllCategories now in
  let* expenses := getExpensesForMonth now None in
  let monthlyIncome :=
    match settings with
    | Some s => JS.or_number (Settings.monthlyIncome s) 0%Q
    | None => 0%Q
    end in
  let totalFixedExpenses := JS.sum FixedExpense.amount fixedExpenses in
  let totalBudgeted := JS.sum Category.budgetLimit categories in
  let totalSpent := JS.sum Expense.amount expenses in
  let availableForBudget := (monthlyIncome - totalFixedExpenses)%Q in
  let remainingBudget := (totalBudgeted - totalSpent)%Q in
  let unassigned := (availableForBudget - totalBudgeted)%Q in
  let realAvailable := (monthlyIncome - totalFixedExpenses - totalSpent)%Q in
  ret (Overview.mk monthlyIncome totalFixedExpenses totalBudgeted totalSpent
         availableForBudget remainingBudget unassigned realAvailable
         match settings with
         | Some s => JS.or_string (Settings.currency s) "Q"
         | None => "Q"
         end
         match settings with
         | Some s => JS.or_string (Settings.currentMonth s) (getCurrentMonth now)
         | None => getCurrentMonth now
         end
         (calculatePercentage totalFixedExpenses monthlyIncome)
         (calculatePercentage totalBudgeted availableForBudget)
         (calculatePercentage totalSpent totalBudgeted)).

Section DateOrder.

(** [new Date(s)] as a number, for the comparator of [sort]. *)
Variable dateValue : string → Q.

(** [(a, b) => new Date(b.date) - new Date(a.date)] is at most zero. *)
Definition newerFirst (a b : Expense.t) : Prop :=
  Qle_bool (dateValue (Expense.date b)) (dateValue (Expense.date a)) = true.

#[local] Instance newerFirst_dec : RelDecision newerFirst.
Proof. intros a b. unfold newerFirst. apply _. Defined.

Definition getCategoryWithSpending (now : Clock) (categoryId : string)
  : Async (option CategorySpending.detail) :=
  let* category := getCategory now categoryId in
  let* expenses := getExpensesByCategory now categoryId None in
  match category with
  | None => ret None
  | Some category =>
      let spent := JS.sum Expense.amount expenses in
      let remaining := (Category.budgetLimit category - spent)%Q in
      let percentage := calculatePercentage spent (Category.budgetLimit category) in
      ret (Some (CategorySpending.mkDetail category spent remaining percentage
                   (JS.sort newerFirst expenses)))
  end.

End DateOrder.

(** [expensesByCategory[id].push(expense)], creating the group on first
    use.  Under an inherited name the object answers with the inherited
    value, which is truthy and has no [push]: no group is created and the
    call throws. *)
Definition groupByCategory (expenses : list Expense.t)
  : Outcome (gmap string (list Expense.t)) :=
  foldl (λ acc expense,
           match acc with
           | Ok groups =>
               if JS.inherited (Expense.categoryId expense)
               then Thrown JsTypeError
               else
                 Ok (<[Expense.categoryId expense :=
                         (default [] (groups !! Expense.categoryId expense)
                          ++ [expense])%list]> groups)
           | Thrown e => Thrown e
           end)
        (Ok ∅) expenses.

(** The body of [categories.map]; [expensesByCategory[category.id] || []]
    is the inherited value under an inherited name, which has no
    [reduce]. *)
Definition withSpending (expensesByCategory : gmap string (list Expense.t))
  (category : Category.t) : Outcome CategorySpending.t :=
  if JS.inherited (Category.id category) then Thrown JsTypeError
  else
    let categoryExpenses :=
      default [] (expensesByCategory !! Category.id category) in
    let spent := JS.sum Expense.amount categoryExpenses in
    Ok (CategorySpending.mk category spent
          (Category.budgetLimit category - spent)%Q
          (calculatePercentage spent (Category.budgetLimit category))
          (length categoryExpenses)).

(** [xs.map(f)] for a callback that may throw. *)
Fixpoint mapOutcome {A B} (f : A → Outcome B) (xs : list A)
  : Outcome (list B) :=
  match xs with
  | [] => Ok []
  | x :: rest =>
      match f x with
      | Ok y =>
          match mapOutcome f rest with
          | Ok ys => Ok (y :: ys)
          | Thrown e => Thrown e
          end
      | Thrown e => Thrown e
      end
  end.

Definition getAllCategoriesWithSpending (now : Clock)
  : Async (list CategorySpending.t) :=
  let* categories := getAllCategories now in
  let* expenses := getExpensesForMonth now None in
  match groupByCategory expenses with
  | Ok expensesByCategory =>
      match mapOutcome (withSpending expensesByCategory) categories with
      | Ok categoriesWithSpending => ret categoriesWithSpending
      | Thrown e => throw e
      end
  | Thrown e => throw e
  end.

Definition getCategoryDistribution (now : Clock) : Async (list Slice.t) :=
  let* categoriesWithSpending := getAllCategoriesWithSpending now in
  ret (map (λ c, Slice.mk (Category.name (CategorySpending.category c))
                   (CategorySpending.spent c)
                   (Category.color (CategorySpending.category c))
                   (CategorySpending.percentage c))
           (filter (λ c, positive_number (CategorySpending.spent c) = true)
                   categoriesWithSpending)).

Definition getBudgetVsActual (now : Clock) : Async (list Bar.t) :=
  let* categoriesWithSpending := getAllCategoriesWithSpending now in
  ret (map (λ c, Bar.mk (Category.name (CategorySpending.category c))
                   (Category.budgetLimit (CategorySpending.category c))
                   (CategorySpending.spent c)
                   (Category.color (CategorySpending.category c)))
           categoriesWithSpending).

(** A call that passes an argument the function does not declare:
    JavaScript evaluates the argument and drops it.  The dashboard calls
    [BudgetService.getBudgetOverview(viewMonth)] and
    [BudgetService.getAllCategoriesWithSpending(viewMonth)] this way. *)
Definition callWithMonth {A} (f : Clock → Async A) (viewMonth : option string)
  : Clock → Async A := f.


(** ** More of [services/BudgetService.js] *)

(** [x > y] on numbers. *)
Definition greater_number (x y : Q) : bool := negb (Qle_bool x y).

Module Addition.
(** [{ valid: false, message }] or
    [{ valid: true, wouldExceed, newPercentage, remaining, category }]. *)
Inductive t :=
| Invalid (message : string)
| Valid (wouldExceed : bool) (newPercentage remaining : Q)
    (category : CategorySpending.detail).
End Addition.

Definition validateExpenseAddition (dateValue : string → Q) (now : Clock)
  (categoryId : string) (amount : Q) : Async Addition.t :=
  let* categoryData := getCategoryWithSpending dateValue now categoryId in
  match categoryData with
  | None => ret (Addition.Invalid "Categoría no encontrada")
  | Some categoryData =>
      let budgetLimit :=
        Category.budgetLimit (CategorySpending.d_category categoryData) in
      let wouldExceed :=
        greater_number (CategorySpending.d_spent categoryData + amount)%Q
          budgetLimit in
      let newPercentage :=
        calculatePercentage (CategorySpending.d_spent categoryData + amount)%Q
          budgetLimit in
      ret (Addition.Valid wouldExceed newPercentage
             (CategorySpending.d_remaining categoryData - amount)%Q
             categoryData)
  end.

(** *** The daily trend

    [dailySpending] is a plain object used as a map from dates to sums.  It
    is modelled by its own properties in the order of their creation;
    [Object.entries] lists the keys that are array indices first, by their
    number, and the other keys in the order of creation.

    Under the name of an inherited property the object answers with the
    inherited value before a property of its own exists.  That value is
    truthy, and [+] joins its text and the text of the amount: the sum of
    such a date is a text.  The assignment to ['__proto__'] is the
    inherited setter, which ignores a text: that date gets no property. *)

Module Day.
Inductive sum := Number (x : Q) | Text (s : string).

Record t := mk { date : string; amount : sum }.
End Day.


Section Trend.

(** The text of a number, and the text of the value inherited under a
    name. *)
Variable numberToString : Q → string.
Variable inheritedText : string → string.




End Trend.

(** A key is an array index when it is the decimal form of a number below
    [2^32 - 1]. *)
Definition arrayIndex (s : string) : option N :=
  match JS.Number s with
  | Some n =>
      if String.eqb (JS.String_ n) s && (n <? 4294967295)%N then Some n
      else None
  | None => None
  end.

Definition index_le {V} (x y : string * V) : Prop :=
  (default 0 (arrayIndex x.1) ≤ default 0 (arrayIndex y.1))%N.

#[global] Instance index_le_dec {V} : RelDecision (@index_le V).
Proof. intros x y. unfold index_le. apply _. Defined.


Section TrendOrder.

(** [new Date(s)] as a number, for the comparator of [sort]; the number of
    an invalid date is [NaN], here [None]. *)
Variable dateValue : string → option Q.

Variable numberToString : Q → string.
Variable inheritedText : string → string.

(** [(a, b) => new Date(a.date) - new Date(b.date)] is at most zero; [sort]
    reads a difference that is [NaN] as zero. *)
Definition olderFirst (a b : Day.t) : Prop :=
  match dateValue (Day.date a), dateValue (Day.date b) with
  | Some x, Some y => Qle_bool x y = true
  | _, _ => True
  end.

#[local] Instance olderFirst_dec : RelDecision olderFirst.
Proof.
  intros a b. unfold olderFirst.
  destruct (dateValue (Day.date a)), (dateValue (Day.date b)); apply _.
Defined.


End TrendOrder.

(** ** More of [utils/helpers.js] *)

(** [new Date().toISOString().split('T')[0]]; [split] never returns an
    empty array. *)
Definition getTodayDate (now : Clock) : string :=
  JS.template (JS.split "T" (toISOString now) !! 0%nat).

(** ** [utils/errorHandler.js] *)

(** [s.includes(needle)]. *)
Fixpoint includes (needle s : string) : bool :=
  String.prefix needle s
  || match s with
     | EmptyString => false
     | String _ rest => includes needle rest
     end.

Module JsError.
(** A thrown value: its [name], and its [message] when it has one. *)
Record t := mk { name : string; message : option string }.
End JsError.

Module Toast.
Inductive kind := success | error | warning | info.

Record t := mk { message : string; type : kind; duration : N }.
End Toast.

(** The toast [showToast(message, type)] adds; it stays for 3000 ms unless
    the caller says otherwise. *)
Definition showToast (message : string) (type : Toast.kind) : Toast.t :=
  Toast.mk message type 3000.

(** [handleError]: the toast it shows (the console is not modelled). *)
Definition handleError (error : JsError.t) : Toast.t :=
  (* User-friendly error messages *)
  let message :=
    match JsError.message error with
    | Some m =>
        if String.eqb m "" then "Ocurrió un error inesperado"
        else
          (* Check for known error types *)
          if includes "QuotaExceededError" m
          then "Sin espacio de almacenamiento. Intenta eliminar algunos datos."
          else if includes "NotFoundError" m then "El elemento no fue encontrado"
          else if String.eqb (JsError.name error) "ValidationError" then m
          else if includes "no encontrad" m then m
          else m
    | None => "Ocurrió un error inesperado"
    end in
  showToast message Toast.error.

(** What [validateForm] throws: a [ValidationError] of its own, or the
    engine's [TypeError] for [value.length] of [undefined]. *)
Inductive FormError :=
| ValidationError (message : string)
| TypeError.

Inductive RuleType := type_number | type_string.

#[global] Instance RuleType_eq_dec : EqDecision RuleType.
Proof. solve_decision. Defined.

Module Rule.
(** One entry of the rules of [validateForm]; a field the caller leaves out
    is [None], and [required] left out is [false]. *)
Record t := mk {
  required : bool;
  type : option RuleType;
  min : option Q;
  max : option Q;
  minLength : option nat;
  maxLength : option nat;
  label : option string
}.
End Rule.

Section Forms.

(** [parseFloat] of a form value ([None] is [NaN]) and the printing of a
    number in a template literal. *)
Variable parseFloat : string → option Q.
Variable numberToString : Q → string.

(** [parseFloat(value)] of a value that may be [undefined]. *)
Definition parseFloat_value (value : option string) : option Q :=
  match value with
  | Some s => parseFloat s
  | None => None
  end.

(** [rule.label || field]. *)
Definition labelOf (field : string) (rule : Rule.t) : string :=
  match Rule.label rule with
  | Some l => JS.or_string l field
  | None => field
  end.

(** [n && ...] on an optional length: [undefined] and [0] are falsy. *)
Definition truthy_length (o : option nat) : option nat :=
  match o with
  | Some 0%nat => None
  | _ => o
  end.

(** The checks of a number against [rule.min] and [rule.max]. *)
Definition checkRange (name : string) (rule : Rule.t) (num : Q)
  : option FormError :=
  let checkMax :=
    match Rule.max rule with
    | Some M =>
        if greater_number num M
        then Some (ValidationError
                     (name ++ " debe ser menor a " ++ numberToString M))
        else None
    | None => None
    end in
  match Rule.min rule with
  | Some m =>
      if greater_number m num
      then Some (ValidationError
                   (name ++ " debe ser al menos " ++ numberToString m))
      else checkMax
  | None => checkMax
  end.

(** A check of [value.length] against a bound that is set and not zero. *)
Definition checkLength (bound : option nat) (value : option string)
  (fails : nat → nat → bool) (message : nat → string) : option FormError :=
  match truthy_length bound with
  | Some n =>
      match value with
      | None => Some TypeError
      | Some s =>
          if fails (String.length s) n then Some (ValidationError (message n))
          else None
      end
  | None => None
  end.

(** The checks of one field, in the order of the loop body; [value] is
    [data[field]], [None] when the form has no such field. *)
Definition checkField (field : string) (rule : Rule.t) (value : option string)
  : option FormError :=
  let name := labelOf field rule in
  if Rule.required rule && bool_decide (value = None ∨ value = Some "")
  then Some (ValidationError (name ++ " es requerido"))
  else
    let numeric :=
      if bool_decide (Rule.type rule = Some type_number)
         && negb (bool_decide (value = Some ""))
      then
        match parseFloat_value value with
        | None => Some (ValidationError (name ++ " debe ser un número"))
        | Some num => checkRange name rule num
        end
      else None in
    match numeric with
    | Some e => Some e
    | None =>
        if bool_decide (Rule.type rule = Some type_string)
        then
          match checkLength (Rule.minLength rule) value Nat.ltb
                  (λ n, name ++ " debe tener al menos "
                        ++ JS.String_ (N.of_nat n) ++ " caracteres") with
          | Some e => Some e
          | None =>
              checkLength (Rule.maxLength rule) value (λ len n, Nat.ltb n len)
                (λ n, name ++ " debe tener máximo "
                      ++ JS.String_ (N.of_nat n) ++ " caracteres")
          end
        else None
    end.

(** [validateForm(data, rules)]: [None] when it returns, what it throws at
    the first failing check otherwise.  The form data holds text only, and
    the rules are listed in the order of their keys. *)
Fixpoint validateForm (data : gmap string string)
  (rules : list (string * Rule.t)) : option FormError :=
  match rules with
  | [] => None
  | (field, rule) :: rest =>
      match checkField field rule (data !! field) with
      | Some e => Some e
      | None => validateForm data rest
      end
  end.

(** [openQuickExpenseModal] ([main.js]): the rules of its form, and its
    [onSubmit] up to the call of the store.  What [validateForm] throws goes
    to [handleError]; past the validation [data.categoryId] is a string. *)
Definition quickExpenseRules : list (string * Rule.t) :=
  [("amount", Rule.mk true (Some type_number) (Some (1 # 100)%Q) None None None
                (Some "Monto"));
   ("categoryId", Rule.mk true None None None None None (Some "Categoría"))].

Definition submitQuickExpense (now : Clock) (newId : string)
  (data : gmap string string) : FormError + Async Expense.t :=
  match validateForm data quickExpenseRules with
  | Some e => inl e
  | None =>
      inr (createExpense now newId
             (Expense.mkData
                (default "" (data !! "categoryId"))
                (Some (trimmed (data !! "description")))
                (parseFloat_value (data !! "amount"))
                (Some (getTodayDate now))))
  end.

End Forms.
(** * Properties *)

(** ** What the statements speak of *)

(** The sum of [f] over the records of a collection. *)
Definition sumOver {A} (f : A → Q) (m : gmap string A) : Q :=
  JS.sum f (map_to_list m).*2.

(** The expenses of a collection that count against [month]. *)
Definition ofMonth (month : string) (m : gmap string Expense.t)
  : gmap string Expense.t :=
  filter (λ kv, Expense.month kv.2 = month) m.

(** The expenses of a collection that do not. *)
Definition notOfMonth (month : string) (m : gmap string Expense.t)
  : gmap string Expense.t :=
  filter (λ kv, Expense.month kv.2 ≠ month) m.

(** The first store access has taken place: the connection is cached, or an
    earlier session created the settings record. *)
Definition bootstrapped (st : Store) : Prop :=
  dbInstance st = true ∨ is_Some (DB.settings (db st)).

(** The key of every record is its [id] (the stores have [keyPath: 'id']). *)
Definition keyPath_ok (d : DB.t) : Prop :=
  (∀ k x, DB.fixedExpenses d !! k = Some x → FixedExpense.id x = k) ∧
  (∀ k x, DB.categories d !! k = Some x → Category.id x = k) ∧
  (∀ k x, DB.expenses d !! k = Some x → Expense.id x = k) ∧
  (∀ k x, DB.monthlyArchives d !! k = Some x → Archive.id x = k).

(** The four record collections of [d] and [d'] are the same. *)
Definition same_records (d d' : DB.t) : Prop :=
  DB.fixedExpenses d' = DB.fixedExpenses d
  ∧ DB.categories d' = DB.categories d
  ∧ DB.expenses d' = DB.expenses d
  ∧ DB.monthlyArchives d' = DB.monthlyArchives d.

(** [sep] does not occur in [s]. *)
Fixpoint free_of (sep : ascii) (s : string) : bool :=
  match s with
  | EmptyString => true
  | String c rest => negb (Ascii.eqb c sep) && free_of sep rest
  end.

(** The month after a calendar month. *)
Definition succMonth (year monthNum : N) : N * N :=
  if (monthNum =? 12)%N then ((year + 1)%N, 1%N) else (year, (monthNum + 1)%N).

(** The store after the transaction of [closeMonth]. *)
Definition closed (target : string) (archive : Archive.t) (d : DB.t) : DB.t :=
  DB.mk (DB.settings d) (DB.fixedExpenses d) (DB.categories d)
    (notOfMonth target (DB.expenses d))
    (<[Archive.id archive := archive]> (DB.monthlyArchives d)).

(** The store after the transaction of [deleteCategory]. *)
Definition withoutCategory (id : string) (d : DB.t) : DB.t :=
  DB.mk (DB.settings d) (DB.fixedExpenses d)
    (delete id (DB.categories d))
    (filter (λ kv, Expense.categoryId kv.2 ≠ id) (DB.expenses d))
    (DB.monthlyArchives d).

(** The expenses of a collection that reference category [id]. *)
Definition ofCategory (id : string) (m : gmap string Expense.t)
  : gmap string Expense.t :=
  filter (λ kv, Expense.categoryId kv.2 = id) m.

(** No expense of [d] references [id] unless the category [id] exists. *)
Definition references_resolved (id : string) (d : DB.t) : Prop :=
  ∀ k e, DB.expenses d !! k = Some e → Expense.categoryId e = id →
         is_Some (DB.categories d !! id).

Definition is_digit (c : ascii) : bool :=
  (48 <=? nat_of_ascii c)%nat && (nat_of_ascii c <=? 57)%nat.

(** A date of the shape [YYYY-MM-DD]. *)
Definition is_date (s : string) : bool :=
  match list_ascii_of_string s with
  | [y1; y2; y3; y4; h1; m1; m2; h2; d1; d2] =>
      forallb is_digit [y1; y2; y3; y4; m1; m2; d1; d2]
      && Ascii.eqb h1 "-" && Ascii.eqb h2 "-"
  | _ => false
  end.

Definition month_consistent (e : Expense.t) : Prop :=
  Expense.month e = JS.slice0 7 (Expense.date e).

(** Every expense of the store counts against the month of its date. *)
Definition partitioned (d : DB.t) : Prop :=
  ∀ k e, DB.expenses d !! k = Some e → month_consistent e.

#[global] Instance month_consistent_dec e : Decision (month_consistent e).
Proof. unfold month_consistent. apply _. Defined.

(** ** The calls of the store *)

Inductive Call :=
| CallGetDB
| CallGetSettings
| CallUpdateSettings (updates : Settings.patch)
| CallGetAllFixedExpenses
| CallCreateFixedExpense (newId : string) (data : FixedExpense.data)
| CallUpdateFixedExpense (id : string) (updates : FixedExpense.patch)
| CallDeleteFixedExpense (id : string)
| CallGetAllCategories
| CallGetCategory (id : string)
| CallCreateCategory (newId : string) (data : Category.data)
| CallUpdateCategory (id : string) (updates : Category.patch)
| CallDeleteCategory (id : string)
| CallGetExpensesForMonth (month : option string)
| CallGetExpensesByCategory (categoryId : string) (month : option string)
| CallCreateExpense (newId : string) (data : Expense.data)
| CallUpdateExpense (id : string) (updates : Expense.patch)
| CallDeleteExpense (id : string)
| CallGetTotalFixedExpenses
| CallGetTotalBudgeted
| CallGetMonthlySpendingSummary (month : option string)
| CallExportData
| CallImportData (backup : option Backup.t)
| CallGetAllArchives (localeCompare : string → string → Z)
| CallGetArchive (month : string)
| CallIsMonthArchived (month : string)
| CallCloseMonth (month : option string)
| CallDeleteArchive (month : string)
| CallGetAllExpenses
| CallGetBudgetOverview
| CallGetAllCategoriesWithSpending
| CallGetCategoryDistribution
| CallGetBudgetVsActual.

(** The store a call leaves. *)
Definition perform (call : Call) (now : Clock) (st : Store) : Store :=
  match call with
  | CallGetDB => final (getDB now st)
  | CallGetSettings => final (getSettings now st)
  | CallUpdateSettings updates => final (updateSettings now updates st)
  | CallGetAllFixedExpenses => final (getAllFixedExpenses now st)
  | CallCreateFixedExpense newId data => final (createFixedExpense now newId data st)
  | CallUpdateFixedExpense id updates => final (updateFixedExpense now id updates st)
  | CallDeleteFixedExpense id => final (deleteFixedExpense now id st)
  | CallGetAllCategories => final (getAllCategories now st)
  | CallGetCategory id => final (getCategory now id st)
  | CallCreateCategory newId data => final (createCategory now newId data st)
  | CallUpdateCategory id updates => final (updateCategory now id updates st)
  | CallDeleteCategory id => final (deleteCategory now id st)
  | CallGetExpensesForMonth month => final (getExpensesForMonth now month st)
  | CallGetExpensesByCategory categoryId month =>
      final (getExpensesByCategory now categoryId month st)
  | CallCreateExpense newId data => final (createExpense now newId data st)
  | CallUpdateExpense id updates => final (updateExpense now id updates st)
  | CallDeleteExpense id => final (deleteExpense now id st)
  | CallGetTotalFixedExpenses => final (getTotalFixedExpenses now st)
  | CallGetTotalBudgeted => final (getTotalBudgeted now st)
  | CallGetMonthlySpendingSummary month =>
      final (getMonthlySpendingSummary now month st)
  | CallExportData => final (exportData now st)
  | CallImportData backup => final (importData now backup st)
  | CallGetAllArchives localeCompare => final (getAllArchives localeCompare now st)
  | CallGetArchive month => final (getArchive now month st)
  | CallIsMonthArchived month => final (isMonthArchived now month st)
  | CallCloseMonth month => final (closeMonth now month st)
  | CallDeleteArchive month => final (deleteArchive now month st)
  | CallGetAllExpenses => final (getAllExpenses now st)
  | CallGetBudgetOverview => final (getBudgetOverview now st)
  | CallGetAllCategoriesWithSpending => final (getAllCategoriesWithSpending now st)
  | CallGetCategoryDistribution => final (getCategoryDistribution now st)
  | CallGetBudgetVsActual => final (getBudgetVsActual now st)
  end.


(** [m] leaves a store that satisfies [P] satisfying [P]. *)
Definition preserves {A} (P : DB.t → Prop) (m : Async A) : Prop :=
  ∀ st, P (db st) → P (db (final (m st))).

(** The request [w] keeps [P]. *)
Definition safe_for (P : DB.t → Prop) (w : Write) : Prop :=
  ∀ d, P d → P (apply_write d w).



(** [clamp(lo, hi, x)]. *)
Definition clamp (lo hi x : Q) : Q :=
  if Qle_bool x lo then lo else if Qle_bool hi x then hi else x.

(** The percentage formula in the words of the specification. *)
Definition clampedPercentage (value total : Q) : Q :=
  if Qle_bool total 0 then 0%Q else clamp 0 100 (value / total * 100)%Q.






(** [for (const item of items) await store.put(item)]. *)
Definition putAll {A} (key : A → string) (items : list A) (m : gmap string A)
  : gmap string A :=
  foldl (λ m x, <[key x := x]> m) m items.

(** What [importData] leaves for a document with data. *)
Definition imported (data : Backup.data_t) : DB.t :=
  DB.mk (match Backup.settings data with
         | Some s =>
             if String.eqb (Settings.id s) "main" then Some (Settings.fields s)
             else None
         | None => None
         end)
    (putAll FixedExpense.id (default [] (Backup.fixedExpenses data)) ∅)
    (putAll Category.id (default [] (Backup.categories data)) ∅)
    (putAll Expense.id (default [] (Backup.expenses data)) ∅)
    (putAll Archive.id (default [] (Backup.monthlyArchives data)) ∅).

(** What would hold if [closeMonth] went by the month of the settings:
    closing that month moves [currentMonth] to the month after it, closing
    another month leaves it. *)
Definition advances_on_settings_month (now : Clock) (month : option string)
  (st : Store) : Prop :=
  ∀ s s',
    DB.settings (db st) = Some s →
    DB.settings (db (final (closeMonth now month st))) = Some s' →
    (orCurrentMonth now month = Settings.currentMonth s →
     Settings.currentMonth s' = nextMonth (Settings.currentMonth s))
    ∧ (orCurrentMonth now month ≠ Settings.currentMonth s →
       Settings.currentMonth s' = Settings.currentMonth s).

(** ** A ledger to evaluate on

    Income 5000, rent 1500, one category [Food] with limit 1000, two March
    expenses of 500 and 300 and one February expense of 120; the clock
    stands at the end of March 2024. *)

Module Sample.
Definition t0 : string := "2024-01-01T08:00:00.000Z".

Definition now : Clock := mkClock "2024-03-31T18:00:00.000Z" 2024 2.

Definition settings : Settings.t := Settings.mk 5000 "Q" "2024-03" t0 t0.

Definition rent : FixedExpense.t :=
  FixedExpense.mk "f1" "Rent" 1500 None t0 t0.

Definition food : Category.t :=
  Category.mk "c1" "Food" 1000 "#00d4aa" None None t0 t0.

Definition market : Expense.t :=
  Expense.mk "e1" "c1" "market" 500 "2024-03-05" "2024-03"
    "2024-03-05T10:00:00.000Z" "2024-03-05T10:00:00.000Z".

Definition bakery : Expense.t :=
  Expense.mk "e2" "c1" "bakery" 300 "2024-03-20" "2024-03"
    "2024-03-20T10:00:00.000Z" "2024-03-20T10:00:00.000Z".

Definition february : Expense.t :=
  Expense.mk "e0" "c1" "dinner" 120 "2024-02-27" "2024-02"
    "2024-02-27T10:00:00.000Z" "2024-02-27T10:00:00.000Z".

Definition ledger : DB.t :=
  DB.mk (Some settings)
    (<["f1" := rent]> ∅)
    (<["c1" := food]> ∅)
    (<["e1" := market]> (<["e2" := bakery]> (<["e0" := february]> ∅)))
    ∅.

Definition store : Store := mkStore true ledger.

(** Early May, for a ledger whose settings still say March. *)
Definition may : Clock := mkClock "2024-05-02T09:00:00.000Z" 2024 4.

(** A ledger with a category spent beyond its limit (150 of 100) and a
    category with no limit (50 of 0). *)
Definition treats : Category.t :=
  Category.mk "c2" "Treats" 100 "#6c5ce7" None None t0 t0.

Definition misc : Category.t :=
  Category.mk "c3" "Misc" 0 "#fd79a8" None None
    "2024-01-02T08:00:00.000Z" "2024-01-02T08:00:00.000Z".

Definition cake : Expense.t :=
  Expense.mk "e4" "c2" "cake" 150 "2024-03-09" "2024-03"
    "2024-03-09T10:00:00.000Z" "2024-03-09T10:00:00.000Z".

Definition stamps : Expense.t :=
  Expense.mk "e5" "c3" "stamps" 50 "2024-03-11" "2024-03"
    "2024-03-11T10:00:00.000Z" "2024-03-11T10:00:00.000Z".

Definition overspent : Store :=
  mkStore true
    (DB.mk (Some settings) ∅
       (<["c2" := treats]> (<["c3" := misc]> ∅))
       (<["e4" := cake]> (<["e5" := stamps]> ∅))
       ∅).

(** A backup document whose data has no settings record. *)
Definition bare : Backup.t :=
  Backup.mk 3 "2024-03-31T18:00:00.000Z" "Presupuesto Base Cero"
    (Some (Backup.mkData None (Some [rent]) (Some [food]) (Some [market]) None)).



(** The store once March is closed. *)
Definition closedStore : Store := final (closeMonth now (Some "2024-03") store).
End Sample.


(** ** Further statements *)

(** The expenses of [month] whose category does not exist. *)
Definition orphans (month : string) (d : DB.t) : gmap string Expense.t :=
  filter (λ kv, Expense.month kv.2 = month
                ∧ DB.categories d !! Expense.categoryId kv.2 = None)
         (DB.expenses d).

#[global] Instance keyPath_ok_dec d : Decision (keyPath_ok d).
Proof.
  change (Decision
    (map_Forall (λ k x, FixedExpense.id x = k) (DB.fixedExpenses d)
     ∧ map_Forall (λ k x, Category.id x = k) (DB.categories d)
     ∧ map_Forall (λ k x, Expense.id x = k) (DB.expenses d)
     ∧ map_Forall (λ k x, Archive.id x = k) (DB.monthlyArchives d))).
  apply _.
Defined.

(** No category id and no [categoryId] of an expense of [month] is the name
    of a property that every object inherits. *)
Definition own_names (month : string) (d : DB.t) : Prop :=
  map_Forall (λ _ c, JS.inherited (Category.id c) = false) (DB.categories d)
  ∧ map_Forall (λ _ e, Expense.month e = month
                       → JS.inherited (Expense.categoryId e) = false)
      (DB.expenses d).

#[global] Instance own_names_dec month d : Decision (own_names month d).
Proof. unfold own_names. apply _. Defined.

(** What the listing says of [category] when [expenses] are the expenses of
    the month. *)
Definition spending_of (expenses : list Expense.t) (category : Category.t)
  : CategorySpending.t :=
  let categoryExpenses :=
    filter (λ e, Expense.categoryId e = Category.id category) expenses in
  let spent := JS.sum Expense.amount categoryExpenses in
  CategorySpending.mk category spent
    (Category.budgetLimit category - spent)%Q
    (calculatePercentage spent (Category.budgetLimit category))
    (length categoryExpenses).

(** The entry of a category after the expenses [expenses] are counted. *)
Definition summarised (cat : Category.t) (expenses : list Expense.t)
  (s : Spending.t) : Prop :=
  Spending.category s = cat
  ∧ Spending.expenses s
    = filter (λ e, Expense.categoryId e = Category.id cat) expenses
  ∧ Spending.spent s = JS.sum Expense.amount (Spending.expenses s)
  ∧ (Spending.remaining s == Category.budgetLimit cat - Spending.spent s)%Q
  ∧ (Spending.percentage s
     == rawPercentage (Spending.spent s) (Category.budgetLimit cat))%Q.

(** The sample ledger with one more March expense, of 40, for a category
    that does not exist. *)
Module Stray.
Definition gift : Expense.t :=
  Expense.mk "e7" "c9" "gift" 40 "2024-03-15" "2024-03"
    "2024-03-15T10:00:00.000Z" "2024-03-15T10:00:00.000Z".

Definition store : Store :=
  mkStore true
    (DB.mk (DB.settings Sample.ledger) (DB.fixedExpenses Sample.ledger)
       (DB.categories Sample.ledger)
       (<["e7" := gift]> (DB.expenses Sample.ledger))
       (DB.monthlyArchives Sample.ledger)).

(** The sample ledger with a March expense whose [categoryId] is
    ['constructor']. *)
Definition inherited_name : Expense.t :=
  Expense.mk "e8" "constructor" "misfiled" 15 "2024-03-16" "2024-03"
    "2024-03-16T10:00:00.000Z" "2024-03-16T10:00:00.000Z".

Definition misfiled : Store :=
  mkStore true
    (DB.mk (DB.settings Sample.ledger) (DB.fixedExpenses Sample.ledger)
       (DB.categories Sample.ledger)
       (<["e8" := inherited_name]> (DB.expenses Sample.ledger))
       (DB.monthlyArchives Sample.ledger)).
End Stray.

(** An order of the strings for [localeCompare], by their bytes read as a
    number, and a store in which February was closed before March. *)
Module Collation.
Definition bytesValue (s : string) : Z :=
  foldl (λ acc c, (acc * 256 + Z.of_N (N_of_ascii c))%Z) 0%Z
    (list_ascii_of_string s).

Definition byBytes (x y : string) : Z := (bytesValue x - bytesValue y)%Z.


Definition twiceClosed : Store :=
  final (closeMonth Sample.may (Some "2024-03")
           (final (closeMonth Sample.now (Some "2024-02") Sample.store))).
End Collation.
(** ** JavaScript strings, on examples *)

Example split_date : JS.split "-" "2024-03-15" = ["2024"; "03"; "15"].
Proof. reflexivity. Qed.

Example split_empty : JS.split "-" "" = [""].
Proof. reflexivity. Qed.

Example trim_ex : JS.trim "  Food " = "Food".
Proof. reflexivity. Qed.

Example number_ex : JS.Number "03" = Some 3%N.
Proof. reflexivity. Qed.

(** ** Sums *)

Section Sums.
Context {A : Type} (f : A → Q).

Lemma sum_from (acc : Q) (xs : list A) :
  (foldl (λ acc e, acc + f e) acc xs == acc + JS.sum f xs)%Q.
Proof.
  unfold JS.sum. revert acc.
  induction xs as [|x xs IH]; intros acc; simpl.
  - ring.
  - rewrite (IH (acc + f x)%Q), (IH (0 + f x)%Q). ring.
Qed.

Lemma sum_cons (x : A) (xs : list A) :
  (JS.sum f (x :: xs) == f x + JS.sum f xs)%Q.
Proof. unfold JS.sum at 1. simpl. rewrite sum_from. ring. Qed.

Lemma sum_Permutation (xs ys : list A) :
  xs ≡ₚ ys → (JS.sum f xs == JS.sum f ys)%Q.
Proof.
  induction 1 as [|x xs ys _ IH|x y xs|xs ys zs _ IH1 _ IH2].
  - reflexivity.
  - rewrite !sum_cons, IH. reflexivity.
  - rewrite !sum_cons. ring.
  - rewrite IH1. exact IH2.
Qed.

End Sums.

(** ** Index reads enumerate the collection *)

Section Index.
Context {A : Type} (ix : A → string).

Lemma index_entries_Permutation (m : gmap string A) :
  index_entries ix m ≡ₚ map_to_list m.
Proof. unfold index_entries. apply merge_sort_Permutation. Qed.

Lemma getAllFromIndex_Permutation (m : gmap string A) :
  getAllFromIndex ix m ≡ₚ (map_to_list m).*2.
Proof. unfold getAllFromIndex. by rewrite index_entries_Permutation. Qed.

Lemma getAll_Permutation (m : gmap string A) :
  getAll m ≡ₚ (map_to_list m).*2.
Proof. unfold getAll. by rewrite merge_sort_Permutation. Qed.

Lemma elem_of_index_only key (m : gmap string A) k x :
  (k, x) ∈ index_only ix key m ↔ m !! k = Some x ∧ ix x = key.
Proof.
  unfold index_only. rewrite list_elem_of_filter, index_entries_Permutation.
  rewrite elem_of_map_to_list. simpl. tauto.
Qed.

Lemma map_to_list_filter_Permutation (P : string * A → Prop)
  `{!∀ kv, Decision (P kv)} (m : gmap string A) :
  map_to_list (filter P m) ≡ₚ filter P (map_to_list m).
Proof.
  apply NoDup_Permutation.
  - apply NoDup_map_to_list.
  - apply NoDup_filter, NoDup_map_to_list.
  - intros [k x]. rewrite list_elem_of_filter, !elem_of_map_to_list.
    rewrite map_lookup_filter_Some. tauto.
Qed.

Lemma index_only_Permutation key (m : gmap string A) :
  index_only ix key m ≡ₚ map_to_list (filter (λ kv, ix kv.2 = key) m).
Proof.
  unfold index_only.
  rewrite index_entries_Permutation.
  symmetry. apply map_to_list_filter_Permutation.
Qed.

Lemma getAllFromIndexOnly_Permutation key (m : gmap string A) :
  getAllFromIndexOnly ix key m
    ≡ₚ (map_to_list (filter (λ kv, ix kv.2 = key) m)).*2.
Proof. unfold getAllFromIndexOnly. by rewrite index_only_Permutation. Qed.

Lemma sum_getAllFromIndex (f : A → Q) (m : gmap string A) :
  (JS.sum f (getAllFromIndex ix m) == sumOver f m)%Q.
Proof. apply sum_Permutation, getAllFromIndex_Permutation. Qed.
End Index.

Lemma sum_expenses_of_month (month : string) (m : gmap string Expense.t) :
  (JS.sum Expense.amount (getAllFromIndexOnly Expense.month month m)
   == sumOver Expense.amount (ofMonth month m))%Q.
Proof. apply sum_Permutation, getAllFromIndexOnly_Permutation. Qed.

(** ** The monad *)

Lemma run_eta {A} (r : Run A) : mkRun (outcome r) (final r) (committed r) = r.
Proof. by destruct r. Qed.

Lemma bind_ok {A B} (m : Async A) (k : A → Async B) st a st' :
  m st = mkRun (Ok a) st' [] → bind m k st = k a st'.
Proof. intros H. unfold bind. rewrite H. simpl. apply run_eta. Qed.

Lemma bind_thrown {A B} (m : Async A) (k : A → Async B) st e st' log :
  m st = mkRun (Thrown e) st' log → bind m k st = mkRun (Thrown e) st' log.
Proof. intros H. unfold bind. by rewrite H. Qed.

Lemma bind_assoc {A B C} (m : Async A) (k : A → Async B) (h : B → Async C) st :
  bind (bind m k) h st = bind m (λ a, bind (k a) h) st.
Proof.
  unfold bind. destruct (m st) as [[a|e] st1 log1]; simpl; [|done].
  destruct (k a st1) as [[b|e] st2 log2]; simpl; [|done].
  by rewrite (assoc_L (++)).
Qed.

(** ** First access *)

Lemma getDB_bootstrapped now st :
  bootstrapped st → getDB now st = mkRun (Ok tt) (mkStore true (db st)) [].
Proof.
  destruct st as [[] d]; intros [H|[s H]]; simpl in *; try done.
  unfold getDB, bind, openDB, initializeSettings, read. simpl. by rewrite H.
Qed.

Lemma after_getDB {A} now (k : Async A) st :
  bootstrapped st →
  (let* _ := getDB now in k) st = k (mkStore true (db st)).
Proof.
  intros H. apply (bind_ok (getDB now) (λ _, k) st tt).
  by apply getDB_bootstrapped.
Qed.

Lemma getArchive_run now month st :
  bootstrapped st →
  getArchive now month st
  = mkRun (Ok (DB.monthlyArchives (db st) !! month)) (mkStore true (db st)) [].
Proof. intros H. unfold getArchive. by rewrite after_getDB. Qed.

(** ** Transactions *)

Lemma lookup_delete_all {A} (ks : list string) (m : gmap string A) k :
  foldl (λ m k, delete k m) m ks !! k
  = if decide (k ∈ ks) then None else m !! k.
Proof.
  revert m. induction ks as [|k' ks IH]; intros m.
  - case_decide as Hin; [by apply elem_of_nil in Hin|done].
  - cbn [foldl]. rewrite IH.
    destruct (decide (k = k')) as [->|Hne].
    + rewrite lookup_delete_eq.
      rewrite (decide_True (P := k' ∈ k' :: ks)) by left.
      by case_decide.
    + rewrite lookup_delete_ne by done.
      destruct (decide (k ∈ ks)) as [Hin|Hin].
      * by rewrite decide_True by by right.
      * rewrite decide_False; [done|]. rewrite elem_of_cons. tauto.
Qed.

Lemma delete_index_only {A} (ix : A → string) key (m : gmap string A) :
  foldl (λ m k, delete k m) m (index_only ix key m).*1
  = filter (λ kv, ix kv.2 ≠ key) m.
Proof.
  apply map_eq. intros k. rewrite lookup_delete_all, map_lookup_filter.
  destruct (m !! k) as [x|] eqn:Hk; simpl.
  - destruct (decide (ix x = key)) as [Hx|Hx].
    + rewrite decide_True.
      * by rewrite option_guard_False by (simpl; tauto).
      * apply list_elem_of_fmap. exists (k, x). split; [done|].
        by apply elem_of_index_only.
    + rewrite decide_False.
      * by rewrite option_guard_True.
      * rewrite list_elem_of_fmap. intros [[k' x'] [-> Hin]].
        apply elem_of_index_only in Hin as [Hk' Hx']. simpl in *. congruence.
  - by case_decide.
Qed.

Lemma commit_app ws1 ws2 d : commit (ws1 ++ ws2) d = commit ws2 (commit ws1 d).
Proof. unfold commit. apply foldl_app. Qed.

Lemma commit_delete_expenses (ks : list string) d :
  commit (map (DeleteKey EXPENSES) ks) d
  = DB.mk (DB.settings d) (DB.fixedExpenses d) (DB.categories d)
      (foldl (λ m k, delete k m) (DB.expenses d) ks) (DB.monthlyArchives d).
Proof.
  revert d. induction ks as [|k ks IH]; intros d; simpl.
  - by destruct d.
  - unfold commit in *. simpl. by rewrite IH.
Qed.

Lemma index_only_empty {A} (ix : A → string) key (m : gmap string A) :
  index_only ix key (filter (λ kv, ix kv.2 ≠ key) m) = [].
Proof.
  destruct (index_only _ _ _) as [|[k x] l] eqn:E; [done|].
  assert ((k, x) ∈ index_only ix key (filter (λ kv, ix kv.2 ≠ key) m)) as Hin
    by (rewrite E; left).
  apply elem_of_index_only in Hin as [Hk Hx].
  apply map_lookup_filter_Some in Hk as [_ Hne]. simpl in Hne. done.
Qed.

(** ** Month keys *)

Lemma append_cons c (a b : string) : String c a ++ b = String c (a ++ b).
Proof. reflexivity. Qed.

Lemma append_nil (b : string) : "" ++ b = b.
Proof. reflexivity. Qed.

Lemma split_free sep s : free_of sep s = true → JS.split sep s = [s].
Proof.
  induction s as [|c s IH]; simpl; [done|].
  destruct (Ascii.eqb c sep); simpl; [done|].
  intros H. by rewrite IH.
Qed.

Lemma split_app sep a b :
  free_of sep a = true →
  JS.split sep (a ++ String sep b) = a :: JS.split sep b.
Proof.
  induction a as [|c a IH]; intros H.
  - rewrite append_nil. simpl. by rewrite Ascii.eqb_refl.
  - rewrite append_cons. simpl in *.
    destruct (Ascii.eqb c sep); simpl in *; [done|].
    by rewrite IH.
Qed.

Lemma digits_free_of_hyphen d :
  free_of "-" (NilEmpty.string_of_uint d) = true.
Proof. induction d; simpl; done. Qed.

Lemma String_free_of_hyphen n : free_of "-" (JS.String_ n) = true.
Proof. apply digits_free_of_hyphen. Qed.

Lemma Number_String n : JS.Number (JS.String_ n) = Some n.
Proof.
  unfold JS.Number, JS.String_.
  by rewrite NilEmpty.usu, DecimalN.Unsigned.of_to.
Qed.

Lemma padStart2_free_of_hyphen s :
  free_of "-" s = true → free_of "-" (JS.padStart2 s) = true.
Proof.
  intros H. unfold JS.padStart2.
  destruct (String.length s) as [|[|n]]; [| |done].
  - by rewrite !append_cons, append_nil.
  - by rewrite !append_cons, append_nil.
Qed.

Lemma monthKey_split year monthNum :
  JS.split "-" (monthKey year monthNum)
  = [JS.String_ year; JS.padStart2 (JS.String_ monthNum)].
Proof.
  unfold monthKey.
  change ("-" ++ ?x) with (String "-" x).
  rewrite split_app by apply String_free_of_hyphen.
  by rewrite split_free by apply padStart2_free_of_hyphen, String_free_of_hyphen.
Qed.

Lemma monthKey_nonempty year monthNum : monthKey year monthNum ≠ "".
Proof.
  intros H. pose proof (monthKey_split year monthNum) as Hs.
  rewrite H in Hs. discriminate.
Qed.

Lemma or_string_nonempty s d : s ≠ "" → JS.or_string s d = s.
Proof. unfold JS.or_string. by destruct s. Qed.

Lemma orCurrentMonth_nonempty now month : orCurrentMonth now month ≠ "".
Proof.
  unfold orCurrentMonth, getCurrentMonth, JS.or_string.
  destruct month as [[|c m]|]; simpl; auto using monthKey_nonempty.
Qed.

Lemma orCurrentMonth_idem now month :
  orCurrentMonth now (Some (orCurrentMonth now month)) = orCurrentMonth now month.
Proof. apply or_string_nonempty, orCurrentMonth_nonempty. Qed.

Lemma Number_padStart2 monthNum :
  (monthNum <= 13)%N →
  JS.Number (JS.padStart2 (JS.String_ monthNum)) = Some monthNum.
Proof.
  intros H.
  assert (Hcases : monthNum ∈ (N.of_nat <$> seq 0 14)).
  { apply list_elem_of_fmap. exists (N.to_nat monthNum). split; [lia|].
    apply elem_of_seq. lia. }
  simpl in Hcases.
  repeat (apply elem_of_cons in Hcases as [->|Hcases]; [reflexivity|]).
  by apply elem_of_nil in Hcases.
Qed.

Lemma nextMonth_monthKey year monthNum :
  (1 <= monthNum <= 12)%N →
  nextMonth (monthKey year monthNum)
  = monthKey (succMonth year monthNum).1 (succMonth year monthNum).2.
Proof.
  intros [H1 H12]. unfold nextMonth, succMonth.
  rewrite monthKey_split. simpl.
  rewrite Number_String, Number_padStart2 by lia.
  destruct (monthNum =? 12)%N eqn:E.
  - apply N.eqb_eq in E as ->. reflexivity.
  - apply N.eqb_neq in E.
    rewrite bool_decide_false by congruence. reflexivity.
Qed.

(** ** Runs of the store operations *)

Lemma connected_bootstrapped d : bootstrapped (mkStore true d).
Proof. by left. Qed.
#[local] Hint Resolve connected_bootstrapped : core.

Lemma bind_step {A B} (m : Async A) (k : A → Async B) st a st' log :
  m st = mkRun (Ok a) st' log →
  bind m k st
  = mkRun (outcome (k a st')) (final (k a st')) (log ++ committed (k a st')).
Proof. intros H. unfold bind. by rewrite H. Qed.

Lemma transaction_run body st ws :
  body (db st) = Ok ws →
  transaction body st
  = mkRun (Ok tt) (mkStore (dbInstance st) (commit ws (db st))) [commit ws (db st)].
Proof. intros H. unfold transaction. by rewrite H. Qed.

Lemma getSettings_run now st :
  bootstrapped st →
  getSettings now st = mkRun (Ok (DB.settings (db st))) (mkStore true (db st)) [].
Proof. intros H. unfold getSettings. by rewrite after_getDB. Qed.

Lemma getAllFixedExpenses_run now st :
  bootstrapped st →
  getAllFixedExpenses now st
  = mkRun (Ok (getAllFromIndex FixedExpense.createdAt (DB.fixedExpenses (db st))))
      (mkStore true (db st)) [].
Proof. intros H. unfold getAllFixedExpenses. by rewrite after_getDB. Qed.

Lemma getAllCategories_run now st :
  bootstrapped st →
  getAllCategories now st
  = mkRun (Ok (getAllFromIndex Category.createdAt (DB.categories (db st))))
      (mkStore true (db st)) [].
Proof. intros H. unfold getAllCategories. by rewrite after_getDB. Qed.

Lemma getExpensesForMonth_run now month st :
  bootstrapped st →
  getExpensesForMonth now month st
  = mkRun (Ok (getAllFromIndexOnly Expense.month (orCurrentMonth now month)
                 (DB.expenses (db st))))
      (mkStore true (db st)) [].
Proof. intros H. unfold getExpensesForMonth. by rewrite after_getDB. Qed.

Lemma updateSettings_run now updates st c :
  DB.settings (db st) = Some c →
  let updated :=
    Settings.mk
      (default (Settings.monthlyIncome c) (Settings.p_monthlyIncome updates))
      (default (Settings.currency c) (Settings.p_currency updates))
      (default (Settings.currentMonth c) (Settings.p_currentMonth updates))
      (Settings.createdAt c) (toISOString now) in
  let d := apply_write (db st) (PutSettings (Settings.withId "main" updated)) in
  updateSettings now updates st = mkRun (Ok updated) (mkStore true d) [d].
Proof.
  intros Hc updated d.
  assert (bootstrapped st) as Hboot by (right; by rewrite Hc).
  unfold updateSettings. rewrite after_getDB by done.
  rewrite (bind_ok _ _ _ _ _ (getSettings_run now _ (connected_bootstrapped _))).
  simpl. rewrite Hc. reflexivity.
Qed.

Lemma updateSettings_missing now updates st :
  bootstrapped st →
  DB.settings (db st) = None →
  updateSettings now updates st = mkRun (Thrown DataError) (mkStore true (db st)) [].
Proof.
  intros Hboot Hc.
  unfold updateSettings. rewrite after_getDB by done.
  rewrite (bind_ok _ _ _ _ _ (getSettings_run now _ (connected_bootstrapped _))).
  simpl. by rewrite Hc.
Qed.

Lemma closeMonth_commit target archive d :
  commit (PutArchive archive
          :: map (λ kv, DeleteKey EXPENSES kv.1)
                 (index_only Expense.month target (DB.expenses d))) d
  = closed target archive d.
Proof.
  unfold commit. simpl. fold (commit).
  change (foldl apply_write) with (λ d ws, commit ws d). simpl.
  rewrite <- (map_map fst (DeleteKey EXPENSES)).
  rewrite commit_delete_expenses. simpl.
  unfold closed, notOfMonth. f_equal.
  apply (delete_index_only Expense.month).
Qed.

Lemma closeMonth_run now month st :
  bootstrapped st →
  let d := db st in
  let target := orCurrentMonth now month in
  DB.monthlyArchives d !! target = None →
  let archive :=
    archiveRecord now target (DB.settings d)
      (getAllFromIndex FixedExpense.createdAt (DB.fixedExpenses d))
      (getAllFromIndex Category.createdAt (DB.categories d))
      (getAllFromIndexOnly Expense.month target (DB.expenses d)) in
  let d1 := closed target archive d in
  closeMonth now month st
  = if String.eqb target (getCurrentMonth now)
    then match DB.settings d with
         | Some c =>
             let d2 := apply_write d1 (PutSettings
               (Settings.withId "main"
                  (Settings.mk (Settings.monthlyIncome c) (Settings.currency c)
                     (nextMonth target) (Settings.createdAt c)
                     (toISOString now)))) in
             mkRun (Ok archive) (mkStore true d2) [d1; d2]
         | None => mkRun (Thrown DataError) (mkStore true d1) [d1]
         end
    else mkRun (Ok archive) (mkStore true d1) [d1].
Proof.
  intros Hboot d target Harch archive d1.
  unfold closeMonth. fold target.
  rewrite (bind_ok _ _ _ _ _ (getArchive_run now _ st Hboot)).
  fold d. rewrite Harch.
  rewrite (bind_ok _ _ _ _ _ (getSettings_run now _ (connected_bootstrapped _))).
  rewrite (bind_ok _ _ _ _ _ (getAllFixedExpenses_run now _ (connected_bootstrapped _))).
  rewrite (bind_ok _ _ _ _ _ (getAllCategories_run now _ (connected_bootstrapped _))).
  rewrite (bind_ok _ _ _ _ _ (getExpensesForMonth_run now _ _ (connected_bootstrapped _))).
  simpl db.
  assert (orCurrentMonth now (Some target) = target) as ->
    by apply orCurrentMonth_idem.
  fold d archive.
  rewrite after_getDB by done. simpl db.
  erewrite bind_step; last first.
  { erewrite transaction_run by reflexivity.
    cbn [db dbInstance]. rewrite closeMonth_commit. reflexivity. }
  fold d1.
  destruct (String.eqb target (getCurrentMonth now)); simpl.
  - destruct (DB.settings d) as [c|] eqn:Hc.
    + erewrite bind_step; last first.
      { erewrite bind_step; last first.
        { apply (updateSettings_run now _ (mkStore true d1) c). exact Hc. }
        simpl. reflexivity. }
      simpl. reflexivity.
    + erewrite bind_thrown; last first.
      { erewrite bind_thrown; [reflexivity|].
        apply updateSettings_missing; [done|]. exact Hc. }
      reflexivity.
  - reflexivity.
Qed.

Lemma getDB_run now st :
  ∃ d0 log,
    getDB now st = mkRun (Ok tt) (mkStore true d0) log
    ∧ DB.fixedExpenses d0 = DB.fixedExpenses (db st)
    ∧ DB.categories d0 = DB.categories (db st)
    ∧ DB.expenses d0 = DB.expenses (db st)
    ∧ DB.monthlyArchives d0 = DB.monthlyArchives (db st)
    ∧ (is_Some (DB.settings (db st)) → is_Some (DB.settings d0))
    ∧ (dbInstance st = false → is_Some (DB.settings d0)).
Proof.
  destruct (decide (bootstrapped st)) as [Hboot|Hboot].
  - exists (db st), []. rewrite getDB_bootstrapped by done.
    repeat split; try done.
    intros Hinst. destruct Hboot as [Hb|Hb]; [congruence|done].
  - destruct st as [[] d]; [by destruct Hboot; left|].
    destruct (DB.settings d) as [s|] eqn:Hs; [destruct Hboot; right; simpl; by rewrite Hs|].
    eexists _, _. unfold getDB, bind, openDB, initializeSettings, read, transaction.
    simpl. rewrite Hs. simpl. split; [reflexivity|]. simpl. eauto 10.
Qed.

Lemma getDB_same now st :
  ∃ d0 log,
    getDB now st = mkRun (Ok tt) (mkStore true d0) log
    ∧ same_records (db st) d0
    ∧ (log = [] ∨ log = [d0])
    ∧ (bootstrapped st → d0 = db st ∧ log = []).
Proof.
  destruct (decide (bootstrapped st)) as [Hboot|Hboot].
  - exists (db st), []. rewrite getDB_bootstrapped by done.
    repeat split; auto.
  - destruct st as [[] d]; [by destruct Hboot; left|].
    destruct (DB.settings d) as [s|] eqn:Hs;
      [destruct Hboot; right; simpl; by rewrite Hs|].
    eexists _, _.
    unfold getDB, bind, openDB, initializeSettings, read, transaction.
    simpl. rewrite Hs. simpl. split; [reflexivity|].
    split; [by repeat split|]. split; [by right|done].
Qed.

Lemma getDB_first {A} now (k : Async A) st d0 log :
  getDB now st = mkRun (Ok tt) (mkStore true d0) log →
  let op := (let* _ := getDB now in k) in
  op st = mkRun (outcome (op (mkStore true d0))) (final (op (mkStore true d0)))
            (log ++ committed (op (mkStore true d0))).
Proof.
  intros Hget op. subst op.
  rewrite (after_getDB now k (mkStore true d0)) by apply connected_bootstrapped.
  by apply (bind_step (getDB now) (λ _, k) st tt).
Qed.

(** ** Closing a month *)

Lemma or_number_zero x : (JS.or_number x 0 == x)%Q.
Proof.
  unfold JS.or_number. destruct (Qeq_bool x 0) eqn:E; [|reflexivity].
  symmetry. by apply Qeq_bool_eq.
Qed.

Lemma getAllFromIndexOnly_purged {A} (ix : A → string) key (m : gmap string A) :
  getAllFromIndexOnly ix key (filter (λ kv, ix kv.2 ≠ key) m) = [].
Proof. unfold getAllFromIndexOnly. by rewrite index_only_empty. Qed.

(** C1. Closing a month that has no archive returns the archive; its
    [totalSaved] is the monthly income minus the fixed expenses minus the
    expenses of that month; afterwards the month has no live expenses and
    its archive holds exactly the expenses it had; and every durable state
    on the way has either no archive and all expenses, or the archive and
    the month purged. *)
Theorem closeMonth_conservation now month st s :
  DB.settings (db st) = Some s →
  DB.monthlyArchives (db st) !! orCurrentMonth now month = None →
  let target := orCurrentMonth now month in
  let r := closeMonth now month st in
  ∃ archive,
    outcome r = Ok archive
    ∧ (Archive.totalSaved (Archive.summary archive)
       == Settings.monthlyIncome s
          - sumOver FixedExpense.amount (DB.fixedExpenses (db st))
          - sumOver Expense.amount (ofMonth target (DB.expenses (db st))))%Q
    ∧ (∀ now', outcome (getExpensesForMonth now' (Some target) (final r)) = Ok [])
    ∧ (∀ now', outcome (getArchive now' target (final r)) = Ok (Some archive))
    ∧ Archive.expenses archive
        ≡ₚ (map_to_list (ofMonth target (DB.expenses (db st)))).*2
    ∧ (∀ d, d ∈ observable (closeMonth now month) st →
         (DB.monthlyArchives d !! target = None
          ∧ DB.expenses d = DB.expenses (db st))
         ∨ (DB.monthlyArchives d !! target = Some archive
            ∧ DB.expenses d = notOfMonth target (DB.expenses (db st)))).
Proof.
  intros Hs Harch target r.
  assert (bootstrapped st) as Hboot by (right; by rewrite Hs).
  assert (target ≠ "") as Hne by apply orCurrentMonth_nonempty.
  pose proof (closeMonth_run now month st Hboot Harch) as Hrun.
  cbv zeta in Hrun. fold target in Hrun. rewrite Hs in Hrun.
  set (archive := archiveRecord now target (Some s) _ _ _) in Hrun.
  set (d1 := closed target archive (db st)) in Hrun.
  exists archive.
  assert (∃ d', final r = mkStore true d'
                ∧ DB.expenses d' = notOfMonth target (DB.expenses (db st))
                ∧ DB.monthlyArchives d' !! target = Some archive
                ∧ outcome r = Ok archive
                ∧ ∀ d, d ∈ committed r → d = d1 ∨ d = d') as (d' & Hfin & Hex & Har & Hout & Hlog).
  { subst r. rewrite Hrun.
    destruct (String.eqb target (getCurrentMonth now)); simpl.
    - eexists. split; [reflexivity|]. simpl. split; [done|].
      split; [apply lookup_insert_eq|]. split; [done|].
      intros d Hd. apply elem_of_cons in Hd as [->|Hd]; [by left|].
      apply list_elem_of_singleton in Hd as ->. by right.
    - eexists. split; [reflexivity|]. simpl. split; [done|].
      split; [apply lookup_insert_eq|]. split; [done|].
      intros d Hd. apply list_elem_of_singleton in Hd as ->. by left. }
  split; [done|]. split.
  { subst archive. simpl.
    rewrite or_number_zero, sum_getAllFromIndex, sum_expenses_of_month.
    reflexivity. }
  split.
  { intros now'. rewrite Hfin, getExpensesForMonth_run by apply connected_bootstrapped. simpl.
    rewrite Hex. unfold orCurrentMonth. rewrite or_string_nonempty by done.
    unfold notOfMonth. by rewrite (getAllFromIndexOnly_purged Expense.month). }
  split.
  { intros now'. rewrite Hfin, getArchive_run by apply connected_bootstrapped. simpl. by rewrite Har. }
  split.
  { subst archive. simpl. apply getAllFromIndexOnly_Permutation. }
  intros d Hd. unfold observable in Hd.
  apply elem_of_cons in Hd as [->|Hd]; [left; by split|].
  right. apply Hlog in Hd as [->| ->].
  - subst d1. simpl. split; [apply lookup_insert_eq|done].
  - done.
Qed.

Lemma closeMonth_conservation_witness :
  ∃ archive,
    outcome (closeMonth Sample.now (Some "2024-03") Sample.store) = Ok archive
    ∧ (Archive.totalSaved (Archive.summary archive) == 2700)%Q
    ∧ (∀ now', outcome (getExpensesForMonth now' (Some "2024-03")
                          Sample.closedStore) = Ok []).
Proof.
  destruct (closeMonth_conservation Sample.now (Some "2024-03") Sample.store
              Sample.settings)
    as (archive & Hout & Hsaved & Hgone & _).
  - reflexivity.
  - vm_compute. reflexivity.
  - exists archive. split; [exact Hout|]. split; [|exact Hgone].
    rewrite Hsaved. vm_compute. reflexivity.
Defined.

(** C2. Closing a month that already has an archive fails with
    [AlreadyClosedError]; the records of the collections are what they
    were, and once the first access has taken place nothing at all is
    written: the five collections, the settings among them, are
    identical. *)
Theorem closeMonth_already_closed now month st :
  is_Some (DB.monthlyArchives (db st) !! orCurrentMonth now month) →
  let r := closeMonth now month st in
  outcome r = Thrown (AlreadyClosedError (orCurrentMonth now month))
  ∧ same_records (db st) (db (final r))
  ∧ (bootstrapped st → db (final r) = db st ∧ committed r = []).
Proof.
  intros [a Harch] r. subst r.
  destruct (getDB_same now st) as (d0 & log & Hget & Hsame & _ & Hboot).
  assert (DB.monthlyArchives d0 !! orCurrentMonth now month = Some a) as Harch0.
  { destruct Hsame as (_ & _ & _ & ->). exact Harch. }
  assert (getArchive now (orCurrentMonth now month) st
          = mkRun (Ok (Some a)) (mkStore true d0) log) as Hga.
  { unfold getArchive. rewrite (getDB_first now _ st d0 log Hget).
    rewrite after_getDB by apply connected_bootstrapped.
    simpl. by rewrite Harch0, app_nil_r. }
  unfold closeMonth. rewrite (bind_step _ _ _ _ _ _ Hga).
  simpl. split; [done|]. split; [done|].
  intros Hb. destruct (Hboot Hb) as [-> ->]. done.
Qed.

Lemma closeMonth_already_closed_witness :
  let r := closeMonth Sample.now (Some "2024-03") Sample.closedStore in
  outcome r = Thrown (AlreadyClosedError "2024-03")
  ∧ db (final r) = db Sample.closedStore
  ∧ committed r = [].
Proof.
  destruct (closeMonth_already_closed Sample.now (Some "2024-03") Sample.closedStore)
    as (Hout & _ & Hsame).
  - vm_compute. eexists. reflexivity.
  - destruct Hsame as [Hdb Hlog]; [left; vm_compute; reflexivity|].
    by repeat split.
Defined.

(** C3, as stated, fails.  In May, on a ledger whose settings say March:
    closing March, the month of the settings, leaves [currentMonth] at
    March; closing the month of the clock, which is not the month of the
    settings, moves [currentMonth] to June. *)
Lemma closeMonth_ignores_settings_month :
  Settings.currentMonth Sample.settings = "2024-03"
  ∧ Settings.currentMonth
      <$> DB.settings (db (final (closeMonth Sample.may (Some "2024-03") Sample.store)))
    = Some "2024-03"
  ∧ ¬ advances_on_settings_month Sample.may (Some "2024-03") Sample.store
  ∧ Settings.currentMonth
      <$> DB.settings (db (final (closeMonth Sample.may None Sample.store)))
    = Some "2024-06"
  ∧ ¬ advances_on_settings_month Sample.may None Sample.store.
Proof.
  split; [reflexivity|]. split; [vm_compute; reflexivity|].
  split.
  { intros H.
    destruct (H Sample.settings
                (Settings.mk 5000 "Q" "2024-03" Sample.t0 Sample.t0)) as [Hadv _];
      [reflexivity|vm_compute; reflexivity|].
    specialize (Hadv ltac:(vm_compute; reflexivity)).
    vm_compute in Hadv. discriminate Hadv. }
  split; [vm_compute; reflexivity|].
  intros H.
  destruct (H Sample.settings
              (Settings.mk 5000 "Q" "2024-06" Sample.t0 "2024-05-02T09:00:00.000Z"))
    as [_ Hstay]; [reflexivity|vm_compute; reflexivity|].
  assert (orCurrentMonth Sample.may None ≠ Settings.currentMonth Sample.settings)
    as Hne by (vm_compute; discriminate).
  specialize (Hstay Hne). vm_compute in Hstay. discriminate Hstay.
Qed.

(** C3, amended.  [closeMonth] moves [Settings.currentMonth] exactly when
    the month it closes is the month of the clock ([getCurrentMonth()]),
    and then to the calendar month after it (the year rolls over after
    December); otherwise the settings record is left as it is. *)
Theorem closeMonth_advances_on_clock_month now month st s :
  DB.settings (db st) = Some s →
  DB.monthlyArchives (db st) !! orCurrentMonth now month = None →
  (getMonth now < 12)%N →
  let target := orCurrentMonth now month in
  let next := succMonth (getFullYear now) (getMonth now + 1) in
  ∃ s', DB.settings (db (final (closeMonth now month st))) = Some s'
    ∧ (target = getCurrentMonth now →
       Settings.currentMonth s' = monthKey next.1 next.2)
    ∧ (target ≠ getCurrentMonth now → s' = s).
Proof.
  intros Hs Harch Hmonth target next.
  assert (bootstrapped st) as Hboot by (right; by rewrite Hs).
  rewrite (closeMonth_run now month st Hboot Harch).
  cbv zeta. fold target. rewrite Hs.
  destruct (String.eqb target (getCurrentMonth now)) eqn:E.
  - apply String.eqb_eq in E. eexists. split; [reflexivity|].
    split; [|done]. intros _. simpl. rewrite E.
    unfold getCurrentMonth, next. apply nextMonth_monthKey. lia.
  - apply String.eqb_neq in E. exists s. by split.
Qed.

Lemma closeMonth_advances_on_clock_month_witness :
  ∃ s', DB.settings (db (final (closeMonth
            (mkClock "2024-12-31T20:00:00.000Z" 2024 11) None Sample.store)))
        = Some s'
    ∧ Settings.currentMonth s' = "2025-01".
Proof.
  destruct (closeMonth_advances_on_clock_month
              (mkClock "2024-12-31T20:00:00.000Z" 2024 11) None Sample.store
              Sample.settings)
    as (s' & Hs' & Hnext & _).
  - reflexivity.
  - vm_compute. reflexivity.
  - vm_compute. reflexivity.
  - exists s'. split; [exact Hs'|]. apply Hnext. reflexivity.
Defined.

(** ** Deleting a category *)

Lemma deleteCategory_commit id d :
  commit (map (λ kv, DeleteKey EXPENSES kv.1)
              (index_only Expense.categoryId id (DB.expenses d))
          ++ [DeleteKey CATEGORIES id]) d
  = withoutCategory id d.
Proof.
  rewrite commit_app, <- (map_map fst (DeleteKey EXPENSES)).
  rewrite commit_delete_expenses. unfold commit, withoutCategory. simpl.
  f_equal. apply (delete_index_only Expense.categoryId).
Qed.

Lemma deleteCategory_run now id st :
  bootstrapped st →
  deleteCategory now id st
  = mkRun (Ok tt) (mkStore true (withoutCategory id (db st)))
      [withoutCategory id (db st)].
Proof.
  intros Hboot. unfold deleteCategory. rewrite after_getDB by done.
  erewrite transaction_run by reflexivity.
  cbn [db dbInstance]. by rewrite deleteCategory_commit.
Qed.

(** C4. [deleteCategory] removes the category and every expense that
    references it, whatever its month, in one transaction: every durable
    state on the way holds the categories and expenses either as they were
    or as they end, none of them holds an expense of the category without
    the category, and all other records are untouched. *)
Theorem deleteCategory_cascade_atomic now id st c :
  DB.categories (db st) !! id = Some c →
  let r := deleteCategory now id st in
  let d := db st in
  let d' := db (final r) in
  outcome r = Ok tt
  ∧ DB.categories d' !! id = None
  ∧ ofCategory id (DB.expenses d') = ∅
  ∧ size (DB.expenses d') + size (ofCategory id (DB.expenses d))
    = size (DB.expenses d)
  ∧ (∀ k e, DB.expenses d !! k = Some e → Expense.categoryId e ≠ id →
            DB.expenses d' !! k = Some e)
  ∧ (∀ k e, DB.expenses d' !! k = Some e → DB.expenses d !! k = Some e)
  ∧ (∀ id', id' ≠ id → DB.categories d' !! id' = DB.categories d !! id')
  ∧ DB.fixedExpenses d' = DB.fixedExpenses d
  ∧ DB.monthlyArchives d' = DB.monthlyArchives d
  ∧ (bootstrapped st → DB.settings d' = DB.settings d)
  ∧ (∀ s, s ∈ observable (deleteCategory now id) st →
       (DB.categories s = DB.categories d ∧ DB.expenses s = DB.expenses d)
       ∨ (DB.categories s = DB.categories d' ∧ DB.expenses s = DB.expenses d'))
  ∧ (∀ s, s ∈ observable (deleteCategory now id) st → references_resolved id s).
Proof.
  intros Hc r d d'. subst r d'.
  destruct (getDB_same now st) as (d0 & log & Hget & Hsame & Hlog & Hboot).
  destruct Hsame as (Hfx & Hcat & Hexp & Har).
  assert (deleteCategory now id st
          = mkRun (Ok tt) (mkStore true (withoutCategory id d0))
              (log ++ [withoutCategory id d0])) as Hrun.
  { unfold deleteCategory. rewrite (getDB_first now _ st d0 log Hget).
    fold (deleteCategory now id).
    by rewrite deleteCategory_run by apply connected_bootstrapped. }
  assert (∀ s, s ∈ observable (deleteCategory now id) st →
               s = d ∨ s = d0 ∨ s = withoutCategory id d0) as Hobs.
  { intros s. unfold observable. rewrite Hrun. simpl.
    rewrite elem_of_cons, elem_of_app, list_elem_of_singleton.
    intros [->|[Hs| ->]]; auto.
    destruct Hlog as [-> | ->]; [by apply elem_of_nil in Hs|].
    apply list_elem_of_singleton in Hs as ->. auto. }
  rewrite Hrun. simpl. rewrite Hfx, Hcat, Hexp, Har. fold d.
  split; [done|]. split; [apply lookup_delete_eq|].
  split.
  { unfold ofCategory. apply map_eq. intros k.
    rewrite lookup_empty, map_lookup_filter.
    destruct (filter _ (DB.expenses d) !! k) as [e|] eqn:He; [|done].
    apply map_lookup_filter_Some in He as [_ He]. simpl in *.
    by rewrite option_guard_False. }
  split.
  { unfold ofCategory.
    rewrite Nat.add_comm.
    rewrite <- (map_size_disj_union _ _).
    - f_equal. apply map_filter_union_complement.
    - apply map_disjoint_filter_complement. }
  split.
  { intros k e He Hne. by apply map_lookup_filter_Some. }
  split.
  { intros k e He. by apply map_lookup_filter_Some in He as [He _]. }
  split.
  { intros id' Hne. by apply lookup_delete_ne. }
  do 2 (split; [done|]).
  split.
  { intros Hb. by destruct (Hboot Hb) as [-> _]. }
  split.
  - intros s Hs. apply Hobs in Hs as [->|[->| ->]].
    + by left.
    + left. by rewrite Hcat, Hexp.
    + right. simpl. by rewrite Hcat, Hexp.
  - intros s Hs k e He Hid.
    apply Hobs in Hs as [->|[->| ->]].
    + unfold d. by rewrite Hc.
    + rewrite Hcat. unfold d. by rewrite Hc.
    + simpl in He.
      apply map_lookup_filter_Some in He as [_ He]. simpl in He. done.
Qed.

Lemma deleteCategory_cascade_atomic_witness :
  let r := deleteCategory Sample.now "c1" Sample.store in
  outcome r = Ok tt
  ∧ DB.categories (db (final r)) !! "c1" = None
  ∧ ofCategory "c1" (DB.expenses (db (final r))) = ∅.
Proof.
  pose proof (deleteCategory_cascade_atomic Sample.now "c1" Sample.store
                Sample.food) as H.
  cbv zeta in H. destruct H as (Hout & Hcat & Hnone & _).
  - vm_compute. reflexivity.
  - repeat split; assumption.
Defined.

(** ** The month partition of expenses *)

Lemma digit_not_hyphen c : is_digit c = true → Ascii.eqb c "-" = false.
Proof.
  unfold is_digit. intros H. apply andb_prop in H as [H _].
  apply Ascii.eqb_neq. intros ->. vm_compute in H. discriminate H.
Qed.

Lemma monthOfDate_is_date s :
  is_date s = true → monthOfDate s = JS.slice0 7 s.
Proof.
  unfold is_date. intros H.
  destruct s as [|y1 [|y2 [|y3 [|y4 [|h1 [|m1 [|m2 [|h2 [|d1 [|d2 [|x s]]]]]]]]]]];
    try discriminate H.
  cbn [list_ascii_of_string forallb] in H.
  rewrite !andb_true_iff in H.
  destruct H as [[(? & ? & ? & ? & ? & ? & ? & ? & _) ?] ?].
  repeat match goal with
         | Hd : is_digit _ = true |- _ => apply digit_not_hyphen in Hd
         | Hh : Ascii.eqb _ "-" = true |- _ => apply Ascii.eqb_eq in Hh; subst
         end.
  unfold monthOfDate. cbn [JS.split].
  repeat match goal with
         | Hd : Ascii.eqb _ "-" = false |- _ => rewrite Hd; clear Hd
         end.
  rewrite !Ascii.eqb_refl. reflexivity.
Qed.

Lemma partitioned_put d e :
  partitioned d → month_consistent e → partitioned (apply_write d (PutExpense e)).
Proof.
  intros Hd He k e' Hk. simpl in Hk.
  destruct (decide (Expense.id e = k)) as [<-|Hne].
  - rewrite lookup_insert_eq in Hk. by inversion Hk; subst.
  - rewrite lookup_insert_ne in Hk by done. by eapply Hd.
Qed.

Lemma partitioned_same_expenses d d' :
  DB.expenses d' = DB.expenses d → partitioned d → partitioned d'.
Proof. unfold partitioned. intros ->. auto. Qed.

Lemma createExpense_partition now newId data st :
  is_date (expenseDateOf now data) = true →
  partitioned (db st) →
  let r := createExpense now newId data st in
  partitioned (db (final r)) ∧ ∀ e, outcome r = Ok e → month_consistent e.
Proof.
  intros Hdate Hpart r. subst r.
  destruct (getDB_run now st) as (d0 & log & Hget & _ & _ & Hex & _).
  assert (partitioned d0) as Hpart0 by by eapply partitioned_same_expenses.
  unfold createExpense. erewrite bind_step by exact Hget.
  set (expense := Expense.mk _ _ _ _ _ _ _ _).
  assert (month_consistent expense) as Hcons
    by (unfold month_consistent; simpl; by apply monthOfDate_is_date).
  unfold add, bind, transaction, ret. simpl.
  destruct (DB.expenses d0 !! newId); simpl.
  - split; [done|]. intros e He. discriminate He.
  - split; [by apply partitioned_put|]. intros e He. by inversion He; subst.
Qed.

Lemma updateExpense_partition now id updates st :
  (∀ d, Expense.p_date updates = Some d → is_date d = true) →
  partitioned (db st) →
  let r := updateExpense now id updates st in
  partitioned (db (final r)) ∧ ∀ e, outcome r = Ok e → month_consistent e.
Proof.
  intros Hdate Hpart r. subst r.
  destruct (getDB_run now st) as (d0 & log & Hget & _ & _ & Hex & _).
  assert (partitioned d0) as Hpart0 by by eapply partitioned_same_expenses.
  unfold updateExpense. erewrite bind_step by exact Hget.
  unfold bind, read, transaction, ret, throw. simpl.
  destruct (DB.expenses d0 !! id) as [c|] eqn:Hc; simpl.
  - set (updated := Expense.mk _ _ _ _ _ _ _ _).
    assert (month_consistent updated) as Hcons.
    { unfold month_consistent. simpl.
      destruct (Expense.p_date updates) as [d|] eqn:Hd; simpl.
      - pose proof (Hdate d eq_refl) as Hwf.
        destruct d as [|x d]; [discriminate Hwf|]. simpl.
        by apply monthOfDate_is_date.
      - by eapply Hpart0. }
    split; [by apply partitioned_put|]. intros e He. by inversion He; subst.
  - split; [done|]. intros e He. discriminate He.
Qed.

(** C5. The month of an expense is the first seven characters of its date:
    [createExpense] and [updateExpense], given dates of the shape
    [YYYY-MM-DD], return such a record and keep every record of the store
    such, whether or not the patch changes the date and whatever month the
    patch supplies. *)
Theorem expense_month_partition :
  (∀ now newId data st,
     is_date (expenseDateOf now data) = true →
     partitioned (db st) →
     let r := createExpense now newId data st in
     partitioned (db (final r)) ∧ ∀ e, outcome r = Ok e → month_consistent e)
  ∧ (∀ now id updates st,
       (∀ d, Expense.p_date updates = Some d → is_date d = true) →
       partitioned (db st) →
       let r := updateExpense now id updates st in
       partitioned (db (final r)) ∧ ∀ e, outcome r = Ok e → month_consistent e).
Proof. split; [apply createExpense_partition|apply updateExpense_partition]. Qed.

Lemma partitioned_sample : partitioned Sample.ledger.
Proof.
  apply (bool_decide_unpack
           (map_Forall (λ _ e, month_consistent e) (DB.expenses Sample.ledger))).
  vm_compute. exact I.
Defined.

Lemma expense_month_partition_witness :
  partitioned (db (final (createExpense Sample.now "e3"
      (Expense.mkData "c1" (Some "coffee") (Some 4%Q) None) Sample.store)))
  ∧ partitioned (db (final (updateExpense Sample.now "e1"
      (Expense.mkPatch None None None None (Some "2024-04-02") (Some "1999-01")
         None None) Sample.store))).
Proof.
  destruct expense_month_partition as [Hcreate Hupdate]. split.
  - apply Hcreate; [reflexivity|exact partitioned_sample].
  - apply Hupdate; [|exact partitioned_sample].
    intros d Hd. inversion Hd; subst. reflexivity.
Defined.

(** ** Invariants of the store *)

Section Preservation.
Context (P : DB.t → Prop).

Lemma preserves_ret {A} (a : A) : preserves P (ret a).
Proof. by intros st. Qed.

Lemma preserves_throw {A} e : preserves P (@throw A e).
Proof. by intros st. Qed.

Lemma preserves_read {A} (f : DB.t → A) : preserves P (read f).
Proof. by intros st. Qed.

Lemma preserves_bind {A B} (m : Async A) (k : A → Async B) :
  preserves P m → (∀ a, preserves P (k a)) → preserves P (bind m k).
Proof.
  intros Hm Hk st Hst. unfold bind. specialize (Hm st Hst).
  destruct (m st) as [[a|e] st' log]; simpl in *; [|done].
  by apply Hk.
Qed.

Lemma safe_commit ws d : Forall (safe_for P) ws → P d → P (commit ws d).
Proof.
  intros Hws. revert d. induction Hws as [|w ws Hw _ IH]; intros d Hd; [done|].
  unfold commit in *. simpl. apply IH. by apply Hw.
Qed.

Lemma preserves_transaction body :
  (∀ d ws, body d = Ok ws → Forall (safe_for P) ws) →
  preserves P (transaction body).
Proof.
  intros Hbody st Hst. unfold transaction.
  destruct (body (db st)) as [ws|e] eqn:E; simpl; [|done].
  eapply safe_commit; eauto.
Qed.

Lemma preserves_add {A} (store : DB.t → gmap string A) key w :
  safe_for P w → preserves P (add store key w).
Proof.
  intros Hw. unfold add. apply preserves_transaction. intros d ws Hbody.
  destruct (store d !! key); simplify_eq. by apply Forall_singleton.
Qed.

Lemma preserves_getDB now :
  (∀ s, safe_for P (PutSettings s)) → preserves P (getDB now).
Proof.
  intros Hput [[] d] Hd; [done|].
  unfold getDB, bind, openDB, initializeSettings, read, transaction. simpl.
  destruct (DB.settings d); simpl; [done|].
  apply (Hput (Settings.withId "main"
                 (SETTINGS_SCHEMA (getCurrentMonth now) (toISOString now)
                    (toISOString now))) d Hd).
Qed.
End Preservation.


Lemma keyPath_safe w : safe_for keyPath_ok w.
Proof.
  intros d (Hfx & Hcat & Hexp & Har).
  destruct w as [s|x|x|x|x|[] key|[]]; simpl; repeat split; try done;
    intros k y Hk; simpl in Hk;
    first [ apply lookup_insert_Some in Hk as [[<- <-]|[_ Hk]]; [done|eauto]
          | apply lookup_delete_Some in Hk as [_ Hk]; eauto
          | by rewrite lookup_empty in Hk ].
Qed.

(** One step of a preservation proof; [leaf] shows a request safe. *)
Ltac preserves_step leaf :=
  first
    [ apply preserves_ret
    | apply preserves_throw
    | apply preserves_read
    | apply preserves_getDB; intros ?; leaf
    | apply preserves_add; leaf
    | apply preserves_bind; [|intros ?]
    | apply preserves_transaction; intros ? ? ?; simplify_eq;
      repeat first [ apply Forall_cons; split; [leaf|]
                   | apply Forall_app; split
                   | apply Forall_nil_2
                   | apply Forall_fmap, Forall_forall; intros ? _; leaf
                   | match goal with
                     | |- Forall _ (match ?x with _ => _ end) => destruct x
                     end ]
    | match goal with
      | |- preserves _ (match ?x with _ => _ end) => destruct x
      | |- preserves _ (if ?x then _ else _) => destruct x
      end ].

Create HintDb store_ops.
#[local] Hint Unfold getSettings updateSettings getAllFixedExpenses
  createFixedExpense updateFixedExpense deleteFixedExpense getAllCategories
  getCategory createCategory updateCategory deleteCategory getExpensesForMonth
  getExpensesByCategory createExpense updateExpense deleteExpense
  getTotalFixedExpenses getTotalBudgeted getMonthlySpendingSummary exportData
  getAllArchives getArchive isMonthArchived closeMonth deleteArchive
  getAllExpenses getBudgetOverview getAllCategoriesWithSpending
  getCategoryDistribution getBudgetVsActual : store_ops.

Ltac preserves_call leaf :=
  unfold perform;
  match goal with
  | |- ?P (db ?st) → ?P (db (final (?m ?st))) =>
      revert st; change (preserves P m)
  end;
  autounfold with store_ops; repeat preserves_step leaf.

(** The keys of the stores are the [id]s of their records, whatever is
    called. *)
Lemma perform_keyPath_ok call now st :
  keyPath_ok (db st) → keyPath_ok (db (perform call now st)).
Proof.
  revert st.
  destruct call; intros st;
    try (preserves_call ltac:(apply keyPath_safe); done).
  unfold perform, importData.
  destruct (backup ≫= Backup.data); [|done].
  match goal with
  | |- ?P (db ?st) → ?P (db (final (?m ?st))) =>
      revert st; change (preserves P m)
  end.
  repeat preserves_step ltac:(apply keyPath_safe).
Qed.



(** ** The settings singleton *)




(** ** Backups *)

Lemma putAll_list_to_map {A} (key : A → string) (l : list (string * A)) :
  Forall (λ kx, key kx.2 = kx.1) l →
  putAll key l.*2 ∅ = list_to_map (reverse l).
Proof.
  induction l as [|[k x] l IH] using rev_ind; intros Hl; [done|].
  apply Forall_app in Hl as [Hl Hx]. rewrite Forall_singleton in Hx. simpl in Hx.
  unfold putAll in *. rewrite fmap_app, foldl_app, IH by done.
  rewrite reverse_snoc, list_to_map_cons. simpl. by rewrite Hx.
Qed.

Lemma putAll_enumeration {A} (key : A → string) (m : gmap string A)
  (l : list (string * A)) :
  (∀ k x, m !! k = Some x → key x = k) →
  l ≡ₚ map_to_list m →
  putAll key l.*2 ∅ = m.
Proof.
  intros Hkey Hl. rewrite putAll_list_to_map.
  - transitivity (list_to_map (map_to_list m) : gmap string A);
      [|apply list_to_map_to_list].
    apply list_to_map_proper.
    + rewrite reverse_Permutation, Hl. apply NoDup_fst_map_to_list.
    + by rewrite reverse_Permutation.
  - apply Forall_forall. intros [k x] Hin. simpl.
    apply Hkey. apply elem_of_map_to_list. by rewrite <- Hl.
Qed.

Lemma putAll_getAllFromIndex {A} (key ix : A → string) (m : gmap string A) :
  (∀ k x, m !! k = Some x → key x = k) →
  putAll key (getAllFromIndex ix m) ∅ = m.
Proof.
  intros Hkey. apply putAll_enumeration; [done|apply index_entries_Permutation].
Qed.

Lemma putAll_getAll {A} (key : A → string) (m : gmap string A) :
  (∀ k x, m !! k = Some x → key x = k) →
  putAll key (getAll m) ∅ = m.
Proof.
  intros Hkey. apply putAll_enumeration; [done|apply merge_sort_Permutation].
Qed.

Lemma commit_put_fixedExpenses items d :
  commit (map PutFixedExpense items) d
  = DB.mk (DB.settings d) (putAll FixedExpense.id items (DB.fixedExpenses d))
      (DB.categories d) (DB.expenses d) (DB.monthlyArchives d).
Proof.
  revert d. induction items as [|x items IH]; intros d; [by destruct d|].
  unfold commit in *. simpl. by rewrite IH.
Qed.

Lemma commit_put_categories items d :
  commit (map PutCategory items) d
  = DB.mk (DB.settings d) (DB.fixedExpenses d)
      (putAll Category.id items (DB.categories d))
      (DB.expenses d) (DB.monthlyArchives d).
Proof.
  revert d. induction items as [|x items IH]; intros d; [by destruct d|].
  unfold commit in *. simpl. by rewrite IH.
Qed.

Lemma commit_put_expenses items d :
  commit (map PutExpense items) d
  = DB.mk (DB.settings d) (DB.fixedExpenses d) (DB.categories d)
      (putAll Expense.id items (DB.expenses d)) (DB.monthlyArchives d).
Proof.
  revert d. induction items as [|x items IH]; intros d; [by destruct d|].
  unfold commit in *. simpl. by rewrite IH.
Qed.

Lemma commit_put_archives items d :
  commit (map PutArchive items) d
  = DB.mk (DB.settings d) (DB.fixedExpenses d) (DB.categories d)
      (DB.expenses d) (putAll Archive.id items (DB.monthlyArchives d)).
Proof.
  revert d. induction items as [|x items IH]; intros d; [by destruct d|].
  unfold commit in *. simpl. by rewrite IH.
Qed.

Lemma importData_run now backup data st :
  backup ≫= Backup.data = Some data →
  ∃ log,
    importData now backup st = mkRun (Ok tt) (mkStore true (imported data)) log
    ∧ last log = Some (imported data).
Proof.
  intros Hdata. unfold importData. rewrite Hdata.
  destruct (getDB_run now st) as (d0 & log & Hget & _).
  erewrite bind_step by exact Hget.
  erewrite transaction_run by reflexivity.
  cbn [db dbInstance outcome final committed].
  set (d1 := commit _ d0).
  assert (d1 = imported data) as ->.
  { subst d1. rewrite !commit_app.
    rewrite commit_put_archives, commit_put_expenses, commit_put_categories,
      commit_put_fixedExpenses.
    unfold imported. destruct (Backup.settings data); reflexivity. }
  eexists. split; [reflexivity|]. by rewrite last_snoc.
Qed.

Lemma exportData_run now st :
  bootstrapped st →
  let d := db st in
  exportData now st
  = mkRun
      (Ok (Backup.mk DB_VERSION (toISOString now) "Presupuesto Base Cero"
             (Some (Backup.mkData (Settings.withId "main" <$> DB.settings d)
                      (Some (getAllFromIndex FixedExpense.createdAt (DB.fixedExpenses d)))
                      (Some (getAllFromIndex Category.createdAt (DB.categories d)))
                      (Some (getAll (DB.expenses d)))
                      (Some (getAll (DB.monthlyArchives d)))))))
      (mkStore true d) [].
Proof.
  intros Hboot d. unfold exportData. rewrite after_getDB by done.
  rewrite (bind_ok _ _ _ _ _ (getSettings_run now _ (connected_bootstrapped _))).
  rewrite (bind_ok _ _ _ _ _ (getAllFixedExpenses_run now _ (connected_bootstrapped _))).
  rewrite (bind_ok _ _ _ _ _ (getAllCategories_run now _ (connected_bootstrapped _))).
  reflexivity.
Qed.

Lemma keyPath_ok_same d d' : same_records d d' → keyPath_ok d → keyPath_ok d'.
Proof. unfold keyPath_ok. by intros (-> & -> & -> & ->). Qed.

(** C8. A document exported from a store, imported into any store, leaves
    the five collections the exporting store holds; exporting changes no
    record, and once the first access has taken place it changes nothing
    at all. *)
Theorem export_import_round_trip now now' st target :
  keyPath_ok (db st) →
  let exported := exportData now st in
  ∃ document,
    outcome exported = Ok document
    ∧ same_records (db st) (db (final exported))
    ∧ (bootstrapped st → db (final exported) = db st)
    ∧ outcome (importData now' (Some document) target) = Ok tt
    ∧ db (final (importData now' (Some document) target)) = db (final exported).
Proof.
  intros Hkey exported. subst exported.
  destruct (getDB_same now st) as (d0 & log & Hget & Hsame & _ & Hboot).
  pose proof (keyPath_ok_same _ _ Hsame Hkey) as (Hfx & Hcat & Hexp & Har).
  assert (exportData now st
          = mkRun (outcome (exportData now (mkStore true d0)))
              (final (exportData now (mkStore true d0)))
              (log ++ committed (exportData now (mkStore true d0)))) as Hrun
    by (unfold exportData; by apply getDB_first).
  rewrite (exportData_run now (mkStore true d0)) in Hrun
    by apply connected_bootstrapped.
  cbv zeta in Hrun. cbn [outcome final committed db] in Hrun.
  rewrite Hrun. cbn [outcome final db].
  eexists. split; [reflexivity|]. split; [done|].
  split; [intros Hb; by destruct (Hboot Hb) as [-> _]|].
  match goal with
  | |- context [importData now' (Some ?doc) target] =>
      destruct (importData_run now' (Some doc) _ target eq_refl) as (log' & -> & _)
  end.
  split; [reflexivity|]. simpl. unfold imported. simpl.
  rewrite !putAll_getAllFromIndex, !putAll_getAll by done.
  by destruct d0 as [[s|] ? ? ? ?].
Qed.

Lemma keyPath_ok_sample : keyPath_ok (db Sample.closedStore).
Proof.
  repeat split.
  - apply (bool_decide_unpack
             (map_Forall (λ k x, FixedExpense.id x = k)
                (DB.fixedExpenses (db Sample.closedStore)))).
    vm_compute. exact I.
  - apply (bool_decide_unpack
             (map_Forall (λ k x, Category.id x = k)
                (DB.categories (db Sample.closedStore)))).
    vm_compute. exact I.
  - apply (bool_decide_unpack
             (map_Forall (λ k x, Expense.id x = k)
                (DB.expenses (db Sample.closedStore)))).
    vm_compute. exact I.
  - apply (bool_decide_unpack
             (map_Forall (λ k x, Archive.id x = k)
                (DB.monthlyArchives (db Sample.closedStore)))).
    vm_compute. exact I.
Defined.

Lemma export_import_round_trip_witness :
  ∃ document,
    outcome (exportData Sample.now Sample.closedStore) = Ok document
    ∧ db (final (importData Sample.may (Some document) (mkStore false emptyDB)))
      = db Sample.closedStore.
Proof.
  destruct (export_import_round_trip Sample.now Sample.may Sample.closedStore
              (mkStore false emptyDB))
    as (document & Hdoc & _ & Hsame & _ & Hdb).
  - exact keyPath_ok_sample.
  - exists document. split; [exact Hdoc|]. rewrite Hdb. apply Hsame.
    left. vm_compute. reflexivity.
Defined.

(** ** Percentages *)




Lemma Qminmax_clamp p : (Qmin 100 (Qmax 0 p) == clamp 0 100 p)%Q.
Proof.
  unfold clamp.
  destruct (Qle_bool p 0) eqn:E0.
  - apply Qle_bool_iff in E0.
    rewrite Q.max_l by done. apply Q.min_r. done.
  - assert (0 < p)%Q as Hp.
    { apply Qnot_le_lt. intros H. apply Qle_bool_iff in H. congruence. }
    rewrite Q.max_r by by apply Qlt_le_weak.
    destruct (Qle_bool 100 p) eqn:E1.
    + apply Qle_bool_iff in E1. by apply Q.min_l.
    + apply Q.min_r. apply Qlt_le_weak, Qnot_le_lt.
      intros H. apply Qle_bool_iff in H. congruence.
Qed.

Lemma calculatePercentage_clamped value total :
  (calculatePercentage value total == clampedPercentage value total)%Q.
Proof.
  unfold calculatePercentage, clampedPercentage.
  destruct (Qle_bool total 0); [reflexivity|apply Qminmax_clamp].
Qed.

Lemma calculatePercentage_range value total :
  (0 <= calculatePercentage value total <= 100)%Q.
Proof.
  unfold calculatePercentage.
  destruct (Qle_bool total 0); [split; done|].
  split.
  - apply Q.min_glb; [done|apply Q.le_max_l].
  - apply Q.le_min_l.
Qed.








Example getAllCategoriesWithSpending_sample :
  (λ c, Qred (CategorySpending.percentage c))
    <$> default [] (match outcome (getAllCategoriesWithSpending Sample.now Sample.overspent)
                    with Ok cs => Some cs | Thrown _ => None end)
  = [100%Q; 0%Q].
Proof. vm_compute. reflexivity. Qed.


(** ** The aggregation service *)

Lemma getCategory_run now id st :
  bootstrapped st →
  getCategory now id st
  = mkRun (Ok (DB.categories (db st) !! id)) (mkStore true (db st)) [].
Proof. intros H. unfold getCategory. by rewrite after_getDB. Qed.

Lemma getExpensesByCategory_run now categoryId month st :
  bootstrapped st →
  getExpensesByCategory now categoryId month st
  = mkRun
      (Ok (filter (λ e, Expense.categoryId e = categoryId)
             (getAllFromIndexOnly Expense.month (orCurrentMonth now month)
                (DB.expenses (db st)))))
      (mkStore true (db st)) [].
Proof.
  intros H. unfold getExpensesByCategory. rewrite after_getDB by done.
  by rewrite (bind_ok _ _ _ _ _
                (getExpensesForMonth_run now month _ (connected_bootstrapped _))).
Qed.

(** C10. For an id that is the key of no category,
    [getCategoryWithSpending] returns [null]: it does not throw and builds
    no record; the records of the collections are what they were, and once
    the first access has taken place nothing at all is written. *)
Theorem getCategoryWithSpending_unknown dateValue now id st :
  DB.categories (db st) !! id = None →
  let r := getCategoryWithSpending dateValue now id st in
  outcome r = Ok None
  ∧ same_records (db st) (db (final r))
  ∧ (bootstrapped st → db (final r) = db st ∧ committed r = []).
Proof.
  intros Hid r. subst r.
  destruct (getDB_same now st) as (d0 & log & Hget & Hsame & _ & Hboot).
  assert (DB.categories d0 !! id = None) as Hid0.
  { destruct Hsame as (_ & -> & _). exact Hid. }
  assert (getCategory now id st = mkRun (Ok None) (mkStore true d0) log) as Hgc.
  { unfold getCategory. rewrite (getDB_first now _ st d0 log Hget).
    rewrite after_getDB by apply connected_bootstrapped.
    simpl. by rewrite Hid0, app_nil_r. }
  unfold getCategoryWithSpending. rewrite (bind_step _ _ _ _ _ _ Hgc).
  rewrite (bind_ok _ _ _ _ _
             (getExpensesByCategory_run now id None _ (connected_bootstrapped _))).
  simpl. split; [done|]. split; [done|].
  intros Hb. destruct (Hboot Hb) as [-> ->]. done.
Qed.

Lemma getCategoryWithSpending_unknown_witness :
  let r := getCategoryWithSpending (λ _, 0%Q) Sample.now "c9" Sample.store in
  outcome r = Ok None ∧ db (final r) = db Sample.store ∧ committed r = [].
Proof.
  destruct (getCategoryWithSpending_unknown (λ _, 0%Q) Sample.now "c9" Sample.store)
    as (Hout & _ & Hsame).
  - vm_compute. reflexivity.
  - destruct Hsame as [Hdb Hlog]; [left; reflexivity|]. by repeat split.
Defined.

(** C9 fails on the code.  The dashboard asks for February while the clock
    stands in March: the overview and the category spending it gets are
    those of March (800 spent), not those of February (120 spent); the
    month passed is dropped. *)
Theorem aggregation_ignores_target_month :
  ∃ o cs,
    outcome (callWithMonth getBudgetOverview (Some "2024-02")
               Sample.now Sample.store) = Ok o
    ∧ outcome (callWithMonth getAllCategoriesWithSpending (Some "2024-02")
                 Sample.now Sample.store) = Ok cs
    ∧ getCurrentMonth Sample.now = "2024-03"
    ∧ (sumOver Expense.amount (ofMonth "2024-02" (DB.expenses Sample.ledger)) == 120)%Q
    ∧ (sumOver Expense.amount (ofMonth "2024-03" (DB.expenses Sample.ledger)) == 800)%Q
    ∧ (Overview.totalSpent o == 800)%Q
    ∧ Forall (λ c, (CategorySpending.spent c == 800)%Q) cs
    ∧ callWithMonth getBudgetOverview (Some "2024-02") Sample.now Sample.store
      = callWithMonth getBudgetOverview None Sample.now Sample.store.
Proof.
  eexists _, _. split; [vm_compute; reflexivity|].
  split; [vm_compute; reflexivity|].
  split; [vm_compute; reflexivity|].
  split; [vm_compute; reflexivity|].
  split; [vm_compute; reflexivity|].
  split; [vm_compute; reflexivity|].
  split; [|reflexivity].
  apply Forall_cons. split; [vm_compute; reflexivity|apply Forall_nil_2].
Qed.

(** * Further properties of the store *)

(** ** Runs of the single-record operations *)

Lemma write_run now w st :
  bootstrapped st →
  (let* _ := getDB now in transaction (λ _, Ok [w])) st
  = mkRun (Ok tt) (mkStore true (apply_write (db st) w)) [apply_write (db st) w].
Proof. intros H. by rewrite after_getDB. Qed.

Lemma deleteFixedExpense_run now id st :
  bootstrapped st →
  deleteFixedExpense now id st
  = mkRun (Ok tt)
      (mkStore true (apply_write (db st) (DeleteKey FIXED_EXPENSES id)))
      [apply_write (db st) (DeleteKey FIXED_EXPENSES id)].
Proof. apply write_run. Qed.

Lemma deleteExpense_run now id st :
  bootstrapped st →
  deleteExpense now id st
  = mkRun (Ok tt)
      (mkStore true (apply_write (db st) (DeleteKey EXPENSES id)))
      [apply_write (db st) (DeleteKey EXPENSES id)].
Proof. apply write_run. Qed.

Lemma deleteArchive_run now month st :
  bootstrapped st →
  deleteArchive now month st
  = mkRun (Ok tt)
      (mkStore true (apply_write (db st) (DeleteKey MONTHLY_ARCHIVES month)))
      [apply_write (db st) (DeleteKey MONTHLY_ARCHIVES month)].
Proof. apply write_run. Qed.

Lemma DB_eta d :
  DB.mk (DB.settings d) (DB.fixedExpenses d) (DB.categories d) (DB.expenses d)
    (DB.monthlyArchives d) = d.
Proof. by destruct d. Qed.

(** X1. Deleting is idempotent: a fixed expense, an expense or an archive
    whose key is not in its store is deleted without error and without any
    change to the five collections. *)
Theorem delete_absent_changes_nothing now id st :
  bootstrapped st →
  (DB.fixedExpenses (db st) !! id = None →
   outcome (deleteFixedExpense now id st) = Ok tt
   ∧ db (final (deleteFixedExpense now id st)) = db st)
  ∧ (DB.expenses (db st) !! id = None →
     outcome (deleteExpense now id st) = Ok tt
     ∧ db (final (deleteExpense now id st)) = db st)
  ∧ (DB.monthlyArchives (db st) !! id = None →
     outcome (deleteArchive now id st) = Ok tt
     ∧ db (final (deleteArchive now id st)) = db st).
Proof.
  intros Hboot. repeat split.
  - by rewrite deleteFixedExpense_run.
  - rewrite deleteFixedExpense_run by done. simpl.
    rewrite delete_id by done. apply DB_eta.
  - by rewrite deleteExpense_run.
  - rewrite deleteExpense_run by done. simpl.
    rewrite delete_id by done. apply DB_eta.
  - by rewrite deleteArchive_run.
  - rewrite deleteArchive_run by done. simpl.
    rewrite delete_id by done. apply DB_eta.
Qed.

Lemma delete_absent_changes_nothing_witness :
  db (final (deleteFixedExpense Sample.now "f9" Sample.store)) = db Sample.store
  ∧ db (final (deleteExpense Sample.now "e9" Sample.store)) = db Sample.store
  ∧ db (final (deleteArchive Sample.now "2023-12" Sample.store)) = db Sample.store.
Proof.
  destruct (delete_absent_changes_nothing Sample.now "f9" Sample.store)
    as (Hf & _ & _); [left; reflexivity|].
  destruct (delete_absent_changes_nothing Sample.now "e9" Sample.store)
    as (_ & He & _); [left; reflexivity|].
  destruct (delete_absent_changes_nothing Sample.now "2023-12" Sample.store)
    as (_ & _ & Ha); [left; reflexivity|].
  split; [apply Hf; vm_compute; reflexivity|].
  split; [apply He; vm_compute; reflexivity|].
  apply Ha. vm_compute. reflexivity.
Defined.

(** X2. [deleteCategory] is idempotent, and it purges by reference, not by
    existence: on an id that is the key of no category it still removes
    every expense that references the id and leaves the categories as they
    were; a second call changes nothing. *)
Theorem deleteCategory_idempotent now now' id st :
  bootstrapped st →
  let st1 := final (deleteCategory now id st) in
  (DB.categories (db st) !! id = None →
   DB.categories (db st1) = DB.categories (db st)
   ∧ DB.expenses (db st1)
     = filter (λ kv, Expense.categoryId kv.2 ≠ id) (DB.expenses (db st)))
  ∧ outcome (deleteCategory now' id st1) = Ok tt
  ∧ db (final (deleteCategory now' id st1)) = db st1.
Proof.
  intros Hboot st1. subst st1.
  rewrite (deleteCategory_run now id st Hboot). cbn [final db].
  rewrite deleteCategory_run by apply connected_bootstrapped. cbn [outcome final db].
  split.
  { intros Hid. simpl. split; [by apply delete_id|done]. }
  split; [done|].
  unfold withoutCategory. simpl. f_equal.
  - apply delete_id, lookup_delete_eq.
  - apply map_eq. intros k. rewrite !map_lookup_filter.
    destruct (DB.expenses (db st) !! k) as [e|]; simpl; [|done].
    destruct (decide (Expense.categoryId e = id)) as [He|He].
    + by rewrite (option_guard_False (Expense.categoryId (k, e).2 ≠ id)) by (simpl; tauto).
    + rewrite (option_guard_True (Expense.categoryId (k, e).2 ≠ id)) by done.
      simpl. by rewrite option_guard_True.
Qed.

Lemma deleteCategory_idempotent_witness :
  let st1 := final (deleteCategory Sample.now "c1" Sample.store) in
  db (final (deleteCategory Sample.may "c1" st1)) = db st1.
Proof.
  destruct (deleteCategory_idempotent Sample.now Sample.may "c1" Sample.store)
    as (_ & _ & H); [left; reflexivity|exact H].
Defined.

(** ** Updates *)

Lemma read_then {A B} now (f : DB.t → A) (k : A → Async B) st :
  bootstrapped st →
  (let* _ := getDB now in let* x := read f in k x) st
  = k (f (db st)) (mkStore true (db st)).
Proof.
  intros H. rewrite after_getDB by done.
  by apply (bind_ok (read f) k (mkStore true (db st)) (f (db st))).
Qed.

(** X3. An update of a record that does not exist throws the not-found
    error and writes nothing. *)
Theorem update_missing_throws now id st :
  bootstrapped st →
  (∀ updates, DB.fixedExpenses (db st) !! id = None →
     let r := updateFixedExpense now id updates st in
     outcome r = Thrown NotFoundError ∧ db (final r) = db st ∧ committed r = [])
  ∧ (∀ updates, DB.categories (db st) !! id = None →
       let r := updateCategory now id updates st in
       outcome r = Thrown NotFoundError ∧ db (final r) = db st ∧ committed r = [])
  ∧ (∀ updates, DB.expenses (db st) !! id = None →
       let r := updateExpense now id updates st in
       outcome r = Thrown NotFoundError ∧ db (final r) = db st ∧ committed r = []).
Proof.
  intros Hboot. split; [|split]; intros updates Hid; cbn zeta.
  - unfold updateFixedExpense. rewrite read_then by done. by rewrite Hid.
  - unfold updateCategory. rewrite read_then by done. by rewrite Hid.
  - unfold updateExpense. rewrite read_then by done. by rewrite Hid.
Qed.

Lemma update_missing_throws_witness :
  outcome (updateExpense Sample.now "e9"
             (Expense.mkPatch None None None (Some 1%Q) None None None None)
             Sample.store)
  = Thrown NotFoundError.
Proof.
  destruct (update_missing_throws Sample.now "e9" Sample.store)
    as (_ & _ & H); [left; reflexivity|].
  apply H. vm_compute. reflexivity.
Defined.
(** ** Creation *)

Lemma add_run {A} now (store : DB.t → gmap string A) key w st :
  bootstrapped st →
  (let* _ := getDB now in add store key w) st
  = match store (db st) !! key with
    | Some _ => mkRun (Thrown ConstraintError) (mkStore true (db st)) []
    | None => mkRun (Ok tt) (mkStore true (apply_write (db st) w))
                [apply_write (db st) w]
    end.
Proof.
  intros H. rewrite after_getDB by done. unfold add, transaction. cbn [db].
  by destruct (store (db st) !! key).
Qed.

Lemma create_run {A B} now (store : DB.t → gmap string A) key w (x : B) st :
  bootstrapped st →
  (let* _ := getDB now in let* _ := add store key w in ret x) st
  = match store (db st) !! key with
    | Some _ => mkRun (Thrown ConstraintError) (mkStore true (db st)) []
    | None => mkRun (Ok x) (mkStore true (apply_write (db st) w))
                [apply_write (db st) w]
    end.
Proof.
  intros H. rewrite after_getDB by done. unfold add, transaction, bind. cbn [db].
  by destruct (store (db st) !! key).
Qed.

(** X4. The stores refuse a second record under a key in use: a creation
    whose generated id is taken throws the constraint error and writes
    nothing, so it never replaces the record that holds the id. *)
Theorem create_on_used_id_throws now newId st :
  bootstrapped st →
  (∀ data, is_Some (DB.fixedExpenses (db st) !! newId) →
     let r := createFixedExpense now newId data st in
     outcome r = Thrown ConstraintError ∧ db (final r) = db st ∧ committed r = [])
  ∧ (∀ data, is_Some (DB.categories (db st) !! newId) →
       let r := createCategory now newId data st in
       outcome r = Thrown ConstraintError ∧ db (final r) = db st ∧ committed r = [])
  ∧ (∀ data, is_Some (DB.expenses (db st) !! newId) →
       let r := createExpense now newId data st in
       outcome r = Thrown ConstraintError ∧ db (final r) = db st ∧ committed r = []).
Proof.
  intros Hboot. split; [|split]; intros data [x Hx]; cbn zeta.
  - unfold createFixedExpense. rewrite create_run by done. by rewrite Hx.
  - unfold createCategory. rewrite create_run by done. by rewrite Hx.
  - unfold createExpense. rewrite create_run by done. by rewrite Hx.
Qed.

Lemma create_on_used_id_throws_witness :
  let r := createExpense Sample.may "e1"
             (Expense.mkData "c1" (Some "again") (Some 1%Q) (Some "2024-05-01"))
             Sample.store in
  outcome r = Thrown ConstraintError ∧ db (final r) = db Sample.store.
Proof.
  destruct (create_on_used_id_throws Sample.may "e1" Sample.store)
    as (_ & _ & H); [left; reflexivity|].
  destruct (H (Expense.mkData "c1" (Some "again") (Some 1%Q) (Some "2024-05-01")))
    as (Ho & Hd & _); [vm_compute; eauto|].
  split; [exact Ho|exact Hd].
Defined.

Lemma createExpense_run now newId data st :
  bootstrapped st →
  DB.expenses (db st) !! newId = None →
  let e :=
    Expense.mk newId (Expense.d_categoryId data)
      (trimmed (Expense.d_description data)) (parsed (Expense.d_amount data))
      (expenseDateOf now data) (monthOfDate (expenseDateOf now data))
      (toISOString now) (toISOString now) in
  createExpense now newId data st
  = mkRun (Ok e) (mkStore true (apply_write (db st) (PutExpense e)))
      [apply_write (db st) (PutExpense e)].
Proof.
  intros Hboot Hfresh e. unfold createExpense. rewrite create_run by done.
  by rewrite Hfresh.
Qed.

Lemma filter_insert_fresh {A} (P : string * A → Prop) `{!∀ kv, Decision (P kv)}
  (m : gmap string A) k x :
  m !! k = None →
  filter P (<[k := x]> m)
  = if decide (P (k, x)) then <[k := x]> (filter P m) else filter P m.
Proof.
  intros Hk. case_decide.
  - by apply map_filter_insert_True.
  - rewrite map_filter_insert_False by done. by rewrite delete_id.
Qed.

(** X5. A created expense is listed under the month of its date and under
    no other month: the listing of that month gains the returned record,
    and the listing of every other month is what it was. *)
Theorem createExpense_listed now now' newId data month st :
  bootstrapped st →
  DB.expenses (db st) !! newId = None →
  let r := createExpense now newId data st in
  ∃ e before after,
    outcome r = Ok e
    ∧ Expense.id e = newId
    ∧ Expense.month e = monthOfDate (Expense.date e)
    ∧ outcome (getExpensesForMonth now' month st) = Ok before
    ∧ outcome (getExpensesForMonth now' month (final r)) = Ok after
    ∧ (orCurrentMonth now' month = Expense.month e → after ≡ₚ e :: before)
    ∧ (orCurrentMonth now' month ≠ Expense.month e → after ≡ₚ before).
Proof.
  intros Hboot Hfresh r. subst r.
  rewrite (createExpense_run now newId data st Hboot Hfresh). cbn zeta. cbn [outcome final].
  rewrite !getExpensesForMonth_run by (done || apply connected_bootstrapped).
  cbn [outcome db].
  eexists _, _, _. repeat split; try reflexivity.
  - intros Heq. rewrite !getAllFromIndexOnly_Permutation. simpl.
    rewrite filter_insert_fresh by done.
    rewrite decide_True by (simpl; done).
    rewrite map_to_list_insert; [done|].
    rewrite map_lookup_filter, Hfresh. done.
  - intros Hne. rewrite !getAllFromIndexOnly_Permutation. simpl.
    rewrite filter_insert_fresh by done.
    by rewrite decide_False by (intros Heq; apply Hne; symmetry; exact Heq).
Qed.

Lemma createExpense_listed_witness :
  ∃ e after,
    outcome (createExpense Sample.now "e7"
               (Expense.mkData "c1" (Some " tea ") (Some 40%Q) (Some "2024-03-30"))
               Sample.store) = Ok e
    ∧ outcome (getExpensesForMonth Sample.may (Some "2024-03")
                 (final (createExpense Sample.now "e7"
                    (Expense.mkData "c1" (Some " tea ") (Some 40%Q) (Some "2024-03-30"))
                    Sample.store))) = Ok after
    ∧ after ≡ₚ [e; Sample.market; Sample.bakery].
Proof.
  destruct (createExpense_listed Sample.now Sample.may "e7"
              (Expense.mkData "c1" (Some " tea ") (Some 40%Q) (Some "2024-03-30"))
              (Some "2024-03") Sample.store)
    as (e & before & after & He & _ & _ & Hb & Ha & Hin & _);
    [left; reflexivity|vm_compute; reflexivity|].
  exists e, after. split; [exact He|]. split; [exact Ha|].
  assert (Ok before = Ok [Sample.market; Sample.bakery]) as Hbefore
    by (rewrite <- Hb; vm_compute; reflexivity).
  injection Hbefore as <-.
  apply Hin. vm_compute in He. injection He as <-. vm_compute. reflexivity.
Defined.

(** X6. [createExpense] does not look the category up: an expense for an id
    that is the key of no category is stored all the same, and leaves a
    reference that does not resolve. *)
Theorem createExpense_unchecked_category now newId data st :
  bootstrapped st →
  DB.expenses (db st) !! newId = None →
  DB.categories (db st) !! Expense.d_categoryId data = None →
  let r := createExpense now newId data st in
  ∃ e, outcome r = Ok e
    ∧ DB.expenses (db (final r)) !! newId = Some e
    ∧ Expense.categoryId e = Expense.d_categoryId data
    ∧ DB.categories (db (final r)) = DB.categories (db st)
    ∧ ¬ references_resolved (Expense.d_categoryId data) (db (final r)).
Proof.
  intros Hboot Hfresh Hcat r. subst r.
  rewrite (createExpense_run now newId data st Hboot Hfresh). cbn zeta.
  cbn [outcome final db]. eexists. split; [reflexivity|]. simpl.
  split; [apply lookup_insert_eq|]. split; [done|]. split; [done|].
  intros Href.
  destruct (Href newId _ (lookup_insert_eq _ _ _) eq_refl) as [c Hc].
  simpl in Hc. congruence.
Qed.

Lemma createExpense_unchecked_category_witness :
  ¬ references_resolved "c9"
      (db (final (createExpense Sample.now "e7"
                    (Expense.mkData "c9" None (Some 40%Q) None) Sample.store))).
Proof.
  destruct (createExpense_unchecked_category Sample.now "e7"
              (Expense.mkData "c9" None (Some 40%Q) None) Sample.store)
    as (e & _ & _ & _ & _ & H);
    [left; reflexivity|vm_compute; reflexivity|vm_compute; reflexivity|exact H].
Defined.
(** ** The settings record over a session *)

Lemma getDB_fresh now st :
  dbInstance st = false →
  let d := match DB.settings (db st) with
           | Some _ => db st
           | None =>
               apply_write (db st)
                 (PutSettings
                    (Settings.withId "main"
                       (SETTINGS_SCHEMA (getCurrentMonth now)
                          (toISOString now) (toISOString now))))
           end in
  getDB now st
  = mkRun (Ok tt) (mkStore true d)
      match DB.settings (db st) with Some _ => [] | None => [d] end.
Proof.
  intros Hfresh. destruct st as [i d0]. simpl in Hfresh. subst i.
  unfold getDB, bind, openDB, initializeSettings, bind, read, transaction.
  cbn [outcome final committed db dbInstance].
  by destruct (DB.settings d0) as [s|] eqn:Hs.
Qed.

(** X7. The first access of a session creates the settings record when
    there is none, with income 0, currency Q and the month of the clock,
    and keeps the record when there is one.  The records are untouched, and
    the defaults are written once: later reads write nothing, whatever the
    clock says then. *)
Theorem first_access_creates_defaults now st :
  dbInstance st = false →
  let r := getSettings now st in
  let defaults :=
    Settings.mk 0 "Q" (getCurrentMonth now) (toISOString now) (toISOString now) in
  outcome r = Ok (Some (default defaults (DB.settings (db st))))
  ∧ DB.settings (db (final r)) = Some (default defaults (DB.settings (db st)))
  ∧ same_records (db st) (db (final r))
  ∧ (∀ now', getSettings now' (final r) = mkRun (outcome r) (final r) []).
Proof.
  intros Hfresh r defaults. subst r.
  assert (getSettings now st
          = mkRun (Ok (Some (default defaults (DB.settings (db st)))))
              (mkStore true
                 (DB.mk (Some (default defaults (DB.settings (db st))))
                    (DB.fixedExpenses (db st)) (DB.categories (db st))
                    (DB.expenses (db st)) (DB.monthlyArchives (db st))))
              match DB.settings (db st) with
              | Some _ => []
              | None =>
                  [apply_write (db st)
                     (PutSettings (Settings.withId "main" defaults))]
              end) as ->.
  { unfold getSettings.
    rewrite (bind_step _ _ _ _ _ _ (getDB_fresh now st Hfresh)).
    unfold read. cbn [outcome final committed db].
    destruct st as [i d0]. cbn [db]. destruct d0 as [[s|] ? ? ? ?]; done. }
  cbn [outcome final db]. split; [done|]. split; [done|]. split; [done|].
  intros now'. by rewrite getSettings_run by apply connected_bootstrapped.
Qed.

Lemma first_access_creates_defaults_witness :
  outcome (getSettings Sample.now (mkStore false emptyDB))
  = Ok (Some (Settings.mk 0 "Q" "2024-03" "2024-03-31T18:00:00.000Z"
                "2024-03-31T18:00:00.000Z")).
Proof.
  destruct (first_access_creates_defaults Sample.now (mkStore false emptyDB))
    as (H & _); [reflexivity|exact H].
Defined.

Lemma importData_final now backup data st :
  backup ≫= Backup.data = Some data →
  final (importData now backup st) = mkStore true (imported data).
Proof.
  intros H. destruct (importData_run now backup data st H) as (log & -> & _). done.
Qed.

Lemma getBudgetOverview_run now st :
  bootstrapped st →
  ∃ o, getBudgetOverview now st = mkRun (Ok o) (mkStore true (db st)) []
    ∧ Overview.monthlyIncome o
      = match DB.settings (db st) with
        | Some s => JS.or_number (Settings.monthlyIncome s) 0%Q
        | None => 0%Q
        end
    ∧ Overview.totalFixedExpenses o
      = JS.sum FixedExpense.amount
          (getAllFromIndex FixedExpense.createdAt (DB.fixedExpenses (db st)))
    ∧ Overview.totalBudgeted o
      = JS.sum Category.budgetLimit
          (getAllFromIndex Category.createdAt (DB.categories (db st)))
    ∧ Overview.totalSpent o
      = JS.sum Expense.amount
          (getAllFromIndexOnly Expense.month (getCurrentMonth now)
             (DB.expenses (db st)))
    ∧ Overview.availableForBudget o
      = (Overview.monthlyIncome o - Overview.totalFixedExpenses o)%Q
    ∧ Overview.remainingBudget o
      = (Overview.totalBudgeted o - Overview.totalSpent o)%Q
    ∧ Overview.unassigned o
      = (Overview.availableForBudget o - Overview.totalBudgeted o)%Q
    ∧ Overview.realAvailable o
      = (Overview.monthlyIncome o - Overview.totalFixedExpenses o
         - Overview.totalSpent o)%Q
    ∧ Overview.currency o
      = match DB.settings (db st) with
        | Some s => JS.or_string (Settings.currency s) "Q"
        | None => "Q"
        end
    ∧ Overview.currentMonth o
      = match DB.settings (db st) with
        | Some s => JS.or_string (Settings.currentMonth s) (getCurrentMonth now)
        | None => getCurrentMonth now
        end.
Proof.
  intros Hboot. unfold getBudgetOverview.
  rewrite (bind_ok _ _ _ _ _ (getSettings_run now st Hboot)).
  rewrite (bind_ok _ _ _ _ _
             (getAllFixedExpenses_run now _ (connected_bootstrapped (db st)))).
  rewrite (bind_ok _ _ _ _ _
             (getAllCategories_run now _ (connected_bootstrapped (db st)))).
  rewrite (bind_ok _ _ _ _ _
             (getExpensesForMonth_run now None _ (connected_bootstrapped (db st)))).
  cbn [db]. eexists. split; [reflexivity|]. cbn. repeat split.
Qed.



Lemma closeMonth_closed_run now month st :
  bootstrapped st →
  is_Some (DB.monthlyArchives (db st) !! orCurrentMonth now month) →
  closeMonth now month st
  = mkRun (Thrown (AlreadyClosedError (orCurrentMonth now month)))
      (mkStore true (db st)) [].
Proof.
  intros Hboot [a Ha]. unfold closeMonth.
  rewrite (bind_ok _ _ _ _ _ (getArchive_run now _ st Hboot)).
  by rewrite Ha.
Qed.

(** X9. [closeMonth] is not one transaction.  Without a settings record,
    closing the month of the clock saves the archive and removes the
    expenses of the month, and only then fails on the update of the
    settings: the caller sees the data error, the month is closed all the
    same, and a retry reports it as closed already.  Closing another month
    does not touch the settings and succeeds, with income 0. *)
Theorem closeMonth_without_settings now month st :
  bootstrapped st →
  DB.settings (db st) = None →
  DB.monthlyArchives (db st) !! orCurrentMonth now month = None →
  let target := orCurrentMonth now month in
  let r := closeMonth now month st in
  (target = getCurrentMonth now →
     outcome r = Thrown DataError
     ∧ is_Some (DB.monthlyArchives (db (final r)) !! target)
     ∧ DB.expenses (db (final r)) = notOfMonth target (DB.expenses (db st))
     ∧ outcome (closeMonth now month (final r)) = Thrown (AlreadyClosedError target))
  ∧ (target ≠ getCurrentMonth now →
       ∃ archive, outcome r = Ok archive
         ∧ DB.monthlyArchives (db (final r)) !! target = Some archive
         ∧ Archive.monthlyIncome (Archive.summary archive) = 0%Q
         ∧ Archive.currency (Archive.summary archive) = "Q").
Proof.
  intros Hboot Hs Hfree target r. subst r.
  pose proof (closeMonth_run now month st Hboot Hfree) as Hrun.
  cbn zeta in Hrun. rewrite Hs in Hrun. fold target in Hrun.
  split.
  - intros Heq. rewrite Heq, String.eqb_refl in Hrun. rewrite <- Heq in Hrun.
    rewrite Hrun. cbn [outcome final db].
    assert (is_Some (DB.monthlyArchives
                       (closed target
                          (archiveRecord now target None
                             (getAllFromIndex FixedExpense.createdAt
                                (DB.fixedExpenses (db st)))
                             (getAllFromIndex Category.createdAt
                                (DB.categories (db st)))
                             (getAllFromIndexOnly Expense.month target
                                (DB.expenses (db st)))) (db st)) !! target)) as Harch.
    { simpl. rewrite lookup_insert_eq. eauto. }
    split; [done|]. split; [exact Harch|]. split; [done|].
    rewrite closeMonth_closed_run by (exact Harch || apply connected_bootstrapped).
    done.
  - intros Hne. apply String.eqb_neq in Hne. rewrite Hne in Hrun.
    rewrite Hrun. cbn [outcome final db]. eexists. split; [reflexivity|].
    simpl. by rewrite lookup_insert_eq.
Qed.

Lemma closeMonth_without_settings_witness :
  let st := final (importData Sample.now (Some Sample.bare) Sample.store) in
  outcome (closeMonth Sample.now None st) = Thrown DataError
  ∧ is_Some (DB.monthlyArchives (db (final (closeMonth Sample.now None st)))
               !! "2024-03").
Proof.
  intros st.
  destruct (closeMonth_without_settings Sample.now None st) as [H _];
    [left; reflexivity|reflexivity|vm_compute; reflexivity|].
  destruct H as (Ho & Ha & _); [vm_compute; reflexivity|].
  split; [exact Ho|exact Ha].
Defined.

(** ** Sorting *)

Lemma insert_sorted_Permutation {A} (before : relation A)
  `{!∀ x y, Decision (before x y)} x (l : list A) :
  JS.insert_sorted before x l ≡ₚ x :: l.
Proof.
  induction l as [|y l IH]; [done|]. cbn [JS.insert_sorted].
  case_decide; [done|]. rewrite IH. apply Permutation_swap.
Qed.

Lemma sort_Permutation {A} (before : relation A)
  `{!∀ x y, Decision (before x y)} (l : list A) :
  JS.sort before l ≡ₚ l.
Proof.
  unfold JS.sort. induction l as [|x l IH]; [done|]. cbn [foldr].
  by rewrite insert_sorted_Permutation, IH.
Qed.

(** Under a comparator that is transitive and total, the sorted array is
    in order. *)
Lemma sort_StronglySorted {A} (before : relation A)
  `{!∀ x y, Decision (before x y)} (l : list A) :
  Transitive before → Total before → StronglySorted before (JS.sort before l).
Proof.
  intros Htrans Htotal. unfold JS.sort.
  induction l as [|x l IH]; cbn [foldr]; [constructor|].
  generalize dependent (foldr (JS.insert_sorted before) [] l).
  clear l. intros l Hl.
  induction Hl as [|y l Hl IH Hy]; cbn [JS.insert_sorted].
  - repeat constructor.
  - case_decide as Hxy.
    + constructor; [by constructor|]. constructor; [done|].
      eapply Forall_impl; [exact Hy|]. intros z Hz. by transitivity y.
    + constructor; [exact IH|].
      rewrite insert_sorted_Permutation. constructor; [|done].
      by destruct (Htotal x y).
Qed.


(** ** Expenses by category *)


Lemma sum_map {A B} (f : B → Q) (g : A → B) (xs : list A) :
  JS.sum f (map g xs) = JS.sum (λ x, f (g x)) xs.
Proof.
  unfold JS.sum. generalize 0%Q. induction xs as [|x xs IH]; intros acc; simpl; [done|].
  apply IH.
Qed.

Lemma listing_ids {A} (key ix : A → string) (m : gmap string A) :
  (∀ k x, m !! k = Some x → key x = k) →
  key <$> getAllFromIndex ix m ≡ₚ (map_to_list m).*1.
Proof.
  intros Hkey. unfold getAllFromIndex.
  assert (key <$> (index_entries ix m).*2 = (index_entries ix m).*1) as ->.
  { rewrite <- list_fmap_compose. apply list_fmap_ext.
    intros i [k x] Hi. simpl. apply Hkey.
    apply elem_of_map_to_list. rewrite <- (index_entries_Permutation ix m).
    by eapply list_elem_of_lookup_2. }
  by rewrite index_entries_Permutation.
Qed.

Lemma listing_NoDup {A} (key ix : A → string) (m : gmap string A) :
  (∀ k x, m !! k = Some x → key x = k) →
  NoDup (key <$> getAllFromIndex ix m).
Proof.
  intros Hkey. rewrite (listing_ids key ix m Hkey). apply NoDup_fst_map_to_list.
Qed.

Lemma elem_of_listing_ids {A} (key ix : A → string) (m : gmap string A) k :
  (∀ k x, m !! k = Some x → key x = k) →
  k ∈ key <$> getAllFromIndex ix m ↔ is_Some (m !! k).
Proof.
  intros Hkey. rewrite (listing_ids key ix m Hkey).
  rewrite list_elem_of_fmap. split.
  - intros ([k' x] & -> & Hin). apply elem_of_map_to_list in Hin. eauto.
  - intros [x Hx]. exists (k, x). split; [done|]. by apply elem_of_map_to_list.
Qed.

Lemma filter_snd {A} (R : A → Prop) `{!∀ x, Decision (R x)}
  (l : list (string * A)) :
  filter R l.*2 = (filter (λ kv, R kv.2) l).*2.
Proof.
  induction l as [|[k x] l IH]; [done|].
  rewrite fmap_cons, !filter_cons. simpl.
  destruct (decide (R x)); simpl; by rewrite IH.
Qed.

Lemma filter_ext_in {A} (P R : A → Prop)
  `{!∀ x, Decision (P x)} `{!∀ x, Decision (R x)} (xs : list A) :
  (∀ x, x ∈ xs → P x ↔ R x) → filter P xs = filter R xs.
Proof.
  intros Hiff. induction xs as [|x xs IH]; [done|].
  rewrite !filter_cons.
  destruct (decide (P x)) as [HP|HP], (decide (R x)) as [HR|HR].
  - f_equal. apply IH. intros y Hy. apply Hiff. by right.
  - exfalso. apply HR, Hiff; [left|done].
  - exfalso. apply HP, Hiff; [left|done].
  - apply IH. intros y Hy. apply Hiff. by right.
Qed.

Lemma filter_all {A} (P : A → Prop) `{!∀ x, Decision (P x)} (xs : list A) :
  (∀ x, x ∈ xs → P x) → filter P xs = xs.
Proof.
  intros HP. induction xs as [|x xs IH]; [done|].
  rewrite filter_cons, decide_True by (apply HP; left).
  f_equal. apply IH. intros y Hy. apply HP. by right.
Qed.

(** Every expense is in the group of exactly one category, or in none when
    no category carries its [categoryId]. *)
Lemma partition_by_category (cats : list Category.t) (expenses : list Expense.t) :
  NoDup (Category.id <$> cats) →
  expenses
  ≡ₚ concat ((λ c, filter (λ e, Expense.categoryId e = Category.id c) expenses)
               <$> cats)
     ++ filter (λ e, Expense.categoryId e ∉ Category.id <$> cats) expenses.
Proof.
  induction cats as [|c cats IH]; intros Hnodup.
  - cbn [fmap list_fmap concat app]. rewrite filter_all; [done|].
    intros e _. apply not_elem_of_nil.
  - rewrite fmap_cons in Hnodup. apply NoDup_cons in Hnodup as [Hc Hnodup].
    rewrite !fmap_cons. cbn [concat]. rewrite <- app_assoc.
    rewrite (IH Hnodup) at 1.
    rewrite (Permutation_app_swap_app
               (filter (λ e, Expense.categoryId e = Category.id c) expenses)).
    apply Permutation_app_head.
    rewrite <- (filter_app_complement (λ e, Expense.categoryId e = Category.id c)
                 (filter (λ e, Expense.categoryId e ∉ Category.id <$> cats)
                    expenses)).
    rewrite !list_filter_filter. apply Permutation_app.
    + apply eq_subrelation; [apply _|]. apply filter_ext_in. intros e _.
      split; [tauto|]. intros He. split; [done|]. by rewrite He.
    + apply eq_subrelation; [apply _|]. apply filter_ext_in. intros e _.
      rewrite elem_of_cons. tauto.
Qed.

(** The listed expenses of [month] whose category is missing are the
    orphans of the month. *)
Lemma orphans_listing month d :
  filter (λ e, DB.categories d !! Expense.categoryId e = None)
    (getAllFromIndexOnly Expense.month month (DB.expenses d))
  ≡ₚ (map_to_list (orphans month d)).*2.
Proof.
  unfold orphans.
  assert (filter (λ kv : string * Expense.t,
                    Expense.month kv.2 = month
                    ∧ DB.categories d !! Expense.categoryId kv.2 = None)
                 (DB.expenses d)
          = filter (λ kv, DB.categories d !! Expense.categoryId kv.2 = None)
              (filter (λ kv, Expense.month kv.2 = month) (DB.expenses d))) as ->.
  { rewrite map_filter_comm, map_filter_filter. by apply map_filter_ext. }
  rewrite getAllFromIndexOnly_Permutation, filter_snd.
  apply fmap_Permutation. symmetry.
  apply (map_to_list_filter_Permutation Expense.month).
Qed.

(** With the keys in place, the expenses that reference none of the listed
    categories are those whose category is missing. *)
Lemma filter_unlisted (ix : Category.t → string) (d : DB.t)
  (expenses : list Expense.t) :
  (∀ k x, DB.categories d !! k = Some x → Category.id x = k) →
  filter (λ e, Expense.categoryId e
               ∉ Category.id <$> getAllFromIndex ix (DB.categories d)) expenses
  = filter (λ e, DB.categories d !! Expense.categoryId e = None) expenses.
Proof.
  intros Hkey. apply filter_ext_in. intros e _.
  rewrite (elem_of_listing_ids Category.id) by done.
  by rewrite <- eq_None_not_Some.
Qed.

Lemma elem_of_month_listing month (m : gmap string Expense.t) e :
  e ∈ getAllFromIndexOnly Expense.month month m
  ↔ ∃ k, m !! k = Some e ∧ Expense.month e = month.
Proof.
  unfold getAllFromIndexOnly. rewrite list_elem_of_fmap. split.
  - intros ([k x] & -> & Hin). exists k. by apply elem_of_index_only in Hin.
  - intros (k & Hk & Hm). exists (k, e). split; [done|].
    by apply elem_of_index_only.
Qed.

Lemma elem_of_listing {A} (ix : A → string) (m : gmap string A) x :
  x ∈ getAllFromIndex ix m ↔ ∃ k, m !! k = Some x.
Proof.
  rewrite getAllFromIndex_Permutation, list_elem_of_fmap. split.
  - intros ([k y] & -> & Hin). exists k. by apply elem_of_map_to_list.
  - intros [k Hk]. exists (k, x). split; [done|]. by apply elem_of_map_to_list.
Qed.

(** ** What an archive holds *)

(** X10. Closing a month leaves the fixed expenses, the categories and the
    archives of other months as they are.  The archive copies the fixed
    expenses as listed, holds one snapshot per category in the order of the
    listing, and each snapshot's amount spent is the sum of the month's
    expenses that reference the category. *)
Theorem closeMonth_snapshot now month st s :
  DB.settings (db st) = Some s →
  DB.monthlyArchives (db st) !! orCurrentMonth now month = None →
  let target := orCurrentMonth now month in
  let r := closeMonth now month st in
  let d := db st in
  let d' := db (final r) in
  ∃ archive,
    outcome r = Ok archive
    ∧ DB.fixedExpenses d' = DB.fixedExpenses d
    ∧ DB.categories d' = DB.categories d
    ∧ (∀ k, k ≠ target → DB.monthlyArchives d' !! k = DB.monthlyArchives d !! k)
    ∧ Archive.id archive = target
    ∧ Archive.month archive = target
    ∧ Archive.closedAt archive = toISOString now
    ∧ Archive.fixedExpenses archive
      = getAllFromIndex FixedExpense.createdAt (DB.fixedExpenses d)
    ∧ Archive.category <$> Archive.categories archive
      = getAllFromIndex Category.createdAt (DB.categories d)
    ∧ Forall (λ snap,
        Archive.spent snap
        = JS.sum Expense.amount
            (filter (λ e, Expense.categoryId e
                          = Category.id (Archive.category snap))
                    (Archive.expenses archive)))
        (Archive.categories archive).
Proof.
  intros Hs Hfree target r d d'. subst r d d'.
  assert (bootstrapped st) as Hboot by (right; rewrite Hs; eauto).
  pose proof (closeMonth_run now month st Hboot Hfree) as Hrun.
  cbn zeta in Hrun. rewrite Hs in Hrun. fold target in Hrun.
  set (archive := archiveRecord now target (Some s) _ _ _) in Hrun.
  exists archive.
  assert (outcome (closeMonth now month st) = Ok archive
          ∧ DB.fixedExpenses (db (final (closeMonth now month st)))
            = DB.fixedExpenses (db st)
          ∧ DB.categories (db (final (closeMonth now month st)))
            = DB.categories (db st)
          ∧ DB.monthlyArchives (db (final (closeMonth now month st)))
            = <[target := archive]> (DB.monthlyArchives (db st)))
    as (Ho & Hf & Hc & Ha).
  { rewrite Hrun. by destruct (String.eqb target (getCurrentMonth now)). }
  split; [exact Ho|]. split; [exact Hf|]. split; [exact Hc|].
  split. { intros k Hk. rewrite Ha. by apply lookup_insert_ne. }
  split; [done|]. split; [done|]. split; [done|]. split; [done|].
  split.
  - subst archive. unfold archiveRecord. cbn [Archive.categories].
    rewrite <- list_fmap_compose. by rewrite list_fmap_id.
  - subst archive. unfold archiveRecord.
    cbn [Archive.categories Archive.expenses].
    apply Forall_fmap, Forall_forall. by intros c _.
Qed.

Lemma closeMonth_snapshot_witness :
  ∃ archive,
    outcome (closeMonth Sample.now None Sample.store) = Ok archive
    ∧ Archive.fixedExpenses archive = [Sample.rent]
    ∧ Archive.category <$> Archive.categories archive = [Sample.food].
Proof.
  destruct (closeMonth_snapshot Sample.now None Sample.store Sample.settings)
    as (archive & Ho & _ & _ & _ & _ & _ & _ & Hf & Hc & _);
    [reflexivity|vm_compute; reflexivity|].
  exists archive. split; [exact Ho|]. split.
  - rewrite Hf. vm_compute. reflexivity.
  - rewrite Hc. vm_compute. reflexivity.
Defined.

(** X11. An archive counts every expense of the month in the total spent,
    and in the amount spent of exactly one category when its category
    exists; an expense whose category does not exist counts in the total and
    in no category. *)
Theorem archive_spent_accounts now month st s :
  DB.settings (db st) = Some s →
  DB.monthlyArchives (db st) !! orCurrentMonth now month = None →
  keyPath_ok (db st) →
  ∃ archive,
    outcome (closeMonth now month st) = Ok archive
    ∧ Archive.totalSpent (Archive.summary archive)
      = JS.sum Expense.amount (Archive.expenses archive)
    ∧ Forall (λ snap,
        Archive.spent snap
        = JS.sum Expense.amount
            (filter (λ e, Expense.categoryId e
                          = Category.id (Archive.category snap))
                    (Archive.expenses archive)))
        (Archive.categories archive)
    ∧ Archive.expenses archive
      ≡ₚ concat ((λ snap,
                    filter (λ e, Expense.categoryId e
                                 = Category.id (Archive.category snap))
                           (Archive.expenses archive))
                   <$> Archive.categories archive)
         ++ filter (λ e, DB.categories (db st) !! Expense.categoryId e = None)
              (Archive.expenses archive)
    ∧ filter (λ e, DB.categories (db st) !! Expense.categoryId e = None)
        (Archive.expenses archive)
      ≡ₚ (map_to_list (orphans (orCurrentMonth now month) (db st))).*2.
Proof.
  intros Hs Hfree (_ & Hkey & _).
  assert (bootstrapped st) as Hboot by (right; rewrite Hs; eauto).
  pose proof (closeMonth_run now month st Hboot Hfree) as Hrun.
  cbn zeta in Hrun. rewrite Hs in Hrun.
  set (target := orCurrentMonth now month) in *.
  set (archive := archiveRecord now target (Some s) _ _ _) in Hrun.
  exists archive. split.
  { rewrite Hrun. by destruct (String.eqb target (getCurrentMonth now)). }
  subst archive. unfold archiveRecord.
  cbn [Archive.categories Archive.summary Archive.totalSpent Archive.expenses].
  set (cats := getAllFromIndex Category.createdAt (DB.categories (db st))).
  set (expenses := getAllFromIndexOnly Expense.month target (DB.expenses (db st))).
  split; [done|]. split.
  { apply Forall_fmap, Forall_forall. by intros c _. }
  split; [|apply orphans_listing].
  rewrite <- list_fmap_compose.
  rewrite <- (filter_unlisted Category.createdAt) by done. fold cats.
  apply partition_by_category. by apply (listing_NoDup Category.id).
Qed.

Lemma archive_spent_accounts_witness :
  ∃ archive,
    outcome (closeMonth Sample.now None Stray.store) = Ok archive
    ∧ Archive.totalSpent (Archive.summary archive)
      = JS.sum Expense.amount (Archive.expenses archive)
    ∧ filter (λ e, DB.categories (db Stray.store) !! Expense.categoryId e = None)
        (Archive.expenses archive)
      ≡ₚ (map_to_list (orphans "2024-03" (db Stray.store))).*2.
Proof.
  destruct (archive_spent_accounts Sample.now None Stray.store Sample.settings)
    as (archive & Ho & Ht & _ & _ & Horph);
    [reflexivity|vm_compute; reflexivity| |].
  - apply (bool_decide_unpack (keyPath_ok (db Stray.store))). vm_compute. exact I.
  - exists archive. split; [exact Ho|]. split; [exact Ht|exact Horph].
Defined.

(** ** The aggregation service *)

#[local] Existing Instance newerFirst_dec.

Lemma foldl_thrown {A B} (f : Outcome A → B → Outcome A) e xs :
  (∀ x, f (Thrown e) x = Thrown e) → foldl f (Thrown e) xs = Thrown e.
Proof.
  intros Hf. induction xs as [|x xs IH]; [done|]. cbn [foldl]. by rewrite Hf.
Qed.

Lemma groupByCategory_from (acc : gmap string (list Expense.t)) expenses :
  Forall (λ e, JS.inherited (Expense.categoryId e) = false) expenses →
  ∃ groups,
    foldl (λ acc expense,
             match acc with
             | Ok groups =>
                 if JS.inherited (Expense.categoryId expense)
                 then Thrown JsTypeError
                 else
                   Ok (<[Expense.categoryId expense :=
                           (default [] (groups !! Expense.categoryId expense)
                            ++ [expense])%list]> groups)
             | Thrown e => Thrown e
             end)
          (Ok acc) expenses
    = Ok groups
    ∧ ∀ k, default [] (groups !! k)
           = (default [] (acc !! k)
              ++ filter (λ e, Expense.categoryId e = k) expenses)%list.
Proof.
  revert acc. induction expenses as [|e es IH]; intros acc Hown.
  - exists acc. split; [done|]. intros k. by rewrite filter_nil, app_nil_r.
  - apply Forall_cons in Hown as [He Hes]. cbn [foldl]. rewrite He.
    destruct (IH (<[Expense.categoryId e :=
                     (default [] (acc !! Expense.categoryId e) ++ [e])%list]> acc)
                 Hes) as (groups & -> & Hgroups).
    exists groups. split; [done|]. intros k. rewrite Hgroups, filter_cons.
    destruct (decide (Expense.categoryId e = k)) as [<-|Hne].
    + rewrite lookup_insert_eq. simpl. by rewrite <- app_assoc.
    + by rewrite lookup_insert_ne.
Qed.

(** The group of a category holds the expenses that reference it, in the
    order of the listing. *)
Lemma groupByCategory_lookup expenses :
  Forall (λ e, JS.inherited (Expense.categoryId e) = false) expenses →
  ∃ groups,
    groupByCategory expenses = Ok groups
    ∧ ∀ k, default [] (groups !! k)
           = filter (λ e, Expense.categoryId e = k) expenses.
Proof.
  intros Hown. destruct (groupByCategory_from ∅ expenses Hown)
    as (groups & Hrun & Hgroups).
  exists groups. split; [exact Hrun|]. intros k.
  by rewrite Hgroups, lookup_empty.
Qed.

(** One expense under an inherited name makes the grouping throw. *)
Lemma groupByCategory_thrown expenses :
  Exists (λ e, JS.inherited (Expense.categoryId e) = true) expenses →
  groupByCategory expenses = Thrown JsTypeError.
Proof.
  unfold groupByCategory. generalize (∅ : gmap string (list Expense.t)).
  induction expenses as [|e es IH]; intros acc Hex.
  - by apply Exists_nil in Hex.
  - cbn [foldl]. destruct (JS.inherited (Expense.categoryId e)) eqn:He.
    + by apply foldl_thrown.
    + apply IH. apply Exists_cons in Hex as [Hhd|Htl]; [congruence|done].
Qed.

Lemma withSpending_own groups expenses cats :
  (∀ k, default [] (groups !! k)
        = filter (λ e, Expense.categoryId e = k) expenses) →
  Forall (λ c, JS.inherited (Category.id c) = false) cats →
  mapOutcome (withSpending groups) cats = Ok (spending_of expenses <$> cats).
Proof.
  intros Hgroups. induction cats as [|c cats IH]; intros Hown; [done|].
  apply Forall_cons in Hown as [Hc Hcats]. cbn [mapOutcome].
  unfold withSpending at 1. rewrite Hc, (IH Hcats). cbn zeta.
  by rewrite Hgroups.
Qed.

Lemma withSpending_thrown groups cats :
  Exists (λ c, JS.inherited (Category.id c) = true) cats →
  mapOutcome (withSpending groups) cats = Thrown JsTypeError.
Proof.
  induction cats as [|c cats IH]; intros Hex.
  - by apply Exists_nil in Hex.
  - cbn [mapOutcome]. unfold withSpending at 1.
    destruct (JS.inherited (Category.id c)) eqn:Hc; [done|].
    rewrite IH; [done|].
    apply Exists_cons in Hex as [Hhd|Htl]; [congruence|done].
Qed.

Lemma own_names_listed month d :
  own_names month d
  ↔ Forall (λ c, JS.inherited (Category.id c) = false)
      (getAllFromIndex Category.createdAt (DB.categories d))
    ∧ Forall (λ e, JS.inherited (Expense.categoryId e) = false)
        (getAllFromIndexOnly Expense.month month (DB.expenses d)).
Proof.
  unfold own_names. rewrite !Forall_forall, !map_Forall_lookup.
  split; intros [Hcats Hexps]; split.
  - intros c [k Hk]%elem_of_listing. by eapply Hcats.
  - intros e (k & Hk & Hmonth)%elem_of_month_listing. by eapply Hexps.
  - intros k c Hk. apply Hcats, elem_of_listing. by exists k.
  - intros k e Hk Hmonth. apply Hexps, elem_of_month_listing. by exists k.
Qed.

Lemma getAllCategoriesWithSpending_run now st :
  bootstrapped st →
  own_names (getCurrentMonth now) (db st) →
  getAllCategoriesWithSpending now st
  = mkRun
      (Ok (spending_of
             (getAllFromIndexOnly Expense.month (getCurrentMonth now)
                (DB.expenses (db st)))
           <$> getAllFromIndex Category.createdAt (DB.categories (db st))))
      (mkStore true (db st)) [].
Proof.
  intros Hboot [Hcats Hexps]%own_names_listed.
  unfold getAllCategoriesWithSpending.
  rewrite (bind_ok _ _ _ _ _ (getAllCategories_run now st Hboot)).
  rewrite (bind_ok _ _ _ _ _
             (getExpensesForMonth_run now None _ (connected_bootstrapped (db st)))).
  cbn [orCurrentMonth db].
  destruct (groupByCategory_lookup _ Hexps) as (groups & -> & Hgroups).
  by rewrite (withSpending_own groups _ _ Hgroups Hcats).
Qed.

Lemma getAllCategoriesWithSpending_thrown now st :
  bootstrapped st →
  ¬ own_names (getCurrentMonth now) (db st) →
  getAllCategoriesWithSpending now st
  = mkRun (Thrown JsTypeError) (mkStore true (db st)) [].
Proof.
  intros Hboot Hnot. unfold getAllCategoriesWithSpending.
  rewrite (bind_ok _ _ _ _ _ (getAllCategories_run now st Hboot)).
  rewrite (bind_ok _ _ _ _ _
             (getExpensesForMonth_run now None _ (connected_bootstrapped (db st)))).
  cbn [orCurrentMonth db].
  set (expenses := getAllFromIndexOnly Expense.month (getCurrentMonth now)
                     (DB.expenses (db st))).
  set (cats := getAllFromIndex Category.createdAt (DB.categories (db st))).
  destruct (decide (Forall (λ e, JS.inherited (Expense.categoryId e) = false)
                      expenses)) as [Hexps|Hexps].
  - destruct (groupByCategory_lookup _ Hexps) as (groups & -> & _).
    rewrite withSpending_thrown; [done|].
    assert (¬ Forall (λ c, JS.inherited (Category.id c) = false) cats) as Hcats.
    { intros Hcats. apply Hnot, own_names_listed. by split. }
    apply not_Forall_Exists in Hcats; [|apply _].
    eapply Exists_impl; [exact Hcats|].
    intros c Hc. by apply not_false_iff_true.
  - rewrite groupByCategory_thrown; [done|].
    apply not_Forall_Exists in Hexps; [|apply _].
    eapply Exists_impl; [exact Hexps|].
    intros e He. by apply not_false_iff_true.
Qed.

Lemma getCategoryWithSpending_run dateValue now id st :
  bootstrapped st →
  let expenses :=
    filter (λ e, Expense.categoryId e = id)
      (getAllFromIndexOnly Expense.month (getCurrentMonth now)
         (DB.expenses (db st))) in
  getCategoryWithSpending dateValue now id st
  = mkRun
      (Ok ((λ category,
              let spent := JS.sum Expense.amount expenses in
              CategorySpending.mkDetail category spent
                (Category.budgetLimit category - spent)%Q
                (calculatePercentage spent (Category.budgetLimit category))
                (JS.sort (newerFirst dateValue) expenses))
           <$> DB.categories (db st) !! id))
      (mkStore true (db st)) [].
Proof.
  intros Hboot expenses. unfold getCategoryWithSpending.
  rewrite (bind_ok _ _ _ _ _ (getCategory_run now id st Hboot)).
  rewrite (bind_ok _ _ _ _ _
             (getExpensesByCategory_run now id None _
                (connected_bootstrapped (db st)))).
  cbn [db]. by destruct (DB.categories (db st) !! id).
Qed.

(** X12. The list of all categories is produced when no category id and no
    [categoryId] of an expense of the current month is the name of an
    inherited property, and the call throws otherwise.  When it is
    produced, it agrees with the detail of one category: for every listed
    category, the detail found under its id carries the same category,
    amount spent, remainder and percentage, and as many expenses as the
    list counts. *)
Theorem category_list_agrees_with_detail dateValue now st :
  bootstrapped st →
  keyPath_ok (db st) →
  (own_names (getCurrentMonth now) (db st) →
   ∃ cs,
     outcome (getAllCategoriesWithSpending now st) = Ok cs
     ∧ Forall (λ c,
         ∃ detail,
           outcome (getCategoryWithSpending dateValue now
                      (Category.id (CategorySpending.category c)) st)
           = Ok (Some detail)
           ∧ CategorySpending.d_category detail = CategorySpending.category c
           ∧ CategorySpending.d_spent detail = CategorySpending.spent c
           ∧ CategorySpending.d_remaining detail = CategorySpending.remaining c
           ∧ CategorySpending.d_percentage detail = CategorySpending.percentage c
           ∧ length (CategorySpending.d_expenses detail)
             = CategorySpending.expenseCount c) cs)
  ∧ (¬ own_names (getCurrentMonth now) (db st) →
     outcome (getAllCategoriesWithSpending now st) = Thrown JsTypeError).
Proof.
  intros Hboot (_ & Hkey & _). split; [intros Hown|intros Hnot].
  - rewrite getAllCategoriesWithSpending_run by done. cbn [outcome].
    eexists. split; [reflexivity|].
    apply Forall_fmap, Forall_forall. intros c Hc. simpl.
    apply elem_of_listing in Hc as [k Hk].
    rewrite (getCategoryWithSpending_run dateValue now (Category.id c) st Hboot).
    cbn zeta. cbn [outcome].
    rewrite (Hkey k c Hk), Hk. simpl.
    eexists. split; [reflexivity|]. simpl.
    repeat split. by rewrite sort_Permutation.
  - by rewrite getAllCategoriesWithSpending_thrown.
Qed.

Lemma category_list_agrees_with_detail_witness :
  (∃ cs,
     outcome (getAllCategoriesWithSpending Sample.now Sample.store) = Ok cs
     ∧ Forall (λ c,
         ∃ detail,
           outcome (getCategoryWithSpending (λ _, 0%Q) Sample.now
                      (Category.id (CategorySpending.category c)) Sample.store)
           = Ok (Some detail)
           ∧ CategorySpending.d_spent detail = CategorySpending.spent c) cs)
  ∧ outcome (getAllCategoriesWithSpending Sample.now Stray.misfiled)
    = Thrown JsTypeError.
Proof.
  split.
  - destruct (category_list_agrees_with_detail (λ _, 0%Q) Sample.now Sample.store)
      as [Hlist _].
    + left. reflexivity.
    + apply (bool_decide_unpack (keyPath_ok (db Sample.store))).
      vm_compute. exact I.
    + destruct Hlist as (cs & Ho & Hall).
      * apply (bool_decide_unpack (own_names "2024-03" (db Sample.store))).
        vm_compute. exact I.
      * exists cs. split; [exact Ho|].
        eapply Forall_impl; [exact Hall|].
        intros c (detail & Hd & _ & Hs & _). exists detail.
        split; [exact Hd|exact Hs].
  - destruct (category_list_agrees_with_detail (λ _, 0%Q) Sample.now
                Stray.misfiled) as [_ Hthrown].
    + left. reflexivity.
    + apply (bool_decide_unpack (keyPath_ok (db Stray.misfiled))).
      vm_compute. exact I.
    + apply Hthrown.
      apply (bool_decide_unpack (¬ own_names "2024-03" (db Stray.misfiled))).
      vm_compute. exact I.
Defined.

(** X13. When the list of all categories is produced, every expense of the
    month counts in the total spent of the overview, and in the amount
    spent of exactly one listed category when its category exists; the
    expenses that count in no category are those whose category does not
    exist. *)
Theorem category_spending_accounts now st :
  bootstrapped st →
  keyPath_ok (db st) →
  own_names (getCurrentMonth now) (db st) →
  ∃ expenses cs o,
    outcome (getExpensesForMonth now None st) = Ok expenses
    ∧ outcome (getAllCategoriesWithSpending now st) = Ok cs
    ∧ outcome (getBudgetOverview now st) = Ok o
    ∧ Overview.totalSpent o = JS.sum Expense.amount expenses
    ∧ Forall (λ c,
        CategorySpending.spent c
        = JS.sum Expense.amount
            (filter (λ e, Expense.categoryId e
                          = Category.id (CategorySpending.category c))
               expenses)) cs
    ∧ expenses
      ≡ₚ concat ((λ c,
                    filter (λ e, Expense.categoryId e
                                 = Category.id (CategorySpending.category c))
                       expenses) <$> cs)
         ++ filter (λ e, DB.categories (db st) !! Expense.categoryId e = None)
              expenses
    ∧ filter (λ e, DB.categories (db st) !! Expense.categoryId e = None)
        expenses
      ≡ₚ (map_to_list (orphans (getCurrentMonth now) (db st))).*2.
Proof.
  intros Hboot (_ & Hkey & _) Hown.
  rewrite getExpensesForMonth_run, getAllCategoriesWithSpending_run by done.
  destruct (getBudgetOverview_run now st Hboot)
    as (o & -> & _ & _ & _ & Hspent & _).
  eexists _, _, o. split; [reflexivity|]. split; [reflexivity|].
  split; [reflexivity|]. cbn [orCurrentMonth].
  set (cats := getAllFromIndex Category.createdAt (DB.categories (db st))).
  set (expenses := getAllFromIndexOnly Expense.month (getCurrentMonth now)
                     (DB.expenses (db st))) in *.
  split; [exact Hspent|]. split.
  { apply Forall_fmap, Forall_forall. by intros c _. }
  split; [|apply orphans_listing].
  rewrite <- list_fmap_compose.
  rewrite <- (filter_unlisted Category.createdAt) by done. fold cats.
  apply partition_by_category. by apply (listing_NoDup Category.id).
Qed.

Lemma category_spending_accounts_witness :
  ∃ expenses cs o,
    outcome (getExpensesForMonth Sample.now None Stray.store) = Ok expenses
    ∧ outcome (getAllCategoriesWithSpending Sample.now Stray.store) = Ok cs
    ∧ outcome (getBudgetOverview Sample.now Stray.store) = Ok o
    ∧ Overview.totalSpent o = JS.sum Expense.amount expenses
    ∧ filter (λ e, DB.categories (db Stray.store) !! Expense.categoryId e = None)
        expenses
      ≡ₚ (map_to_list (orphans "2024-03" (db Stray.store))).*2.
Proof.
  destruct (category_spending_accounts Sample.now Stray.store)
    as (expenses & cs & o & He & Hc & Ho & Ht & _ & _ & Horph).
  - left. reflexivity.
  - apply (bool_decide_unpack (keyPath_ok (db Stray.store))). vm_compute. exact I.
  - apply (bool_decide_unpack (own_names "2024-03" (db Stray.store))).
    vm_compute. exact I.
  - exists expenses, cs, o. split; [exact He|]. split; [exact Hc|].
    split; [exact Ho|]. split; [exact Ht|exact Horph].
Defined.

(** X14. The two charts read the same list, and are drawn when it is
    produced: the bar chart has one bar per category, in the order of the
    listing, and the distribution has a slice for exactly the bars whose
    actual amount is above zero, with the same name, amount and colour.
    When the list throws, both charts throw. *)
Theorem charts_agree now st :
  bootstrapped st →
  (own_names (getCurrentMonth now) (db st) →
   ∃ bars slices,
     outcome (getBudgetVsActual now st) = Ok bars
     ∧ outcome (getCategoryDistribution now st) = Ok slices
     ∧ (λ b, (Bar.name b, Bar.budget b))
         <$> bars
       = (λ c, (Category.name c, Category.budgetLimit c))
           <$> getAllFromIndex Category.createdAt (DB.categories (db st))
     ∧ (λ s, (Slice.name s, Slice.value s, Slice.color s)) <$> slices
       = (λ b, (Bar.name b, Bar.actual b, Bar.color b))
           <$> filter (λ b, positive_number (Bar.actual b) = true) bars)
  ∧ (¬ own_names (getCurrentMonth now) (db st) →
     outcome (getBudgetVsActual now st) = Thrown JsTypeError
     ∧ outcome (getCategoryDistribution now st) = Thrown JsTypeError).
Proof.
  intros Hboot. unfold getBudgetVsActual, getCategoryDistribution.
  split; [intros Hown|intros Hnot].
  - rewrite !(bind_ok _ _ _ _ _ (getAllCategoriesWithSpending_run now st Hboot Hown)).
    eexists _, _. split; [reflexivity|]. split; [reflexivity|].
    generalize (getAllFromIndexOnly Expense.month (getCurrentMonth now)
                  (DB.expenses (db st))) as expenses.
    generalize (getAllFromIndex Category.createdAt (DB.categories (db st))) as cats.
    intros cats expenses. split.
    + rewrite <- !list_fmap_compose. by apply list_fmap_ext.
    + induction cats as [|c cats IH]; [done|].
      rewrite !fmap_cons, !filter_cons. cbn [Bar.actual].
      destruct (decide (positive_number
                          (CategorySpending.spent (spending_of expenses c)) = true));
        [rewrite !fmap_cons; f_equal|]; exact IH.
  - by rewrite !(bind_thrown _ _ _ _ _ _
                   (getAllCategoriesWithSpending_thrown now st Hboot Hnot)).
Qed.

Lemma charts_agree_witness :
  (∃ bars slices,
     outcome (getBudgetVsActual Sample.now Sample.overspent) = Ok bars
     ∧ outcome (getCategoryDistribution Sample.now Sample.overspent) = Ok slices
     ∧ length bars = 2
     ∧ (λ s, (Slice.name s, Slice.value s, Slice.color s)) <$> slices
       = (λ b, (Bar.name b, Bar.actual b, Bar.color b))
           <$> filter (λ b, positive_number (Bar.actual b) = true) bars)
  ∧ outcome (getBudgetVsActual Sample.now Stray.misfiled) = Thrown JsTypeError.
Proof.
  split.
  - destruct (charts_agree Sample.now Sample.overspent) as [Hdrawn _];
      [left; reflexivity|].
    destruct Hdrawn as (bars & slices & Hb & Hs & Hcats & Hsl).
    + apply (bool_decide_unpack (own_names "2024-03" (db Sample.overspent))).
      vm_compute. exact I.
    + exists bars, slices. split; [exact Hb|]. split; [exact Hs|].
      split; [|exact Hsl].
      rewrite <- (length_fmap (λ b, (Bar.name b, Bar.budget b))), Hcats, length_fmap.
      vm_compute. reflexivity.
  - destruct (charts_agree Sample.now Stray.misfiled) as [_ Hthrown];
      [left; reflexivity|].
    apply Hthrown.
    apply (bool_decide_unpack (¬ own_names "2024-03" (db Stray.misfiled))).
    vm_compute. exact I.
Defined.

From Stdlib Require Import Lqa.

(** ** Percentages and the progress bar *)

Lemma clampedPercentage_positive value total :
  (0 < total)%Q →
  clampedPercentage value total = clamp 0 100 (value / total * 100)%Q.
Proof.
  intros Ht. unfold clampedPercentage.
  destruct (Qle_bool total 0) eqn:Hle; [|done].
  apply Qle_bool_iff in Hle. lra.
Qed.

Lemma scaled_le x value total :
  (0 < total)%Q → (x <= value / total * 100 ↔ x * total <= 100 * value)%Q.
Proof.
  intros Ht.
  assert (value / total * total == value)%Q as Hdiv by (field; lra).
  split; intros H.
  - assert (x * total <= value / total * 100 * total)%Q as H'.
    { apply Qmult_le_compat_r; lra. }
    assert (value / total * 100 * total == 100 * (value / total * total))%Q
      as E by ring.
    rewrite E, Hdiv in H'. exact H'.
  - apply Qmult_le_r with (z := total); [done|].
    assert (value / total * 100 * total == 100 * (value / total * total))%Q
      as E by ring.
    rewrite E, Hdiv. exact H.
Qed.

(** A percentage reaches a mark between 0 and 100 exactly when the value
    reaches that share of a positive total. *)
Lemma percentage_reaches x value total :
  (0 < x <= 100)%Q →
  (x <= calculatePercentage value total
   ↔ 0 < total ∧ x * total <= 100 * value)%Q.
Proof.
  intros [Hx0 Hx100]. rewrite calculatePercentage_clamped.
  destruct (Qlt_le_dec 0 total) as [Ht|Ht].
  - rewrite clampedPercentage_positive by done.
    rewrite <- (scaled_le x value total Ht).
    unfold clamp.
    destruct (Qle_bool (value / total * 100) 0) eqn:H0.
    { apply Qle_bool_iff in H0. split; [lra|]. intros [_ H]. lra. }
    destruct (Qle_bool 100 (value / total * 100)) eqn:H100.
    { apply Qle_bool_iff in H100. split; [intros _; split; [done|lra]|lra]. }
    tauto.
  - unfold clampedPercentage.
    assert (Qle_bool total 0 = true) as -> by (by apply Qle_bool_iff).
    split; lra.
Qed.

(** X15. The colour of a progress bar fed by [calculatePercentage]: danger
    exactly when the total is positive and the value reaches it.  A total of
    zero or less never leaves normal, whatever was spent, and neither does a
    value of zero or less; a warning is shown only for a value above zero
    and below a positive total. *)
Theorem progress_status_of_percentage value total :
  (getProgressStatus (calculatePercentage value total) = danger
   ↔ (0 < total ∧ total <= value)%Q)
  ∧ ((total <= 0)%Q
     → getProgressStatus (calculatePercentage value total) = normal)
  ∧ ((value <= 0)%Q
     → getProgressStatus (calculatePercentage value total) = normal)
  ∧ (getProgressStatus (calculatePercentage value total) = warning
     → (0 < total ∧ 0 < value ∧ value < total)%Q).
Proof.
  pose proof (percentage_reaches 100 value total ltac:(lra)) as H100.
  pose proof (percentage_reaches 80 value total ltac:(lra)) as H80.
  unfold getProgressStatus.
  destruct (Qle_bool 100 (calculatePercentage value total)) eqn:E100.
  - apply Qle_bool_iff, H100 in E100. split; [|split; [|split]].
    + split; [intros _; lra|done].
    + intros Hle. lra.
    + intros Hle. lra.
    + discriminate.
  - assert (¬ (0 < total ∧ 100 * total <= 100 * value)%Q) as N100.
    { intros H. apply H100, Qle_bool_iff in H. congruence. }
    destruct (Qle_bool 80 (calculatePercentage value total)) eqn:E80.
    + apply Qle_bool_iff, H80 in E80. split; [|split; [|split]].
      * split; [discriminate|]. intros [? ?]. exfalso. apply N100. split; lra.
      * intros Hle. lra.
      * intros Hle. lra.
      * intros _. destruct E80 as [? ?]. split; [done|]. split; [lra|].
        destruct (Qlt_le_dec value total); [done|].
        exfalso. apply N100. split; lra.
    + split; [|split; [|split]]; [|done|done|discriminate].
      split; [discriminate|]. intros [? ?]. exfalso. apply N100. split; lra.
Qed.

Lemma progress_status_of_percentage_witness :
  getProgressStatus (calculatePercentage 50 0) = normal
  ∧ getProgressStatus (calculatePercentage 0 1000) = normal
  ∧ getProgressStatus (calculatePercentage 1200 1000) = danger.
Proof.
  split; [|split].
  - destruct (progress_status_of_percentage 50 0) as (_ & H & _).
    apply H. lra.
  - destruct (progress_status_of_percentage 0 1000) as (_ & _ & H & _).
    apply H. lra.
  - destruct (progress_status_of_percentage 1200 1000) as (H & _).
    apply H. lra.
Defined.

(** ** Checking an addition against the limit *)

(** X16. [validateExpenseAddition] advises and never refuses: for a
    category that exists the answer is valid for every amount.  It says the
    limit would be exceeded when what was spent plus the amount is above the
    limit, and reports as the remainder the limit minus what was spent,
    minus the amount; the two are computed apart.  When the limit would be
    exceeded the new percentage is 100 under a positive limit; it is 0 under
    a limit of zero or less.  It writes nothing. *)
Theorem validateExpenseAddition_advises dateValue now id amount st c :
  bootstrapped st →
  DB.categories (db st) !! id = Some c →
  let r := validateExpenseAddition dateValue now id amount st in
  ∃ wouldExceed newPercentage remaining detail,
    outcome r = Ok (Addition.Valid wouldExceed newPercentage remaining detail)
    ∧ CategorySpending.d_category detail = c
    ∧ outcome (getCategoryWithSpending dateValue now id st) = Ok (Some detail)
    ∧ wouldExceed
      = greater_number (CategorySpending.d_spent detail + amount)%Q
          (Category.budgetLimit c)
    ∧ remaining
      = (Category.budgetLimit c - CategorySpending.d_spent detail - amount)%Q
    ∧ newPercentage
      = calculatePercentage (CategorySpending.d_spent detail + amount)%Q
          (Category.budgetLimit c)
    ∧ (wouldExceed = true → (0 < Category.budgetLimit c)%Q →
       (newPercentage == 100)%Q)
    ∧ ((Category.budgetLimit c <= 0)%Q → (newPercentage == 0)%Q)
    ∧ db (final r) = db st
    ∧ committed r = [].
Proof.
  intros Hboot Hc r. subst r. unfold validateExpenseAddition.
  rewrite (bind_ok _ _ _ _ _
             (getCategoryWithSpending_run dateValue now id st Hboot)).
  rewrite (getCategoryWithSpending_run dateValue now id st Hboot).
  rewrite Hc. cbn [fmap option_fmap option_map].
  set (spent := JS.sum Expense.amount _).
  eexists _, _, _, _. split; [reflexivity|]. cbn.
  fold spent. split; [done|]. split; [done|]. split; [done|].
  split; [done|]. split; [done|].
  assert (greater_number (spent + amount) (Category.budgetLimit c) = true
          ↔ (Category.budgetLimit c < spent + amount)%Q) as Hgt.
  { unfold greater_number. rewrite negb_true_iff.
    destruct (Qle_bool (spent + amount) (Category.budgetLimit c)) eqn:E.
    - apply Qle_bool_iff in E. split; [done|lra].
    - split; [intros _|done]. apply Qnot_le_lt. intros H.
      apply Qle_bool_iff in H. congruence. }
  split.
  - intros Hex Hpos. apply Hgt in Hex. apply Qle_antisym.
    + apply calculatePercentage_range.
    + apply percentage_reaches; [lra|]. split; lra.
  - split; [|done]. intros Hle. unfold calculatePercentage.
    assert (Qle_bool (Category.budgetLimit c) 0 = true) as ->
      by (by apply Qle_bool_iff).
    reflexivity.
Qed.

Lemma validateExpenseAddition_advises_witness :
  ∃ detail,
    outcome (validateExpenseAddition (λ _, 0%Q) Sample.now "c1" 500 Sample.store)
    = Ok (Addition.Valid true 100 (-300) detail).
Proof.
  destruct (validateExpenseAddition_advises (λ _, 0%Q) Sample.now "c1" 500%Q
              Sample.store Sample.food)
    as (w & p & r & d & Ho & _ & Hd & Hw & Hr & Hp & _);
    [left; reflexivity|reflexivity|].
  exists d. rewrite Ho, Hw, Hr, Hp.
  injection Hd as <-. vm_compute. reflexivity.
Defined.

(** ** The daily trend *)

#[local] Existing Instance olderFirst_dec.









(** ** Forms and error messages *)

Section FormProperties.

Variable parseFloat : string → option Q.
Variable numberToString : Q → string.

Lemma greater_number_false x y : greater_number x y = false ↔ (x <= y)%Q.
Proof.
  unfold greater_number. rewrite negb_false_iff. apply Qle_bool_iff.
Qed.

Lemma validateForm_passes data rules :
  validateForm parseFloat numberToString data rules = None
  ↔ Forall (λ fr, checkField parseFloat numberToString fr.1 fr.2 (data !! fr.1)
                  = None) rules.
Proof.
  induction rules as [|[field rule] rules IH]; simpl.
  - split; [constructor|done].
  - rewrite Forall_cons. simpl.
    destruct (checkField parseFloat numberToString field rule (data !! field));
      [split; [done|intros [? _]; done]|].
    rewrite IH. tauto.
Qed.

(** X18. What passes the form of the quick expense reaches the store as an
    expense of at least 0.01, for the category the form names, dated today:
    the handler calls [createExpense] exactly when the amount is a text
    that parses to a number of at least 0.01 and a category is chosen. *)
Theorem submitQuickExpense_stores now newId data :
  let submitted := submitQuickExpense parseFloat numberToString now newId data in
  ((∃ op, submitted = inr op)
   ↔ ∃ s x c,
       data !! "amount" = Some s ∧ s ≠ "" ∧ parseFloat s = Some x
       ∧ (1 # 100 <= x)%Q
       ∧ data !! "categoryId" = Some c ∧ c ≠ "")
  ∧ (∀ op st,
       submitted = inr op →
       bootstrapped st →
       DB.expenses (db st) !! newId = None →
       ∃ e, outcome (op st) = Ok e
         ∧ DB.expenses (db (final (op st))) !! newId = Some e
         ∧ (1 # 100 <= Expense.amount e)%Q
         ∧ (∃ s, data !! "amount" = Some s
                 ∧ parseFloat s = Some (Expense.amount e))
         ∧ data !! "categoryId" = Some (Expense.categoryId e)
         ∧ Expense.categoryId e ≠ ""
         ∧ Expense.date e = getTodayDate now).
Proof.
  intros submitted. subst submitted.
  assert (validateForm parseFloat numberToString data quickExpenseRules = None
          ↔ ∃ s x c,
              data !! "amount" = Some s ∧ s ≠ "" ∧ parseFloat s = Some x
              ∧ (1 # 100 <= x)%Q
              ∧ data !! "categoryId" = Some c ∧ c ≠ "") as Hpass.
  { unfold quickExpenseRules. cbn [validateForm]. unfold checkField.
    cbn [Rule.required Rule.type Rule.min Rule.max Rule.minLength Rule.maxLength
         andb labelOf Rule.label JS.or_string String.eqb Ascii.eqb Bool.eqb].
    destruct (data !! "amount") as [s|] eqn:Hs.
    2:{ rewrite bool_decide_true by (by left). split; [done|].
        intros (s & x & c & ? & _); done. }
    destruct (decide (s = "")) as [->|Hne].
    { rewrite bool_decide_true by (by right). split; [done|].
      intros (s & x & c & [= <-] & ? & _); done. }
    rewrite bool_decide_false by (intros [?|[= ?]]; done).
    rewrite (bool_decide_true (Some type_number = Some type_number)) by done.
    rewrite (bool_decide_false (Some s = Some "")) by (intros [= ?]; done).
    cbn [negb andb parseFloat_value].
    destruct (parseFloat s) as [x|] eqn:Hx.
    2:{ split; [done|]. intros (s' & x & c & [= <-] & _ & ? & _). congruence. }
    unfold checkRange. cbn [Rule.min Rule.max].
    destruct (greater_number (1 # 100) x) eqn:Hgt.
    { split; [done|]. intros (s' & x' & c & [= <-] & _ & Hx' & Hle & _).
      rewrite Hx in Hx'. injection Hx' as <-.
      apply greater_number_false in Hle. congruence. }
    apply greater_number_false in Hgt.
    rewrite (bool_decide_false (Some type_number = Some type_string)) by done.
    destruct (data !! "categoryId") as [c|] eqn:Hc.
    2:{ rewrite bool_decide_true by (by left). split; [done|].
        intros (? & ? & ? & _ & _ & _ & _ & ? & _); done. }
    destruct (decide (c = "")) as [->|Hcne].
    { rewrite bool_decide_true by (by right). split; [done|].
      intros (? & ? & ? & _ & _ & _ & _ & [= <-] & ?); done. }
    rewrite bool_decide_false by (intros [?|[= ?]]; done).
    split; [intros _|done]. by exists s, x, c. }
  unfold submitQuickExpense. split.
  - rewrite <- Hpass.
    destruct (validateForm parseFloat numberToString data quickExpenseRules).
    + split; [intros [? ?]; done|done].
    + split; [done|eauto].
  - intros op st Hop Hboot Hfresh.
    destruct (validateForm parseFloat numberToString data quickExpenseRules)
      eqn:Hv; [done|].
    destruct (proj1 Hpass eq_refl) as (s & x & c & Hs & Hne & Hx & Hle & Hc & Hcne).
    injection Hop as <-.
    rewrite createExpense_run by done. cbn zeta. cbn [outcome final db].
    eexists. split; [reflexivity|]. simpl.
    split; [apply lookup_insert_eq|].
    rewrite Hs, Hc. cbn [parseFloat_value default]. rewrite Hx.
    cbn [parsed].
    assert (JS.or_number x 0 = x) as ->.
    { unfold JS.or_number. destruct (Qeq_bool x 0) eqn:Hz; [|done].
      apply Qeq_bool_iff in Hz. lra. }
    split; [done|]. split; [by exists s|].
    split; [done|]. split; [done|].
    unfold expenseDateOf. cbn [Expense.d_date]. unfold JS.or_string, getTodayDate.
    by destruct (String.eqb _ "").
Qed.

(** X19. Two edges of [validateForm].  A number field that is not required
    passes when it is empty but is refused as not a number when the form
    has no such field.  A text field that is not required and has a minimum
    length fails with the engine's type error, not with a validation error,
    when the form has no such field. *)
Theorem validateForm_missing_field field rule :
  Rule.required rule = false →
  (Rule.type rule = Some type_number →
     checkField parseFloat numberToString field rule (Some "") = None
     ∧ checkField parseFloat numberToString field rule None
       = Some (ValidationError (labelOf field rule ++ " debe ser un número")))
  ∧ (Rule.type rule = Some type_string →
       ∀ n, Rule.minLength rule = Some (S n) →
         checkField parseFloat numberToString field rule None = Some TypeError).
Proof.
  intros Hreq. split.
  - intros Hty. unfold checkField. rewrite Hreq, Hty. cbn [andb].
    rewrite (bool_decide_true (Some type_number = Some type_number)) by done.
    rewrite (bool_decide_true (Some "" = Some "")) by done.
    rewrite (bool_decide_false (None = Some "")) by done.
    rewrite (bool_decide_false (Some type_number = Some type_string)) by done.
    done.
  - intros Hty n Hmin. unfold checkField. rewrite Hreq, Hty, Hmin. cbn [andb].
    rewrite (bool_decide_false (Some type_string = Some type_number)) by done.
    rewrite (bool_decide_true (Some type_string = Some type_string)) by done.
    done.
Qed.

End FormProperties.

Lemma submitQuickExpense_stores_witness :
  let parse := λ s : string, if String.eqb s "12.50" then Some (25 # 2)%Q else None in
  let data : gmap string string :=
    <["amount" := "12.50"]> (<["categoryId" := "c1"]> ∅) in
  ∃ op e,
    submitQuickExpense parse (λ _, "0.01") Sample.now "e7" data = inr op
    ∧ outcome (op Sample.store) = Ok e
    ∧ (1 # 100 <= Expense.amount e)%Q.
Proof.
  intros parse data.
  destruct (submitQuickExpense_stores parse (λ _, "0.01") Sample.now "e7" data)
    as [_ H].
  assert (validateForm parse (λ _, "0.01") data quickExpenseRules = None) as Hv
    by (vm_compute; reflexivity).
  assert (submitQuickExpense parse (λ _, "0.01") Sample.now "e7" data
          = inr (createExpense Sample.now "e7"
                   (Expense.mkData
                      (default "" (data !! "categoryId"))
                      (Some (trimmed (data !! "description")))
                      (parseFloat_value parse (data !! "amount"))
                      (Some (getTodayDate Sample.now))))) as Hop
    by (unfold submitQuickExpense; rewrite Hv; reflexivity).
  destruct (H _ Sample.store Hop) as (e & He & _ & Hle & _);
    [left; reflexivity|vm_compute; reflexivity|].
  eexists _, e. split; [exact Hop|]. split; [exact He|exact Hle].
Defined.

Lemma validateForm_missing_field_witness :
  checkField (λ _, None) (λ _, "") "note"
    (Rule.mk false (Some type_string) None None (Some 3%nat) None None) None
  = Some TypeError.
Proof.
  destruct (validateForm_missing_field (λ _, None) (λ _, "") "note"
              (Rule.mk false (Some type_string) None None (Some 3%nat) None None))
    as [_ H]; [reflexivity|].
  apply (H eq_refl 2%nat). reflexivity.
Defined.

(** X20. The toast of [handleError] is an error toast and never empty.  It
    shows the message of the error as it is, whatever the name of the
    error, unless the message is missing or empty or contains one of the
    two names IndexedDB reports; the messages the store throws itself are
    shown as they are. *)
Theorem handleError_message error :
  Toast.type (handleError error) = Toast.error
  ∧ Toast.message (handleError error) ≠ ""
  ∧ (∀ m, JsError.message error = Some m → m ≠ "" →
          includes "QuotaExceededError" m = false →
          includes "NotFoundError" m = false →
          Toast.message (handleError error) = m)
  ∧ (∀ name, handleError (JsError.mk name (JsError.message error))
             = handleError error)
  ∧ Forall (λ m, Toast.message
                   (handleError (JsError.mk (JsError.name error) (Some m))) = m)
      ["Gasto fijo no encontrado"; "Categoría no encontrada";
       "Gasto no encontrado"; "Archivo de backup inválido"].
Proof.
  destruct error as [name [m|]]; unfold handleError; cbn [JsError.message JsError.name showToast Toast.type Toast.message].
  - split; [done|]. split; [|split; [|split]].
    + destruct (String.eqb_spec m ""); [done|].
      destruct (includes "QuotaExceededError" m); [done|].
      destruct (includes "NotFoundError" m); [done|].
      by destruct (String.eqb name "ValidationError"), (includes "no encontrad" m).
    + intros m' [= <-] Hne Hq Hn. rewrite Hq, Hn.
      destruct (String.eqb_spec m ""); [done|].
      by destruct (String.eqb name "ValidationError"), (includes "no encontrad" m).
    + intros name'. destruct (String.eqb m ""); [done|].
      destruct (includes "QuotaExceededError" m); [done|].
      destruct (includes "NotFoundError" m); [done|].
      by destruct (String.eqb name "ValidationError"),
                  (String.eqb name' "ValidationError"),
                  (includes "no encontrad" m).
    + repeat constructor; by destruct (String.eqb name "ValidationError").
  - split; [done|]. split; [done|]. split; [done|]. split; [done|].
    repeat constructor; by destruct (String.eqb name "ValidationError").
Qed.

Lemma handleError_message_witness :
  Toast.message (handleError (JsError.mk "Error" (Some "Gasto no encontrado")))
  = "Gasto no encontrado".
Proof.
  destruct (handleError_message (JsError.mk "Error" (Some "Gasto no encontrado")))
    as (_ & _ & H & _).
  apply H; [reflexivity|discriminate|reflexivity|reflexivity].
Defined.
(** ** Listing and deleting archives *)

Lemma deleteArchive_closed target archive d :
  DB.monthlyArchives d !! target = None →
  Archive.id archive = target →
  apply_write (closed target archive d) (DeleteKey MONTHLY_ARCHIVES target)
  = DB.mk (DB.settings d) (DB.fixedExpenses d) (DB.categories d)
      (notOfMonth target (DB.expenses d)) (DB.monthlyArchives d).
Proof.
  intros Hfree Hid. unfold closed. simpl. rewrite Hid.
  by rewrite delete_insert_id.
Qed.

(** X21. [getAllArchives] returns every archive of the store once and
    writes nothing.  When [localeCompare] orders the strings (it is
    transitive and compares any two), the archives are ordered by month
    with the latest first in that order. *)
Theorem getAllArchives_sorted localeCompare now st :
  bootstrapped st →
  let r := getAllArchives localeCompare now st in
  ∃ archives,
    outcome r = Ok archives
    ∧ archives ≡ₚ (map_to_list (DB.monthlyArchives (db st))).*2
    ∧ ((∀ x y z, (localeCompare x y ≤ 0 → localeCompare y z ≤ 0
                  → localeCompare x z ≤ 0)%Z) →
       (∀ x y, (localeCompare x y ≤ 0 ∨ localeCompare y x ≤ 0)%Z) →
       StronglySorted (laterFirst localeCompare) archives)
    ∧ db (final r) = db st
    ∧ committed r = [].
Proof.
  intros Hboot r. subst r. unfold getAllArchives.
  rewrite after_getDB by done.
  eexists. split; [reflexivity|]. cbn [outcome final committed db bind read ret].
  split; [|split; [|done]].
  - by rewrite sort_Permutation, getAllFromIndex_Permutation.
  - intros Htrans Htotal. apply sort_StronglySorted.
    + intros a b c Hab Hbc. unfold laterFirst in *. by eapply Htrans.
    + intros a b. unfold laterFirst.
      destruct (Htotal (Archive.month a) (Archive.month b)); [by right|by left].
Qed.

Lemma getAllArchives_sorted_witness :
  ∃ archives,
    outcome (getAllArchives Collation.byBytes Sample.may Collation.twiceClosed)
    = Ok archives
    ∧ StronglySorted (laterFirst Collation.byBytes) archives
    ∧ Archive.month <$> archives = ["2024-03"; "2024-02"]
    ∧ Archive.month
        <$> getAllFromIndex Archive.closedAt
              (DB.monthlyArchives (db Collation.twiceClosed))
      = ["2024-02"; "2024-03"].
Proof.
  destruct (getAllArchives_sorted Collation.byBytes Sample.may
              Collation.twiceClosed)
    as (archives & Ho & _ & Hsorted & _).
  - right. vm_compute. eexists. reflexivity.
  - exists archives. split; [exact Ho|]. split.
    + apply Hsorted; unfold Collation.byBytes; intros; lia.
    + split; [|vm_compute; reflexivity].
      assert (Ok archives
              = outcome (getAllArchives Collation.byBytes Sample.may
                           Collation.twiceClosed)) as Hrun
        by (symmetry; exact Ho).
      vm_compute in Hrun. injection Hrun as ->. reflexivity.
Defined.

Lemma isMonthArchived_run now month st :
  bootstrapped st →
  isMonthArchived now month st
  = mkRun (Ok (bool_decide (is_Some (DB.monthlyArchives (db st) !! month))))
      (mkStore true (db st)) [].
Proof.
  intros Hboot. unfold isMonthArchived.
  by rewrite (bind_ok _ _ _ _ _ (getArchive_run now month st Hboot)).
Qed.

Lemma closeMonth_final now month st s :
  DB.settings (db st) = Some s →
  DB.monthlyArchives (db st) !! orCurrentMonth now month = None →
  ∃ archive s',
    outcome (closeMonth now month st) = Ok archive
    ∧ Archive.id archive = orCurrentMonth now month
    ∧ final (closeMonth now month st)
      = mkStore true
          (DB.mk (Some s') (DB.fixedExpenses (db st)) (DB.categories (db st))
             (notOfMonth (orCurrentMonth now month) (DB.expenses (db st)))
             (<[orCurrentMonth now month := archive]>
                (DB.monthlyArchives (db st)))).
Proof.
  intros Hs Hfree.
  assert (bootstrapped st) as Hboot by (right; rewrite Hs; eauto).
  pose proof (closeMonth_run now month st Hboot Hfree) as Hrun.
  cbn zeta in Hrun. rewrite Hs in Hrun. rewrite Hrun.
  destruct (String.eqb (orCurrentMonth now month) (getCurrentMonth now));
    eexists _, _; (split; [reflexivity|]); (split; [reflexivity|]);
    cbn [final]; unfold closed; simpl; by rewrite ?Hs.
Qed.

(** X22. Deleting the archive of a closed month does not bring the month
    back: the archive is gone, the month counts as open again, and the
    expenses that closing removed stay removed. *)
Theorem deleteArchive_does_not_restore now now' month st s :
  DB.settings (db st) = Some s →
  DB.monthlyArchives (db st) !! orCurrentMonth now month = None →
  let target := orCurrentMonth now month in
  let st1 := final (closeMonth now month st) in
  let st2 := final (deleteArchive now' target st1) in
  outcome (isMonthArchived now' target st1) = Ok true
  ∧ outcome (deleteArchive now' target st1) = Ok tt
  ∧ outcome (isMonthArchived now' target st2) = Ok false
  ∧ DB.monthlyArchives (db st2) = DB.monthlyArchives (db st)
  ∧ DB.expenses (db st2) = notOfMonth target (DB.expenses (db st))
  ∧ outcome (getExpensesForMonth now' (Some target) st2) = Ok [].
Proof.
  intros Hs Hfree target st1 st2. subst st2 st1 target.
  destruct (closeMonth_final now month st s Hs Hfree)
    as (archive & s' & _ & Hid & ->).
  rewrite deleteArchive_run by apply connected_bootstrapped.
  cbn [outcome final db].
  rewrite !isMonthArchived_run by apply connected_bootstrapped.
  rewrite getExpensesForMonth_run by apply connected_bootstrapped.
  cbn [outcome db apply_write DB.monthlyArchives DB.expenses DB.settings
       DB.fixedExpenses DB.categories].
  rewrite delete_insert_id by done. rewrite lookup_insert_eq, Hfree.
  split; [by rewrite bool_decide_true by eauto|]. split; [done|].
  split; [by rewrite bool_decide_false by (by intros [? ?])|].
  split; [done|]. split; [done|].
  f_equal. unfold orCurrentMonth at 1.
  rewrite or_string_nonempty by apply orCurrentMonth_nonempty.
  apply getAllFromIndexOnly_purged.
Qed.

Lemma deleteArchive_does_not_restore_witness :
  let st2 := final (deleteArchive Sample.may "2024-03" Sample.closedStore) in
  outcome (isMonthArchived Sample.may "2024-03" st2) = Ok false
  ∧ outcome (getExpensesForMonth Sample.may (Some "2024-03") st2) = Ok [].
Proof.
  destruct (deleteArchive_does_not_restore Sample.now Sample.may (Some "2024-03")
              Sample.store Sample.settings)
    as (_ & _ & Ha & _ & _ & He); [reflexivity|vm_compute; reflexivity|].
  split; [exact Ha|exact He].
Defined.
(** ** Backups *)

Lemma putAll_snoc {A} (key : A → string) items x (m : gmap string A) :
  putAll key (items ++ [x]) m = <[key x := x]> (putAll key items m).
Proof. unfold putAll. by rewrite foldl_snoc. Qed.

Lemma putAll_lookup {A} (key : A → string) (items : list A) k x :
  putAll key items ∅ !! k = Some x → x ∈ items ∧ key x = k.
Proof.
  induction items as [|y items IH] using rev_ind.
  - unfold putAll. cbn [foldl]. by rewrite lookup_empty.
  - rewrite putAll_snoc. destruct (decide (key y = k)) as [<-|Hne].
    + rewrite lookup_insert_eq. intros [= <-]. split; [|done].
      apply elem_of_app. right. by left.
    + rewrite lookup_insert_ne by done. intros [Hin Hk]%IH. split; [|done].
      apply elem_of_app. by left.
Qed.

(** X23. An import replaces, it never merges: what the store holds after
    the import of a document with data depends on the document alone, every
    expense it holds is one of the document's, under its own id, and
    importing the same document again changes nothing.  A document without
    data is refused before the store is opened. *)
Theorem importData_replaces now now' backup st st' :
  (∀ data, backup ≫= Backup.data = Some data →
     let st1 := final (importData now backup st) in
     outcome (importData now backup st) = Ok tt
     ∧ db st1 = db (final (importData now' backup st'))
     ∧ (∀ k e, DB.expenses (db st1) !! k = Some e →
               e ∈ default [] (Backup.expenses data) ∧ Expense.id e = k)
     ∧ db (final (importData now' backup st1)) = db st1)
  ∧ (backup ≫= Backup.data = None →
       importData now backup st = mkRun (Thrown InvalidBackupError) st []).
Proof.
  split.
  - intros data Hdata st1. subst st1.
    destruct (importData_run now backup data st Hdata) as (log & Hrun & _).
    rewrite !(importData_final _ _ data) by done. rewrite Hrun.
    cbn [outcome db]. split; [done|]. split; [done|]. split; [|done].
    intros k e. apply putAll_lookup.
  - intros Hnone. unfold importData. by rewrite Hnone.
Qed.

Lemma importData_replaces_witness :
  db (final (importData Sample.now (Some Sample.bare) Sample.store))
  = db (final (importData Sample.may (Some Sample.bare) (mkStore false emptyDB))).
Proof.
  destruct (importData_replaces Sample.now Sample.may (Some Sample.bare)
              Sample.store (mkStore false emptyDB)) as [H _].
  destruct (H (Backup.mkData None (Some [Sample.rent]) (Some [Sample.food])
                 (Some [Sample.market]) None) eq_refl) as (_ & Hdb & _).
  exact Hdb.
Defined.

Lemma getAllExpenses_run now st :
  bootstrapped st →
  getAllExpenses now st
  = mkRun (Ok (getAll (DB.expenses (db st)))) (mkStore true (db st)) [].
Proof. intros Hboot. unfold getAllExpenses. by rewrite after_getDB. Qed.

Lemma elem_of_getAll {A} (m : gmap string A) x :
  x ∈ getAll m ↔ ∃ k, m !! k = Some x.
Proof.
  rewrite getAll_Permutation, list_elem_of_fmap. split.
  - intros ([k y] & -> & Hin). exists k. by apply elem_of_map_to_list.
  - intros [k Hk]. exists (k, x). split; [done|]. by apply elem_of_map_to_list.
Qed.

(** X24. A backup covers every month: the document holds every expense and
    every archive of the store, whatever their month, the same expenses
    [getAllExpenses] returns, and exporting writes nothing. *)
Theorem exportData_covers_all_months now st :
  bootstrapped st →
  let r := exportData now st in
  ∃ document data,
    outcome r = Ok document
    ∧ Backup.version document = 3%N
    ∧ Backup.data document = Some data
    ∧ Backup.settings data = Settings.withId "main" <$> DB.settings (db st)
    ∧ (∀ e, e ∈ default [] (Backup.expenses data)
            ↔ ∃ k, DB.expenses (db st) !! k = Some e)
    ∧ (∀ a, a ∈ default [] (Backup.monthlyArchives data)
            ↔ ∃ k, DB.monthlyArchives (db st) !! k = Some a)
    ∧ outcome (getAllExpenses now st) = Ok (default [] (Backup.expenses data))
    ∧ (JS.sum Expense.amount (default [] (Backup.expenses data))
       == sumOver Expense.amount (DB.expenses (db st)))%Q
    ∧ db (final r) = db st
    ∧ committed r = [].
Proof.
  intros Hboot r. subst r. rewrite exportData_run by done. cbn zeta.
  rewrite getAllExpenses_run by done.
  eexists _, _. split; [reflexivity|]. split; [done|]. split; [reflexivity|].
  cbn [Backup.settings Backup.expenses Backup.monthlyArchives default outcome
       final committed db].
  split; [done|]. split; [apply elem_of_getAll|]. split; [apply elem_of_getAll|].
  split; [done|]. split; [|done].
  unfold sumOver. apply sum_Permutation, getAll_Permutation.
Qed.

Lemma exportData_covers_all_months_witness :
  ∃ document data,
    outcome (exportData Sample.now Sample.store) = Ok document
    ∧ Backup.data document = Some data
    ∧ Sample.february ∈ default [] (Backup.expenses data).
Proof.
  destruct (exportData_covers_all_months Sample.now Sample.store)
    as (document & data & Ho & _ & Hd & _ & He & _); [left; reflexivity|].
  exists document, data. split; [exact Ho|]. split; [exact Hd|].
  apply He. exists "e0". vm_compute. reflexivity.
Defined.
(** ** Where an expense is listed *)

Lemma updateExpense_run now id updates st c :
  bootstrapped st →
  DB.expenses (db st) !! id = Some c →
  let month :=
    match Expense.p_date updates with
    | Some d => if String.eqb d "" then Expense.month c else monthOfDate d
    | None => Expense.month c
    end in
  let updated :=
    Expense.mk
      (default (Expense.id c) (Expense.p_id updates))
      (default (Expense.categoryId c) (Expense.p_categoryId updates))
      (default (Expense.description c) (Expense.p_description updates))
      (default (Expense.amount c) (Expense.p_amount updates))
      (default (Expense.date c) (Expense.p_date updates))
      month
      (default (Expense.createdAt c) (Expense.p_createdAt updates))
      (toISOString now) in
  updateExpense now id updates st
  = mkRun (Ok updated) (mkStore true (apply_write (db st) (PutExpense updated)))
      [apply_write (db st) (PutExpense updated)].
Proof.
  intros Hboot Hc month updated. unfold updateExpense.
  rewrite read_then by done. by rewrite Hc.
Qed.

(** X25. Changing the date of an expense moves it: the record keeps its
    key and every field but the date, the month and the time of update, no
    record is added or lost, and from then on the expense is listed under
    the month of its new date and under no other month. *)
Theorem updateExpense_moves_month now now' id date st c :
  bootstrapped st →
  keyPath_ok (db st) →
  DB.expenses (db st) !! id = Some c →
  date ≠ "" →
  let r := updateExpense now id
             (Expense.mkPatch None None None None (Some date) None None None) st in
  ∃ e,
    outcome r = Ok e
    ∧ DB.expenses (db (final r)) = <[id := e]> (DB.expenses (db st))
    ∧ size (DB.expenses (db (final r))) = size (DB.expenses (db st))
    ∧ Expense.date e = date
    ∧ Expense.month e = monthOfDate date
    ∧ Expense.updatedAt e = toISOString now
    ∧ (Expense.categoryId e, Expense.description e, Expense.amount e,
       Expense.createdAt e)
      = (Expense.categoryId c, Expense.description c, Expense.amount c,
         Expense.createdAt c)
    ∧ (∀ month listing,
         outcome (getExpensesForMonth now' month (final r)) = Ok listing →
         (e ∈ listing ↔ orCurrentMonth now' month = monthOfDate date)
         ∧ (∀ x, x ∈ listing → Expense.id x = id → x = e)).
Proof.
  intros Hboot (_ & _ & Hkey & _) Hc Hdate r. subst r.
  rewrite (updateExpense_run now id _ st c Hboot Hc). cbn zeta.
  cbn [Expense.p_id Expense.p_categoryId Expense.p_description Expense.p_amount
       Expense.p_date Expense.p_createdAt default outcome final db].
  apply String.eqb_neq in Hdate. rewrite Hdate.
  pose proof (Hkey id c Hc) as Hid. rewrite Hid.
  eexists. split; [reflexivity|].
  cbn [apply_write DB.expenses DB.settings DB.fixedExpenses DB.categories
       DB.monthlyArchives Expense.id Expense.date Expense.month
       Expense.updatedAt Expense.categoryId Expense.description Expense.amount
       Expense.createdAt].
  split; [done|]. split.
  { rewrite map_size_insert_Some; [done|]. by rewrite Hc. }
  split; [done|]. split; [done|]. split; [done|]. split; [done|].
  intros month listing.
  rewrite getExpensesForMonth_run by apply connected_bootstrapped.
  cbn [outcome db DB.expenses]. intros [= <-]. split.
  - rewrite elem_of_month_listing. cbn [Expense.month]. split.
    + by intros (k & _ & <-).
    + intros <-. exists id. split; [apply lookup_insert_eq|done].
  - intros x (k & Hk & _)%elem_of_month_listing Hx.
    destruct (decide (k = id)) as [->|Hne].
    + rewrite lookup_insert_eq in Hk. by injection Hk.
    + rewrite lookup_insert_ne in Hk by done.
      exfalso. apply Hne. rewrite <- Hx. symmetry. by apply Hkey.
Qed.

Lemma updateExpense_moves_month_witness :
  ∃ e,
    outcome (updateExpense Sample.now "e1"
               (Expense.mkPatch None None None None (Some "2024-04-02") None
                  None None) Sample.store) = Ok e
    ∧ Expense.month e = "2024-04".
Proof.
  destruct (updateExpense_moves_month Sample.now Sample.may "e1" "2024-04-02"
              Sample.store Sample.market)
    as (e & Ho & _ & _ & _ & Hm & _).
  - left. reflexivity.
  - apply (bool_decide_unpack (keyPath_ok (db Sample.store))). vm_compute. exact I.
  - vm_compute. reflexivity.
  - discriminate.
  - exists e. split; [exact Ho|]. rewrite Hm. vm_compute. reflexivity.
Defined.

(** X26. An expense created without a date is dated by the UTC day of the
    clock and filed under the month of that day, while the listing of the
    current month goes by the local month of the clock: the new expense is
    in that listing exactly when the two months are the same. *)
Theorem createExpense_default_date now newId data st :
  bootstrapped st →
  DB.expenses (db st) !! newId = None →
  Expense.d_date data = None ∨ Expense.d_date data = Some "" →
  let r := createExpense now newId data st in
  ∃ e listing,
    outcome r = Ok e
    ∧ Expense.date e = getTodayDate now
    ∧ Expense.month e = monthOfDate (getTodayDate now)
    ∧ outcome (getExpensesForMonth now None (final r)) = Ok listing
    ∧ (e ∈ listing ↔ monthOfDate (getTodayDate now) = getCurrentMonth now).
Proof.
  intros Hboot Hfresh Hdate r. subst r.
  rewrite (createExpense_run now newId data st Hboot Hfresh). cbn zeta.
  cbn [outcome final].
  rewrite getExpensesForMonth_run by apply connected_bootstrapped.
  cbn [outcome db].
  assert (expenseDateOf now data = getTodayDate now) as ->.
  { unfold expenseDateOf, getTodayDate. by destruct Hdate as [-> | ->]. }
  eexists _, _. split; [reflexivity|]. split; [done|]. split; [done|].
  split; [reflexivity|].
  rewrite elem_of_month_listing. simpl. split.
  - by intros (k & _ & <-).
  - intros <-. exists newId. split; [apply lookup_insert_eq|done].
Qed.

Lemma createExpense_default_date_witness :
  let late := mkClock "2024-04-01T02:00:00.000Z" 2024 2 in
  ∃ e listing,
    outcome (createExpense late "e7" (Expense.mkData "c1" None (Some 40%Q) None)
               Sample.store) = Ok e
    ∧ outcome (getExpensesForMonth late None
                 (final (createExpense late "e7"
                           (Expense.mkData "c1" None (Some 40%Q) None)
                           Sample.store))) = Ok listing
    ∧ getCurrentMonth late = "2024-03"
    ∧ Expense.month e = "2024-04"
    ∧ e ∉ listing.
Proof.
  intros late.
  destruct (createExpense_default_date late "e7"
              (Expense.mkData "c1" None (Some 40%Q) None) Sample.store)
    as (e & listing & Ho & _ & Hm & Hl & Hin);
    [left; reflexivity|vm_compute; reflexivity|left; reflexivity|].
  exists e, listing. split; [exact Ho|]. split; [exact Hl|].
  split; [vm_compute; reflexivity|].
  split; [rewrite Hm; vm_compute; reflexivity|].
  intros He. apply Hin in He. vm_compute in He. discriminate He.
Defined.
(** ** The spending summary of the store *)

Lemma sum_snoc {A} (f : A → Q) (xs : list A) x :
  JS.sum f (xs ++ [x]) = (JS.sum f xs + f x)%Q.
Proof. unfold JS.sum. by rewrite foldl_snoc. Qed.

Lemma foldl_insert_fmap {A B} (key : A → string) (h : A → B) (l : list A)
  (acc : gmap string A) :
  foldl (λ acc x, <[key x := h x]> acc) (h <$> acc) l = h <$> putAll key l acc.
Proof.
  revert acc. induction l as [|x l IH]; intros acc; [done|].
  cbn [foldl]. rewrite <- fmap_insert. apply IH.
Qed.

Lemma rawPercentage_zero budgetLimit : (rawPercentage 0 budgetLimit == 0)%Q.
Proof.
  unfold rawPercentage. destruct (positive_number budgetLimit); [|reflexivity].
  unfold Qdiv. ring.
Qed.

Lemma summary_fold (categories : gmap string Category.t)
  (expenses : list Expense.t) :
  (∀ k x, categories !! k = Some x → Category.id x = k) →
  let summary :=
    foldl (λ acc expense,
             match acc !! Expense.categoryId expense with
             | Some catData =>
                 let cat := Spending.category catData in
                 let spent := (Spending.spent catData + Expense.amount expense)%Q in
                 <[Expense.categoryId expense :=
                     Spending.mk cat spent
                       (Category.budgetLimit cat - spent)%Q
                       (rawPercentage spent (Category.budgetLimit cat))
                       (Spending.expenses catData ++ [expense])]> acc
             | None => acc
             end)
          ((λ cat, Spending.mk cat 0%Q (Category.budgetLimit cat) 0%Q [])
             <$> categories)
          expenses in
  ∀ k, match categories !! k with
       | Some cat => ∃ s, summary !! k = Some s ∧ summarised cat expenses s
       | None => summary !! k = None
       end.
Proof.
  intros Hkey. induction expenses as [|e expenses IH] using rev_ind;
    cbn zeta in *; intros k.
  - cbn [foldl]. rewrite lookup_fmap.
    destruct (categories !! k) as [cat|] eqn:Hcat; [|done].
    eexists. split; [reflexivity|]. repeat split; cbn.
    + change (JS.sum Expense.amount []) with 0%Q. ring.
    + symmetry. apply rawPercentage_zero.
  - rewrite foldl_snoc.
    set (acc := foldl _ _ expenses) in *.
    destruct (decide (Expense.categoryId e = k)) as [<-|Hne].
    + specialize (IH (Expense.categoryId e)).
      destruct (categories !! Expense.categoryId e) as [cat|] eqn:Hcat.
      * destruct IH as (s & Hs & Hcat' & Hexp & Hspent & Hrem & Hpct).
        rewrite Hs. cbn zeta. rewrite lookup_insert_eq.
        eexists. split; [reflexivity|].
        pose proof (Hkey _ _ Hcat) as Hid.
        unfold summarised.
        cbn [Spending.category Spending.expenses Spending.spent
             Spending.remaining Spending.percentage].
        rewrite Hcat'. split; [done|]. split.
        { rewrite filter_app, filter_cons, decide_True, filter_nil by done.
          by rewrite Hexp. }
        split; [by rewrite sum_snoc, Hspent|]. split; reflexivity.
      * by rewrite IH.
    + specialize (IH k).
      assert (match acc !! Expense.categoryId e with
              | Some catData =>
                  <[Expense.categoryId e :=
                      Spending.mk (Spending.category catData)
                        (Spending.spent catData + Expense.amount e)%Q
                        (Category.budgetLimit (Spending.category catData)
                         - (Spending.spent catData + Expense.amount e))%Q
                        (rawPercentage
                           (Spending.spent catData + Expense.amount e)
                           (Category.budgetLimit (Spending.category catData)))
                        (Spending.expenses catData ++ [e])]> acc
              | None => acc
              end !! k = acc !! k) as ->.
      { destruct (acc !! Expense.categoryId e); [|done].
        by rewrite lookup_insert_ne. }
      destruct (categories !! k) as [cat|] eqn:Hcat; [|done].
      destruct IH as (s & Hs & Hcat' & Hexp & Hrest).
      exists s. split; [done|]. split; [done|]. split; [|done].
      rewrite filter_app, filter_cons, decide_False, filter_nil, app_nil_r; [done|].
      by rewrite (Hkey _ _ Hcat).
Qed.

(** Without inherited names in the way, counting an expense updates the
    entry of its category, if there is one. *)
Lemma countExpense_fold (acc : gmap string Spending.t) expenses :
  acc !! "__proto__" = None →
  Forall (λ e, JS.inherited (Expense.categoryId e) = false) expenses →
  foldl (λ acc expense,
           match acc with
           | Ok categorySpending => countExpense categorySpending expense
           | Thrown e => Thrown e
           end)
        (Ok acc) expenses
  = Ok (foldl (λ acc expense,
                 match acc !! Expense.categoryId expense with
                 | Some catData =>
                     let cat := Spending.category catData in
                     let spent :=
                       (Spending.spent catData + Expense.amount expense)%Q in
                     <[Expense.categoryId expense :=
                         Spending.mk cat spent
                           (Category.budgetLimit cat - spent)%Q
                           (rawPercentage spent (Category.budgetLimit cat))
                           (Spending.expenses catData ++ [expense])]> acc
                 | None => acc
                 end)
              acc expenses).
Proof.
  revert acc. induction expenses as [|e es IH]; intros acc Hproto Hown; [done|].
  apply Forall_cons in Hown as [He Hes]. cbn [foldl].
  unfold countExpense at 2. unfold found_on_prototype. rewrite He, Hproto.
  destruct (acc !! Expense.categoryId e) as [catData|] eqn:Hacc; cbn zeta.
  - apply IH; [|done]. rewrite lookup_insert_ne; [done|].
    intros Heq. by rewrite Heq in He.
  - by apply IH.
Qed.

(** Counting keeps the keys of the summary. *)
Lemma countExpense_keys (acc acc' : gmap string Spending.t) expense k :
  countExpense acc expense = Ok acc' → acc !! k = None → acc' !! k = None.
Proof.
  unfold countExpense.
  destruct (acc !! Expense.categoryId expense) as [catData|] eqn:Hacc.
  - intros [= <-] Hk. rewrite lookup_insert_ne; [done|]. congruence.
  - destruct (found_on_prototype acc (Expense.categoryId expense));
      [done|]. by intros [= <-].
Qed.

Lemma countExpense_thrown (acc : gmap string Spending.t) expense e :
  countExpense acc expense = Thrown e → e = JsTypeError.
Proof.
  unfold countExpense.
  destruct (acc !! Expense.categoryId expense); [done|].
  destruct (found_on_prototype acc (Expense.categoryId expense)); [|done].
  by intros [= <-].
Qed.

(** An expense under an inherited name that is the id of no category makes
    the summary throw. *)
Lemma summary_thrown (acc : gmap string Spending.t) expenses e :
  e ∈ expenses →
  JS.inherited (Expense.categoryId e) = true →
  acc !! Expense.categoryId e = None →
  foldl (λ acc expense,
           match acc with
           | Ok categorySpending => countExpense categorySpending expense
           | Thrown e => Thrown e
           end)
        (Ok acc) expenses
  = Thrown JsTypeError.
Proof.
  intros Hin He. revert acc Hin.
  induction expenses as [|x xs IH]; intros acc Hin Hacc.
  - by apply not_elem_of_nil in Hin.
  - cbn [foldl]. destruct (countExpense acc x) as [acc'|err] eqn:Hx.
    + apply IH; [|by eapply countExpense_keys].
      apply elem_of_cons in Hin as [->|Hin]; [|done].
      unfold countExpense in Hx. rewrite Hacc in Hx.
      unfold found_on_prototype in Hx. by rewrite He in Hx.
    + apply countExpense_thrown in Hx as ->. by apply foldl_thrown.
Qed.

Lemma summary_initial (categories : list Category.t) :
  foldl (λ (acc : gmap string Spending.t) cat,
           <[Category.id cat :=
               Spending.mk cat 0%Q (Category.budgetLimit cat) 0%Q []]> acc)
        ∅ categories
  = (λ cat, Spending.mk cat 0%Q (Category.budgetLimit cat) 0%Q [])
      <$> putAll Category.id categories ∅.
Proof.
  pose proof (foldl_insert_fmap Category.id
                (λ cat, Spending.mk cat 0%Q (Category.budgetLimit cat) 0%Q [])
                categories ∅) as Hinit.
  by rewrite fmap_empty in Hinit.
Qed.

Lemma getMonthlySpendingSummary_run now month st :
  bootstrapped st →
  keyPath_ok (db st) →
  own_names (orCurrentMonth now month) (db st) →
  ∃ summary,
    getMonthlySpendingSummary now month st
    = mkRun (Ok summary) (mkStore true (db st)) []
    ∧ ∀ k, match DB.categories (db st) !! k with
           | Some cat =>
               ∃ s, summary !! k = Some s
                 ∧ summarised cat
                     (getAllFromIndexOnly Expense.month
                        (orCurrentMonth now month) (DB.expenses (db st))) s
           | None => summary !! k = None
           end.
Proof.
  intros Hboot (_ & Hkey & _) Hown. unfold getMonthlySpendingSummary.
  pose proof Hown as [Hcats Hexps]%own_names_listed.
  rewrite (bind_ok _ _ _ _ _ (getAllCategories_run now st Hboot)).
  rewrite (bind_ok _ _ _ _ _
             (getExpensesForMonth_run now month _ (connected_bootstrapped (db st)))).
  cbn [db]. rewrite summary_initial, putAll_getAllFromIndex by done.
  rewrite countExpense_fold; [|rewrite lookup_fmap|done].
  - eexists. split; [reflexivity|]. by apply summary_fold.
  - destruct (DB.categories (db st) !! "__proto__") as [cat|] eqn:Hcat; [|done].
    destruct Hown as [Hnames _]. pose proof (Hnames _ _ Hcat) as Hname.
    cbn in Hname. by rewrite (Hkey _ _ Hcat) in Hname.
Qed.

Lemma getMonthlySpendingSummary_thrown now month st k e :
  bootstrapped st →
  keyPath_ok (db st) →
  DB.expenses (db st) !! k = Some e →
  Expense.month e = orCurrentMonth now month →
  JS.inherited (Expense.categoryId e) = true →
  DB.categories (db st) !! Expense.categoryId e = None →
  getMonthlySpendingSummary now month st
  = mkRun (Thrown JsTypeError) (mkStore true (db st)) [].
Proof.
  intros Hboot (_ & Hkey & _) Hk Hmonth He Hcat. unfold getMonthlySpendingSummary.
  rewrite (bind_ok _ _ _ _ _ (getAllCategories_run now st Hboot)).
  rewrite (bind_ok _ _ _ _ _
             (getExpensesForMonth_run now month _ (connected_bootstrapped (db st)))).
  cbn [db]. rewrite summary_initial, putAll_getAllFromIndex by done.
  rewrite (summary_thrown _ _ e); [done| |done|by rewrite lookup_fmap, Hcat].
  apply elem_of_month_listing. by exists k.
Qed.

(** X27. The spending summary of the store, for the current month.  When no
    category id and no [categoryId] of an expense of the month is an
    inherited name, it has an entry for exactly the categories of the
    store, so an expense for another id counts nowhere, and it agrees with
    the list of the aggregation service on what was spent and on the number
    of expenses of every category; its remainder is the limit minus what
    was spent and its percentage the plain ratio, not clamped.  An expense of
    the month under an inherited name that is the id of no category makes
    the summary throw. *)
Theorem getMonthlySpendingSummary_agrees now st :
  bootstrapped st →
  keyPath_ok (db st) →
  (own_names (getCurrentMonth now) (db st) →
   ∃ summary cs,
     outcome (getMonthlySpendingSummary now None st) = Ok summary
     ∧ outcome (getAllCategoriesWithSpending now st) = Ok cs
     ∧ (∀ k, is_Some (summary !! k) ↔ is_Some (DB.categories (db st) !! k))
     ∧ Forall (λ c,
         ∃ s, summary !! Category.id (CategorySpending.category c) = Some s
           ∧ Spending.category s = CategorySpending.category c
           ∧ Spending.spent s = CategorySpending.spent c
           ∧ length (Spending.expenses s) = CategorySpending.expenseCount c
           ∧ (Spending.remaining s
              == Category.budgetLimit (CategorySpending.category c)
                 - CategorySpending.spent c)%Q
           ∧ (Spending.percentage s
              == rawPercentage (CategorySpending.spent c)
                   (Category.budgetLimit (CategorySpending.category c)))%Q) cs)
  ∧ (∀ k e,
       DB.expenses (db st) !! k = Some e →
       Expense.month e = getCurrentMonth now →
       JS.inherited (Expense.categoryId e) = true →
       DB.categories (db st) !! Expense.categoryId e = None →
       outcome (getMonthlySpendingSummary now None st) = Thrown JsTypeError).
Proof.
  intros Hboot Hok. split.
  - intros Hown.
    destruct (getMonthlySpendingSummary_run now None st Hboot Hok Hown)
      as (summary & -> & Hsum).
    destruct Hok as (_ & Hkey & _).
    rewrite getAllCategoriesWithSpending_run by done. cbn [outcome].
    eexists _, _. split; [reflexivity|]. split; [reflexivity|]. split.
    + intros k. specialize (Hsum k).
      destruct (DB.categories (db st) !! k) as [cat|].
      * destruct Hsum as (s & -> & _). split; eauto.
      * rewrite Hsum. done.
    + apply Forall_fmap, Forall_forall. intros c Hc.
      apply elem_of_listing in Hc as [k Hk].
      pose proof (Hkey k c Hk) as Hid.
      specialize (Hsum k). rewrite Hk in Hsum.
      destruct Hsum as (s & Hs & Hcat & Hexp & Hspent & Hrem & Hpct).
      change (orCurrentMonth now None) with (getCurrentMonth now) in Hexp.
      unfold compose, spending_of.
      cbn [CategorySpending.category CategorySpending.spent
           CategorySpending.remaining CategorySpending.expenseCount].
      rewrite Hid. rewrite Hid in Hexp.
      exists s. split; [done|]. split; [done|].
      rewrite Hspent, Hexp in *. split; [done|]. split; [done|].
      split; [exact Hrem|exact Hpct].
  - intros k e Hk Hmonth He Hcat.
    by rewrite (getMonthlySpendingSummary_thrown now None st k e).
Qed.

Lemma getMonthlySpendingSummary_agrees_witness :
  (∃ summary,
     outcome (getMonthlySpendingSummary Sample.now None Stray.store) = Ok summary
     ∧ (is_Some (summary !! "c9")
        ↔ is_Some (DB.categories (db Stray.store) !! "c9")))
  ∧ outcome (getMonthlySpendingSummary Sample.now None Stray.misfiled)
    = Thrown JsTypeError.
Proof.
  split.
  - destruct (getMonthlySpendingSummary_agrees Sample.now Stray.store)
      as [Hagrees _].
    + left. reflexivity.
    + apply (bool_decide_unpack (keyPath_ok (db Stray.store))).
      vm_compute. exact I.
    + destruct Hagrees as (summary & cs & Ho & _ & Hdom & _).
      * apply (bool_decide_unpack (own_names "2024-03" (db Stray.store))).
        vm_compute. exact I.
      * exists summary. split; [exact Ho|apply Hdom].
  - destruct (getMonthlySpendingSummary_agrees Sample.now Stray.misfiled)
      as [_ Hthrown].
    + left. reflexivity.
    + apply (bool_decide_unpack (keyPath_ok (db Stray.misfiled))).
      vm_compute. exact I.
    + apply (Hthrown "e8" Stray.inherited_name); reflexivity.
Defined.

(** ** The overview *)

(** X28. The figures of the overview hang together: the totals of the
    fixed expenses and of the budgets are what [getTotalFixedExpenses] and
    [getTotalBudgeted] return, the total spent is the sum of the expenses
    of the month in the order of the listing, and each derived figure is
    the difference the overview computes from the others.  What is really
    available is what is available for budgeting less what was spent.  The
    overview writes nothing. *)
Theorem overview_identities now st :
  bootstrapped st →
  let r := getBudgetOverview now st in
  ∃ o expenses,
    outcome r = Ok o
    ∧ outcome (getTotalFixedExpenses now st) = Ok (Overview.totalFixedExpenses o)
    ∧ outcome (getTotalBudgeted now st) = Ok (Overview.totalBudgeted o)
    ∧ outcome (getExpensesForMonth now None st) = Ok expenses
    ∧ Overview.totalSpent o = JS.sum Expense.amount expenses
    ∧ Overview.availableForBudget o
      = (Overview.monthlyIncome o - Overview.totalFixedExpenses o)%Q
    ∧ Overview.remainingBudget o
      = (Overview.totalBudgeted o - Overview.totalSpent o)%Q
    ∧ Overview.unassigned o
      = (Overview.availableForBudget o - Overview.totalBudgeted o)%Q
    ∧ Overview.realAvailable o
      = (Overview.availableForBudget o - Overview.totalSpent o)%Q
    ∧ db (final r) = db st
    ∧ committed r = [].
Proof.
  intros Hboot r. subst r.
  destruct (getBudgetOverview_run now st Hboot)
    as (o & -> & Hi & Hf & Hb & Hs & Ha & Hr & Hu & Hreal & _).
  exists o. eexists. split; [done|].
  unfold getTotalFixedExpenses, getTotalBudgeted.
  rewrite (bind_ok _ _ _ _ _ (getAllFixedExpenses_run now st Hboot)).
  rewrite (bind_ok _ _ _ _ _ (getAllCategories_run now st Hboot)).
  rewrite (getExpensesForMonth_run now None st Hboot).
  cbn [outcome ret final committed db].
  split; [by rewrite Hf|]. split; [by rewrite Hb|].
  split; [reflexivity|]. split; [exact Hs|].
  split; [exact Ha|]. split; [exact Hr|]. split; [exact Hu|].
  split; [by rewrite Hreal, Ha|done].
Qed.

Lemma overview_identities_witness :
  ∃ o,
    outcome (getBudgetOverview Sample.now Sample.store) = Ok o
    ∧ Overview.realAvailable o
      = (Overview.availableForBudget o - Overview.totalSpent o)%Q
    ∧ Overview.totalSpent o = 800%Q.
Proof.
  destruct (overview_identities Sample.now Sample.store)
    as (o & expenses & Ho & _ & _ & He & Hs & _ & _ & _ & Hreal & _);
    [left; reflexivity|].
  exists o. split; [exact Ho|]. split; [exact Hreal|].
  rewrite Hs. vm_compute in He. injection He as <-. reflexivity.
Defined.

(** X29. Closing the current month archives what the overview showed: the
    summary of the archive carries the income, the three totals and the
    currency of the overview taken just before, and what it records as
    saved is what the overview showed as really available.  The overview
    taken after shows nothing spent. *)
Theorem closeMonth_archives_overview now st s :
  DB.settings (db st) = Some s →
  DB.monthlyArchives (db st) !! getCurrentMonth now = None →
  ∃ o archive o',
    outcome (getBudgetOverview now st) = Ok o
    ∧ outcome (closeMonth now None st) = Ok archive
    ∧ outcome (getBudgetOverview now (final (closeMonth now None st))) = Ok o'
    ∧ Archive.monthlyIncome (Archive.summary archive) = Overview.monthlyIncome o
    ∧ Archive.totalFixedExpenses (Archive.summary archive)
      = Overview.totalFixedExpenses o
    ∧ Archive.totalBudgeted (Archive.summary archive) = Overview.totalBudgeted o
    ∧ Archive.totalSpent (Archive.summary archive) = Overview.totalSpent o
    ∧ Archive.totalSaved (Archive.summary archive) = Overview.realAvailable o
    ∧ Archive.currency (Archive.summary archive) = Overview.currency o
    ∧ Overview.totalSpent o' = 0%Q
    ∧ Overview.totalFixedExpenses o' = Overview.totalFixedExpenses o
    ∧ Overview.totalBudgeted o' = Overview.totalBudgeted o.
Proof.
  intros Hs Hfree.
  assert (bootstrapped st) as Hboot by (right; rewrite Hs; eauto).
  destruct (getBudgetOverview_run now st Hboot)
    as (o & Ho & Hi & Hf & Hb & Hsp & Ha & Hr & Hu & Hreal & Hc & _).
  pose proof (closeMonth_run now None st Hboot Hfree) as Hrun.
  cbn zeta in Hrun. rewrite Hs in Hrun.
  change (orCurrentMonth now None) with (getCurrentMonth now) in Hrun.
  rewrite String.eqb_refl in Hrun.
  set (archive := archiveRecord now (getCurrentMonth now) (Some s) _ _ _) in Hrun.
  rewrite Hrun. cbn [outcome final].
  match goal with
  | |- context [getBudgetOverview now (mkStore true ?d)] =>
      destruct (getBudgetOverview_run now (mkStore true d)
                  (connected_bootstrapped d))
        as (o' & Ho' & _ & Hf' & Hb' & Hsp' & _)
  end.
  exists o, archive, o'. rewrite Ho, Ho'. cbn [outcome].
  split; [done|]. split; [done|]. split; [done|].
  rewrite Hs in Hi, Hc.
  subst archive. unfold archiveRecord.
  cbn [Archive.summary Archive.monthlyIncome Archive.totalFixedExpenses
       Archive.totalBudgeted Archive.totalSpent Archive.totalSaved
       Archive.currency].
  split; [by rewrite Hi|]. split; [by rewrite Hf|]. split; [by rewrite Hb|].
  split; [by rewrite Hsp|].
  split; [by rewrite Hreal, Hi, Hf, Hsp|]. split; [by rewrite Hc|].
  split.
  - rewrite Hsp'. cbn [db apply_write closed DB.expenses].
    unfold notOfMonth. by rewrite getAllFromIndexOnly_purged.
  - by rewrite Hf', Hb', Hf, Hb.
Qed.

Lemma closeMonth_archives_overview_witness :
  ∃ o archive,
    outcome (getBudgetOverview Sample.now Sample.store) = Ok o
    ∧ outcome (closeMonth Sample.now None Sample.store) = Ok archive
    ∧ Archive.totalSaved (Archive.summary archive) = Overview.realAvailable o.
Proof.
  destruct (closeMonth_archives_overview Sample.now Sample.store Sample.settings)
    as (o & archive & o' & Ho & Ha & _ & _ & _ & _ & _ & Hsaved & _);
    [reflexivity|vm_compute; reflexivity|].
  exists o, archive. split; [exact Ho|]. split; [exact Ha|exact Hsaved].
Defined.

(** ** The key of a record *)

(** X30. Every record sits under its own id, and no call of the store or
    of the aggregation service breaks that: not an import of an arbitrary
    document, and not an update whose patch changes the id, which writes a
    second record under the new id and leaves the old one. *)
Theorem keyPath_invariant call now st :
  keyPath_ok (db st) →
  keyPath_ok (db (perform call now st))
  ∧ (∀ id id' c,
       call = CallUpdateCategory id
                (Category.mkPatch (Some id') None None None None None None) →
       bootstrapped st →
       DB.categories (db st) !! id = Some c →
       id' ≠ id →
       DB.categories (db (perform call now st)) !! id = Some c
       ∧ ∃ c', DB.categories (db (perform call now st)) !! id' = Some c'
           ∧ Category.id c' = id'
           ∧ Category.name c' = Category.name c).
Proof.
  intros Hok. split; [by apply perform_keyPath_ok|].
  intros id id' c -> Hboot Hc Hne. unfold perform, updateCategory.
  rewrite read_then by done. rewrite Hc.
  cbn [Category.p_id Category.p_name default].
  match goal with
  | |- context [transaction ?body] =>
      rewrite (bind_step (transaction body) _ _ tt _ _
                 (transaction_run body _ _ eq_refl))
  end.
  cbn [final ret db commit foldl apply_write DB.categories Category.id].
  rewrite lookup_insert_ne by done. rewrite lookup_insert_eq.
  split; [done|]. eexists. split; [reflexivity|]. done.
Qed.

Lemma keyPath_invariant_witness :
  let call :=
    CallUpdateCategory "c1"
      (Category.mkPatch (Some "c8") None None None None None None) in
  keyPath_ok (db (perform call Sample.now Sample.store))
  ∧ DB.categories (db (perform call Sample.now Sample.store)) !! "c1"
    = Some Sample.food
  ∧ is_Some (DB.categories (db (perform call Sample.now Sample.store)) !! "c8").
Proof.
  intros call.
  destruct (keyPath_invariant call Sample.now Sample.store) as [Hok Hsecond].
  - apply (bool_decide_unpack (keyPath_ok (db Sample.store))). vm_compute. exact I.
  - split; [exact Hok|].
    destruct (Hsecond "c1" "c8" Sample.food eq_refl) as (Hold & c' & Hnew & _);
      [left; reflexivity|vm_compute; reflexivity|discriminate|].
    split; [exact Hold|]. exists c'. exact Hnew.
Defined.

